(** * EchoDeck video export pipeline: a shallow embedding

    The definitions below follow the TypeScript sources
    [server/services/videoAssembly.ts], [server/services/tts.ts],
    [server/storage.ts] and [server/routes.ts].

    Conventions of the embedding:
    - a JS [number] that the code computes with is an IEEE 754 binary64
      number ([float]) and its arithmetic is that of the machine; a number
      that is only handed on (a constant rate factor, a resolution) and a
      percentage that ffmpeg reports is written as the rational ([Q]) it
      stands for and converted where the code computes with it; progress
      percentages, which the code always rounds with [Math.floor], are
      integers ([Z]);
    - a JS string is a [string] (one [ascii] per code unit);
    - an optional field ([field?: T]) is an [option T]; [None] is [undefined];
    - a thrown exception is the [Throw] case of [Result]; state survives it;
    - the outside world (file system, ffprobe, ffmpeg, the speech API, the
      clock) is a record of oracles, [World]. *)

From Stdlib Require Import ZArith QArith Qround Qminmax String Ascii List Sorted Lia.
From Stdlib Require Import Floats Uint63.
From stdpp Require Import gmap strings list pretty.

Local Open Scope string_scope.
Local Open Scope list_scope.

(** Decimal constants stand for the nearest binary64 number, as they do in
    JavaScript. *)
#[local] Set Warnings "-inexact-float".

(** ** JavaScript values and helpers *)

Module Js.

(** Exceptions: [e.name] and [e.message]; [e.status] and [e.code] are set
    on the errors of the speech API client only. *)
Record Error := mkError {
  name : string;
  message : string;
  status : option Z;
  code : option string
}.

Definition newError (msg : string) : Error := mkError "Error" msg None None.
Definition newTypeError (msg : string) : Error := mkError "TypeError" msg None None.

Inductive Result (A : Type) : Type :=
| Ok (a : A)
| Throw (e : Error).
Arguments Ok {A} a.
Arguments Throw {A} e.

(** [s || d] for an optional string: [undefined] and [""] are falsy. *)
Definition or_default (s : option string) (d : string) : string :=
  match s with
  | Some EmptyString => d
  | Some v => v
  | None => d
  end.

(** [String.prototype.includes]. *)
Definition includes (s sub : string) : bool :=
  match String.index 0 sub s with
  | Some _ => true
  | None => false
  end.

(** [Array.prototype.includes] on an array of strings. *)
Definition array_includes (l : list string) (x : string) : bool :=
  existsb (String.eqb x) l.

(** [Array.prototype.some]. *)
Definition some {A : Type} (f : A -> bool) (l : list A) : bool := existsb f l.

(** White space removed by [String.prototype.trim], among the code units
    below 256: tab to carriage return, space and no-break space. *)
Definition is_space (c : ascii) : bool :=
  let n := nat_of_ascii c in
  (n =? 32)%nat || ((9 <=? n)%nat && (n <=? 13)%nat) || (n =? 160)%nat.

Fixpoint trimStart (s : string) : string :=
  match s with
  | EmptyString => EmptyString
  | String c r => if is_space c then trimStart r else s
  end.

Fixpoint trimEnd (s : string) : string :=
  match s with
  | EmptyString => EmptyString
  | String c r =>
      match trimEnd r with
      | EmptyString => if is_space c then EmptyString else String c EmptyString
      | r' => String c r'
      end
  end.

Definition trim (s : string) : string := trimEnd (trimStart s).

(** [Array.prototype.join]. *)
Fixpoint join (sep : string) (l : list string) : string :=
  match l with
  | [] => ""
  | [x] => x
  | x :: r => x +:+ sep +:+ join sep r
  end.

(** Property names every object literal inherits from [Object.prototype]. *)
Definition ObjectPrototypeKeys : list string :=
  [ "constructor"; "hasOwnProperty"; "isPrototypeOf"; "propertyIsEnumerable";
    "toLocaleString"; "toString"; "valueOf"; "__proto__";
    "__defineGetter__"; "__defineSetter__"; "__lookupGetter__";
    "__lookupSetter__" ].

(** The outcome of [obj[key]] on an object literal with own properties
    [own]: an own property, a property found on the prototype chain (a
    function, or [Object.prototype] itself for ["__proto__"]; truthy, and
    without any of the fields the literals below carry), or [undefined]. *)
Inductive Prop_ (A : Type) : Type :=
| Own (a : A)
| Inherited
| Undefined.
Arguments Own {A} a.
Arguments Inherited {A}.
Arguments Undefined {A}.

Fixpoint own_property {A : Type} (own : list (string * A)) (key : string) : option A :=
  match own with
  | [] => None
  | (k, v) :: r => if String.eqb k key then Some v else own_property r key
  end.

Definition get {A : Type} (own : list (string * A)) (key : string) : Prop_ A :=
  match own_property own key with
  | Some v => Own v
  | None => if array_includes ObjectPrototypeKeys key then Inherited else Undefined
  end.

(** The number that a length or an index is; the conversion is exact below
    2^53. *)
Definition number_of_nat (n : nat) : float :=
  PrimFloat.of_uint63 (Uint63.of_Z (Z.of_nat n)).

(** The binary64 number nearest to an integer, and the one that a rational
    stands for: a rational that is a binary64 number with a numerator
    below 2^53 is converted exactly. *)
Definition number_of_Z (z : Z) : float :=
  SF2Prim (binary_normalize prec emax z 0 false).

Definition number_of_Q (q : Q) : float :=
  (number_of_Z (Qnum q) / number_of_Z (Zpos (Qden q)))%float.

(** [Math.floor] of a finite number, as an integer.  Of a number that is
    not finite, which stays what it is in JavaScript, the integer is 0. *)
Definition Math_floor (x : float) : Z :=
  match Prim2SF x with
  | S754_finite s m e =>
      let v := if s then Zneg m else Zpos m in
      if (0 <=? e)%Z then (v * 2 ^ e)%Z else (v / 2 ^ (- e))%Z
  | _ => 0%Z
  end.

End Js.

Import Js.

(** ** videoAssembly.ts: settings and their validators *)

Module Resolution.
Record t := mk { width : Q; height : Q }.
End Resolution.

Module VideoQualitySettings.
Record t := mk {
  videoCodec : option string;
  audioCodec : option string;
  videoBitrate : option string;
  audioBitrate : option string;
  crf : option Q;
  preset : option string;
  format : option string;
  resolution : option Resolution.t
}.
End VideoQualitySettings.

Module TransitionSettings.
Record t := mk { type : string; duration : float }.
End TransitionSettings.

Module Fallback.
(** An entry of [SAFE_CODEC_FALLBACKS]. *)
Record t := mk { videoCodec : string; format : string }.
End Fallback.

Definition CODEC_CONTAINER_COMPATIBILITY : list (string * list string) :=
  [ ("mp4", ["libx264"; "libx265"; "h264_nvenc"]);
    ("avi", ["libxvid"; "mjpeg"]);
    ("mov", ["libx264"; "libx265"; "h264_nvenc"; "prores"]);
    ("mkv", ["libx264"; "libx265"; "h264_nvenc"]) ].

Definition SAFE_CODEC_FALLBACKS : list (string * Fallback.t) :=
  [ ("avi", Fallback.mk "libxvid" "avi");
    ("default", Fallback.mk "libx264" "mp4") ].

Definition SAFE_CODEC_FALLBACKS_default : Fallback.t := Fallback.mk "libx264" "mp4".

Definition VIDEO_QUALITY_PRESETS_high : VideoQualitySettings.t :=
  VideoQualitySettings.mk (Some "libx264") (Some "aac") None (Some "192k")
    (Some 18%Q) (Some "slow") (Some "mp4") (Some (Resolution.mk 1920 1080)).

Definition VIDEO_QUALITY_PRESETS_medium : VideoQualitySettings.t :=
  VideoQualitySettings.mk (Some "libx264") (Some "aac") None (Some "128k")
    (Some 23%Q) (Some "medium") (Some "mp4") (Some (Resolution.mk 1920 1080)).

Definition VIDEO_QUALITY_PRESETS_low : VideoQualitySettings.t :=
  VideoQualitySettings.mk (Some "libx264") (Some "aac") None (Some "128k")
    (Some 28%Q) (Some "fast") (Some "mp4") (Some (Resolution.mk 1280 720)).

(** [{ ...settings, videoCodec: c, format: f }] *)
Definition with_codec_format (settings : VideoQualitySettings.t)
    (c f : option string) : VideoQualitySettings.t :=
  VideoQualitySettings.mk c
    (VideoQualitySettings.audioCodec settings)
    (VideoQualitySettings.videoBitrate settings)
    (VideoQualitySettings.audioBitrate settings)
    (VideoQualitySettings.crf settings)
    (VideoQualitySettings.preset settings)
    f
    (VideoQualitySettings.resolution settings).

(** [SAFE_CODEC_FALLBACKS[format] || SAFE_CODEC_FALLBACKS.default], then the
    spread.  An inherited property is truthy and has neither a [videoCodec]
    nor a [format] field. *)
Definition apply_fallback (settings : VideoQualitySettings.t) (format : string)
    : VideoQualitySettings.t :=
  match Js.get SAFE_CODEC_FALLBACKS format with
  | Own fallback =>
      with_codec_format settings
        (Some (Fallback.videoCodec fallback)) (Some (Fallback.format fallback))
  | Inherited => with_codec_format settings None None
  | Undefined =>
      with_codec_format settings
        (Some (Fallback.videoCodec SAFE_CODEC_FALLBACKS_default))
        (Some (Fallback.format SAFE_CODEC_FALLBACKS_default))
  end.

Definition validateCodecContainerCompatibility (settings : VideoQualitySettings.t)
    : Result VideoQualitySettings.t :=
  let format := or_default (VideoQualitySettings.format settings) "mp4" in
  let codec := or_default (VideoQualitySettings.videoCodec settings) "libx264" in
  match Js.get CODEC_CONTAINER_COMPATIBILITY format with
  | Undefined => Ok (apply_fallback settings format)
  | Own compatibleCodecs =>
      if array_includes compatibleCodecs codec
      then Ok settings
      else Ok (apply_fallback settings format)
  | Inherited =>
      (* [compatibleCodecs] is truthy and has no [includes] method *)
      Throw (newTypeError "compatibleCodecs.includes is not a function")
  end.

Definition supportedTransitions : list string := ["none"; "crossfade"; "fade-to-black"].

Definition validateTransitionSettings (transitionSettings : TransitionSettings.t)
    : TransitionSettings.t :=
  if negb (array_includes supportedTransitions (TransitionSettings.type transitionSettings))
  then TransitionSettings.mk "crossfade" (TransitionSettings.duration transitionSettings)
  else transitionSettings.

(** ** Data that flows through the pipeline *)

Module Slide.
(** The fields of a [Slide] row that the pipeline reads. *)
Record t := mk {
  id : string;
  title : string;
  bulletPoints : option (list string);
  speakerNotes : option string
}.
End Slide.

Module SlideNarrationResult.
Record t := mk { slideId : string; audioPath : string; duration : float }.
End SlideNarrationResult.

Module TTSResult.
Record t := mk { audioPath : string; duration : float }.
End TTSResult.

Module PresentationRenderResult.
Record t := mk { slideId : string; imagePath : string; width : Z; height : Z }.
End PresentationRenderResult.

Module SlideVideoInput.
Record t := mk { imagePath : string; audioPath : string; duration : float }.
End SlideVideoInput.

Module VideoAssemblyResult.
Record t := mk { videoPath : string; duration : float }.
End VideoAssemblyResult.

Module PresentationVideoResult.
Record t := mk { videoPath : string; totalDuration : float }.
End PresentationVideoResult.

Module VideoProgress.
Record t := mk { progress : Z; status : string }.
End VideoProgress.

Module ExportRow.
(** A row of [MemStorage.exports], the type [Export] of the schema. *)
Record t := mk {
  id : string;
  presentationId : string;
  format : string;
  fileUrl : option string;
  filePath : option string;
  fileSize : option Z;
  isReady : bool;
  progress : Z;
  phase : option string;
  error : option string;
  createdAt : N;
  updatedAt : N
}.
End ExportRow.

Module SpeechRequest.
(** The argument of [openai.audio.speech.create]. *)
Record t := mk { model : string; voice : string; input : string; response_format : string }.
End SpeechRequest.

Module ProgressWrite.
(** One call of [updateJobProgress]. *)
Record t := mk { jobId : string; progress : Z; status : string }.
End ProgressWrite.

Module Presets.
(** [VIDEO_QUALITY_PRESETS], a module-level object that [processVideoExport]
    updates in place. *)
Record t := mk {
  high : VideoQualitySettings.t;
  medium : VideoQualitySettings.t;
  low : VideoQualitySettings.t
}.
End Presets.

Inductive Quality := high | medium | low.

Module VideoExportOptions.
(** [Partial<VideoExportOptions>] *)
Record t := mk {
  quality : option Quality;
  voice : option string;
  ttsModel : option string;
  transition : option TransitionSettings.t;
  format : option string
}.
End VideoExportOptions.

Module Presentation.
Record t := mk { id : string; title : option string; slides : option (list Slide.t) }.
End Presentation.

Module FileResult.
(** What the PPTX generator and the converters return. *)
Record t := mk { filePath : string; fileSize : Z }.
End FileResult.

(** ** The outside world *)

(** What [ffmpeg.ffprobe] calls back with. *)
Inductive ProbeOutcome :=
| ProbeError (errMessage : string)
| ProbeNoDuration
| ProbeDuration (d : float).

(** What [openai.audio.speech.create] and the write of its response end in:
    a file of [bytes] bytes, or a thrown error. *)
Inductive SpeechOutcome :=
| SpeechAudio (bytes : Z)
| SpeechError (e : Error).

Module FfmpegRun.
(** One run of an ffmpeg command: the [percent] field of each ['progress']
    event, in order, and then either ['end'] ([None]) or ['error'] with
    [err.message]. *)
Record t := mk { events : list (option Q); failure : option string }.
End FfmpegRun.

Record World := mkWorld {
  cwd : string;
  (** the n-th reading of the clock ([Date.now()], [new Date()]) *)
  Date_now : nat -> N;
  (** [fs.existsSync] and [fs.statSync(p).size] at the time the code asks *)
  fs_stat : string -> option Z;
  ffprobe : string -> ProbeOutcome;
  (** the n-th call of the speech API *)
  speech_create : nat -> SpeechRequest.t -> SpeechOutcome;
  (** image, audio, output, validated settings, attempt *)
  ffmpeg_slide : string -> string -> string -> VideoQualitySettings.t -> nat -> FfmpegRun.t;
  ffmpeg_reencode : string -> string -> VideoQualitySettings.t -> FfmpegRun.t;
  ffmpeg_concat :
    list string -> string -> TransitionSettings.t -> VideoQualitySettings.t -> FfmpegRun.t;
  renderPresentationFromSlides : list Slide.t -> Result (list PresentationRenderResult.t);
  pptx_generatePresentation : Presentation.t -> Result FileResult.t;
  convertToPDF : string -> Presentation.t -> Result FileResult.t;
  convertToHTML : string -> Presentation.t -> Result FileResult.t;
  googleSlides_isConfigured : bool;
  (** [extractPresentationData] followed by [createGoogleSlidesPresentation] *)
  googleSlides_create : string -> Presentation.t -> Result string
}.

(** ** Mutable state *)

Record State := mkState {
  exports : gmap string ExportRow.t;
  jobProgress : gmap string VideoProgress.t;
  presets : Presets.t;
  clock : nat;
  (** history of the requests sent to the speech API, oldest first *)
  speechRequests : list SpeechRequest.t;
  (** history of the calls of [updateJobProgress], oldest first *)
  progressWrites : list ProgressWrite.t
}.

Definition set_exports (f : gmap string ExportRow.t -> gmap string ExportRow.t) (s : State) : State :=
  mkState (f (exports s)) (jobProgress s) (presets s) (clock s)
    (speechRequests s) (progressWrites s).

Definition set_jobProgress (f : gmap string VideoProgress.t -> gmap string VideoProgress.t)
    (s : State) : State :=
  mkState (exports s) (f (jobProgress s)) (presets s) (clock s)
    (speechRequests s) (progressWrites s).

Definition set_presets (f : Presets.t -> Presets.t) (s : State) : State :=
  mkState (exports s) (jobProgress s) (f (presets s)) (clock s)
    (speechRequests s) (progressWrites s).

Definition set_clock (f : nat -> nat) (s : State) : State :=
  mkState (exports s) (jobProgress s) (presets s) (f (clock s))
    (speechRequests s) (progressWrites s).

Definition set_speechRequests (f : list SpeechRequest.t -> list SpeechRequest.t)
    (s : State) : State :=
  mkState (exports s) (jobProgress s) (presets s) (clock s)
    (f (speechRequests s)) (progressWrites s).

Definition set_progressWrites (f : list ProgressWrite.t -> list ProgressWrite.t)
    (s : State) : State :=
  mkState (exports s) (jobProgress s) (presets s) (clock s)
    (speechRequests s) (f (progressWrites s)).

Definition initialPresets : Presets.t :=
  Presets.mk VIDEO_QUALITY_PRESETS_high VIDEO_QUALITY_PRESETS_medium
    VIDEO_QUALITY_PRESETS_low.

Definition initialState : State := mkState ∅ ∅ initialPresets 0 [] [].

(** ** Computations: state passing with exceptions *)

Definition M (A : Type) : Type := State -> Result A * State.

#[global] Instance M_ret : MRet M := fun A a s => (Ok a, s).

#[global] Instance M_bind : MBind M := fun A B f m s =>
  match m s with
  | (Ok a, s') => f a s'
  | (Throw e, s') => (Throw e, s')
  end.

Definition throw {A : Type} (e : Error) : M A := fun s => (Throw e, s).

(** [try { m } catch (e) { h e }] *)
Definition try_catch {A : Type} (m : M A) (h : Error -> M A) : M A := fun s =>
  match m s with
  | (Ok a, s') => (Ok a, s')
  | (Throw e, s') => h e s'
  end.

(** A value or an exception that does not touch the state. *)
Definition lift {A : Type} (r : Result A) : M A := fun s => (r, s).

Definition modify (f : State -> State) : M unit := fun s => (Ok tt, f s).

Definition gets {A : Type} (f : State -> A) : M A := fun s => (Ok (f s), s).

(** [for (const x of l) { body x }] *)
Fixpoint for_each {A : Type} (body : A -> M unit) (l : list A) : M unit :=
  match l with
  | [] => mret tt
  | x :: r => body x ;; for_each body r
  end.

Section Pipeline.

Variable w : World.

(** [Date.now()] *)
Definition now : M N := fun s => (Ok (Date_now w (clock s)), set_clock S s).

(** [path.join(dir, file)] for the relative names used here. *)
Definition path_join (dir file : string) : string := dir +:+ "/" +:+ file.

(** ** storage.ts: MemStorage *)

(** [a || b] on optional strings. *)
Definition or_string (a b : option string) : option string :=
  match a with
  | Some EmptyString => b
  | Some v => Some v
  | None => b
  end.

(** [a || b] on optional numbers. *)
Definition or_number (a b : option Z) : option Z :=
  match a with
  | Some 0%Z => b
  | Some v => Some v
  | None => b
  end.

Definition updateExportStatus (id : string) (isReady : bool)
    (fileUrl errorMessage : option string) : M unit :=
  exportData ← gets (fun s => exports s !! id);
  match exportData with
  | None => mret tt
  | Some exportData =>
      t ← now;
      let truthy := match or_string errorMessage None with Some _ => true | None => false end in
      let updated :=
        ExportRow.mk (ExportRow.id exportData) (ExportRow.presentationId exportData)
          (ExportRow.format exportData)
          (or_string fileUrl (ExportRow.fileUrl exportData))
          (ExportRow.filePath exportData) (ExportRow.fileSize exportData)
          isReady
          (if isReady then 100%Z
           else if truthy then ExportRow.progress exportData else ExportRow.progress exportData)
          (if isReady then Some "complete"
           else if truthy then Some "error" else ExportRow.phase exportData)
          (or_string errorMessage None)
          (ExportRow.createdAt exportData) t in
      modify (set_exports <[id := updated]>)
  end.

Definition updateExportProgress (id : string) (progress : Z)
    (phase message error : option string) : M unit :=
  exportData ← gets (fun s => exports s !! id);
  match exportData with
  | None => mret tt
  | Some exportData =>
      t ← now;
      let updated :=
        ExportRow.mk (ExportRow.id exportData) (ExportRow.presentationId exportData)
          (ExportRow.format exportData) (ExportRow.fileUrl exportData)
          (ExportRow.filePath exportData) (ExportRow.fileSize exportData)
          (ExportRow.isReady exportData)
          (Z.max 0 (Z.min 100 progress))
          (or_string phase (ExportRow.phase exportData))
          (or_string error (ExportRow.error exportData))
          (ExportRow.createdAt exportData) t in
      modify (set_exports <[id := updated]>)
  end.

Definition updateExportFilePath (id : string) (filePath : string)
    (fileSize : option Z) : M unit :=
  exportData ← gets (fun s => exports s !! id);
  match exportData with
  | None => mret tt
  | Some exportData =>
      t ← now;
      let updated :=
        ExportRow.mk (ExportRow.id exportData) (ExportRow.presentationId exportData)
          (ExportRow.format exportData) (ExportRow.fileUrl exportData)
          (Some filePath)
          (or_number fileSize (ExportRow.fileSize exportData))
          (ExportRow.isReady exportData) (ExportRow.progress exportData)
          (ExportRow.phase exportData) (ExportRow.error exportData)
          (ExportRow.createdAt exportData) t in
      modify (set_exports <[id := updated]>)
  end.

(** ** tts.ts: TTSService *)

Definition tts_tempDir : string := path_join (path_join (cwd w) "uploads") "tts_audio".
Definition tts_maxRetries : nat := 3.

Definition isRateLimitError (error : Error) : bool :=
  match Js.status error with Some 429%Z => true | _ => false end
  || match Js.code error with Some c => String.eqb c "rate_limit_exceeded" | None => false end
  || includes (Js.message error) "rate_limit_exceeded"
  || includes (Js.message error) "Rate limit"
  || includes (Js.message error) "rate limit".

(** [text.length > 4000 ? text.substring(0, 4000) + "..." : text] *)
Definition truncatedText (text : string) : string :=
  if (4000 <? String.length text)%nat
  then String.substring 0 4000 text +:+ "..."
  else text.

(** [getAudioDuration], the same in tts.ts and in videoAssembly.ts. *)
Definition getAudioDuration (audioPath : string) : M float :=
  match ffprobe w audioPath with
  | ProbeError m => throw (newError ("Failed to get audio duration: " +:+ m))
  | ProbeNoDuration => throw (newError "Unable to determine audio duration")
  | ProbeDuration d => mret d
  end.

(** The recursion of [generateAudioWithRetry] goes from [attempt] to
    [attempt + 1] while [attempt < maxRetries]; [fuel] bounds its depth. *)
Fixpoint generateAudioWithRetry (fuel : nat) (text voice model format fileName : string)
    (attempt : nat) : M string :=
  let handler (error : Error) : M string :=
    if isRateLimitError error && (attempt <? tts_maxRetries)%nat
    then
      match fuel with
      | S fuel' => generateAudioWithRetry fuel' text voice model format fileName (S attempt)
      | O => throw (newError "TTS generation failed: retry depth exceeded")
      end
    else if includes (Js.message error) "rate_limit_exceeded"
            || match Js.status error with Some 429%Z => true | _ => false end
    then throw (newError "OpenAI TTS rate limit exceeded. Please try again in a few minutes.")
    else throw (newError ("TTS generation failed: " +:+ Js.message error)) in
  try_catch
    (let request := SpeechRequest.mk model voice (truncatedText text) format in
     n ← gets (fun s => length (speechRequests s));
     modify (set_speechRequests (fun l => l ++ [request]));;
     match speech_create w n request with
     | SpeechError e => throw e
     | SpeechAudio bytes =>
         let audioPath := path_join tts_tempDir (fileName +:+ "." +:+ format) in
         if (bytes =? 0)%Z
         then throw (newError "Generated audio file is empty")
         else mret audioPath
     end)
    handler.

Definition generateSlideNarration (slideId text voice model format : string)
    : M TTSResult.t :=
  if (String.length (trim text) =? 0)%nat
  then throw (newError "No text provided for narration")
  else
    try_catch
      (t ← now;
       audioPath ← generateAudioWithRetry tts_maxRetries text voice model format
                     ("slide_" +:+ slideId +:+ "_" +:+ pretty t) 1;
       duration ← getAudioDuration audioPath;
       mret (TTSResult.mk audioPath duration))
      (fun error => throw (newError ("Narration generation failed: " +:+ Js.message error))).

(** The text narrated for a slide: the trimmed speaker notes, or the title
    and the bullet points when there are none. *)
Definition narrationText (slide : Slide.t) : string :=
  match option_map trim (Slide.speakerNotes slide) with
  | Some (String c r) => String c r
  | _ =>
      let bulletText :=
        match Slide.bulletPoints slide with
        | Some l => join ". " l
        | None => ""
        end in
      Slide.title slide +:+ ". " +:+ bulletText
  end.

(** The body of the loop of [generatePresentationNarration], inside its
    [try]: [None] is [continue]. *)
Definition narrateSlide (slide : Slide.t) (voice model format : string)
    : M (option SlideNarrationResult.t) :=
  let text := narrationText slide in
  if (String.length text <? 5)%nat
  then mret None
  else
    result ← generateSlideNarration (Slide.id slide) text voice model format;
    mret (Some (SlideNarrationResult.mk (Slide.id slide)
                  (TTSResult.audioPath result) (TTSResult.duration result))).

(** The loop itself, with its two accumulators. *)
Fixpoint narrationLoop (slides : list Slide.t) (voice model format : string)
    (results : list SlideNarrationResult.t) (errors : list (string * string))
    : M (list SlideNarrationResult.t * list (string * string)) :=
  match slides with
  | [] => mret (results, errors)
  | slide :: rest =>
      acc ← try_catch
              (r ← narrateSlide slide voice model format;
               match r with
               | None => mret (results, errors)
               | Some r => mret (results ++ [r], errors)
               end)
              (fun error => mret (results, errors ++ [(Slide.id slide, Js.message error)]));
      narrationLoop rest voice model format acc.1 acc.2
  end.

Definition generatePresentationNarration (slides : list Slide.t)
    (voice model format : string) : M (list SlideNarrationResult.t) :=
  match slides with
  | [] => throw (newError "No slides provided for narration")
  | _ =>
      acc ← narrationLoop slides voice model format [] [];
      let results := acc.1 in
      let errors := acc.2 in
      if (length results =? 0)%nat && (0 <? length errors)%nat
      then throw (newError ("Failed to generate any narration. Errors: "
                             +:+ join ", " (map snd errors)))
      else mret results
  end.

(** ** videoAssembly.ts: VideoAssemblyService *)

Definition video_tempDir : string := path_join (path_join (cwd w) "uploads") "videos".
Definition video_maxRetries : nat := 3.

(** [this.storage] is either [null] or the shared [MemStorage]; the flag
    [storage] tells which. *)
Definition updateJobProgress (storage : bool) (jobId : string) (progress : Z)
    (status : string) : M unit :=
  modify (set_jobProgress <[jobId := VideoProgress.mk progress status]>);;
  modify (set_progressWrites (fun l => l ++ [ProgressWrite.mk jobId progress status]));;
  if storage
  then updateExportProgress jobId progress (Some "assembly") (Some status) None
  else mret tt.

Definition retryableErrors : list string :=
  [ "EPIPE"; "ECONNRESET"; "ETIMEDOUT"; "Timeout"; "ffmpeg exited with code 1";
    "Connection lost" ].

Definition isRetryableError (error : Error) : bool :=
  Js.some (fun errType => includes (Js.message error) errType
                          || includes (Js.name error) errType)
    retryableErrors.

(** [for (attempt = 1; attempt <= maxRetries; attempt++)]: [remaining] counts
    the iterations left, [attempt + remaining = maxRetries + 1].  The
    operation is told the attempt so that the world can answer each run.
    The [throw lastError] after the loop is reached only when the loop has
    no iteration at all. *)
Fixpoint retryLoop {A : Type} (operation : nat -> M A) (maxRetries : nat)
    (attempt remaining : nat) : M A :=
  match remaining with
  | O => throw (newError "undefined")
  | S remaining' =>
      try_catch (operation attempt)
        (fun lastError =>
           if negb (isRetryableError lastError) || (attempt =? maxRetries)%nat
           then throw lastError
           else retryLoop operation maxRetries (S attempt) remaining')
  end.

Definition retryOperation {A : Type} (operation : nat -> M A) (maxRetries : nat) : M A :=
  retryLoop operation maxRetries 1 maxRetries.

(** [progress.percent || 0] *)
Definition percent_or_zero (p : option Q) : Q :=
  match p with
  | Some q => q
  | None => 0%Q
  end.

Definition createVideoWithImageAndAudio (imagePath audioPath outputPath : string)
    (duration : float) (qualitySettings : VideoQualitySettings.t)
    (progressCallback : option (Q -> string -> M unit)) : M string :=
  validatedSettings ← lift (validateCodecContainerCompatibility qualitySettings);
  retryOperation
    (fun attempt =>
       let run := ffmpeg_slide w imagePath audioPath outputPath validatedSettings attempt in
       for_each
         (fun p =>
            let percent := Qmin (percent_or_zero p) 100 in
            match progressCallback with
            | Some callback => callback percent "encoding"
            | None => mret tt
            end)
         (FfmpegRun.events run);;
       match FfmpegRun.failure run with
       | None => mret outputPath
       | Some m => throw (newError ("Video encoding failed: " +:+ m))
       end)
    video_maxRetries.

Definition createSlideVideo (imagePath audioPath outputPath : string)
    (qualitySettings : VideoQualitySettings.t)
    (progressCallback : option (Q -> string -> M unit)) : M VideoAssemblyResult.t :=
  match fs_stat w imagePath, fs_stat w audioPath with
  | None, _ => throw (newError ("Image file not found: " +:+ imagePath))
  | Some _, None => throw (newError ("Audio file not found: " +:+ audioPath))
  | Some _, Some _ =>
      try_catch
        (audioDuration ← getAudioDuration audioPath;
         videoPath ← createVideoWithImageAndAudio imagePath audioPath outputPath
                       audioDuration qualitySettings progressCallback;
         match fs_stat w videoPath with
         | None => throw (newError "Video file was not created")
         | Some size =>
             if (size =? 0)%Z
             then throw (newError "Generated video file is empty")
             else mret (VideoAssemblyResult.mk videoPath audioDuration)
         end)
        (fun error => throw (newError ("Video creation failed: " +:+ Js.message error)))
  end.

Definition reencodeVideo (inputPath outputPath : string)
    (qualitySettings : VideoQualitySettings.t) : M string :=
  validatedSettings ← lift (validateCodecContainerCompatibility qualitySettings);
  match FfmpegRun.failure (ffmpeg_reencode w inputPath outputPath validatedSettings) with
  | None => mret outputPath
  | Some m => throw (newError ("Video re-encoding failed: " +:+ m))
  end.

(** The run of a concatenation command, shared by the simple and the
    filter-graph variants: every ['progress'] event goes to the callback. *)
Definition runConcat (run : FfmpegRun.t) (outputPath : string)
    (progressCallback : option (Q -> M unit)) : M string :=
  for_each
    (fun p =>
       let percent := percent_or_zero p in
       match progressCallback with
       | Some callback => callback percent
       | None => mret tt
       end)
    (FfmpegRun.events run);;
  match FfmpegRun.failure run with
  | None => mret outputPath
  | Some m => throw (newError ("Video concatenation failed: " +:+ m))
  end.

Definition concatenateVideosSimple (videoPaths : list string) (outputPath : string)
    (transitionSettings : TransitionSettings.t)
    (qualitySettings : VideoQualitySettings.t)
    (progressCallback : option (Q -> M unit)) : M string :=
  (* the name of the concat list file reads the clock *)
  _ ← now;
  validatedSettings ← lift (validateCodecContainerCompatibility qualitySettings);
  runConcat (ffmpeg_concat w videoPaths outputPath transitionSettings validatedSettings)
    outputPath progressCallback.

Definition concatenateVideosWithTransitions (videoPaths : list string)
    (outputPath : string) (transitionSettings : TransitionSettings.t)
    (qualitySettings : VideoQualitySettings.t)
    (progressCallback : option (Q -> M unit)) : M string :=
  if String.eqb (TransitionSettings.type transitionSettings) "none"
  then concatenateVideosSimple videoPaths outputPath transitionSettings
         qualitySettings progressCallback
  else
    validatedSettings ← lift (validateCodecContainerCompatibility qualitySettings);
    runConcat (ffmpeg_concat w videoPaths outputPath transitionSettings validatedSettings)
      outputPath progressCallback.

(** [Math.floor((i / n) * 30)] at a checkpoint, where [i < n] are a
    position and a length: the floor of the exact value, which the
    binary64 computation of the code reaches too (see
    [slideBaseProgress_binary64] for the lengths up to 200). *)
Definition slideBaseProgress (i n : nat) : Z :=
  Qfloor (inject_Z (Z.of_nat i) / inject_Z (Z.of_nat n) * 30).

(** [Math.floor((i / n) * 30 + (slideProgress / n) * 30)], every quotient,
    product and sum rounded to binary64 as the code has it. *)
Definition slideOverallProgress (i n : nat) (slideProgress : Q) : Z :=
  Math_floor ((number_of_nat i / number_of_nat n) * 30
              + (number_of_Q slideProgress / number_of_nat n) * 30)%float.

(** [30 + Math.floor(progress * 0.7)], the product rounded to binary64. *)
Definition concatProgress (progress : Q) : Z :=
  (30 + Math_floor (number_of_Q progress * 0.7)%float)%Z.

(** The first loop of [assemblePresentationVideo], from index [i] on:
    [n] is [slides.length]; [slideVideos] and [totalDuration] accumulate. *)
Fixpoint slideLoop (storage : bool) (jobId : string)
    (qualitySettings : VideoQualitySettings.t) (n : nat)
    (slides : list SlideVideoInput.t) (i : nat)
    (slideVideos : list string) (totalDuration : float) : M (list string * float) :=
  match slides with
  | [] => mret (slideVideos, totalDuration)
  | slide :: rest =>
      updateJobProgress storage jobId (slideBaseProgress i n) "creating-slide-videos";;
      t ← now;
      let slideVideoPath :=
        path_join video_tempDir ("slide_" +:+ pretty i +:+ "_" +:+ pretty t +:+ ".mp4") in
      result ← createSlideVideo
                 (SlideVideoInput.imagePath slide) (SlideVideoInput.audioPath slide)
                 slideVideoPath qualitySettings
                 (Some (fun slideProgress phase =>
                          updateJobProgress storage jobId
                            (slideOverallProgress i n slideProgress)
                            ("creating-slide-" +:+ pretty (i + 1)%nat +:+ "-" +:+ phase)));
      slideLoop storage jobId qualitySettings n rest (S i)
        (slideVideos ++ [VideoAssemblyResult.videoPath result])
        (totalDuration + VideoAssemblyResult.duration result)%float
  end.

(** The adjustment of [totalDuration] for the transitions. *)
Definition adjustTotalDuration (n : nat) (validatedTransitions : TransitionSettings.t)
    (totalDuration : float) : float :=
  if (1 <? n)%nat
     && negb (String.eqb (TransitionSettings.type validatedTransitions) "none")
  then
    if String.eqb (TransitionSettings.type validatedTransitions) "crossfade"
    then (totalDuration
          - number_of_nat (n - 1) * TransitionSettings.duration validatedTransitions)%float
    else (totalDuration
          + number_of_nat (n - 1) * TransitionSettings.duration validatedTransitions)%float
  else totalDuration.

Definition assemblePresentationVideo (storage : bool) (slides : list SlideVideoInput.t)
    (outputPath : string) (qualitySettings : VideoQualitySettings.t)
    (transitionSettings : TransitionSettings.t) (jobId : string)
    : M PresentationVideoResult.t :=
  let validatedTransitions := validateTransitionSettings transitionSettings in
  match slides with
  | [] => throw (newError "No slides provided for video assembly")
  | _ =>
      try_catch
        (updateJobProgress storage jobId 0 "processing";;
         acc ← slideLoop storage jobId qualitySettings (length slides) slides 0 [] 0%float;
         let slideVideos := acc.1 in
         let totalDuration :=
           adjustTotalDuration (length slides) validatedTransitions acc.2 in
         updateJobProgress storage jobId 30 "concatenating-videos";;
         finalVideoPath ←
           match slideVideos with
           | [single] => reencodeVideo single outputPath qualitySettings
           | _ =>
               concatenateVideosWithTransitions slideVideos outputPath
                 validatedTransitions qualitySettings
                 (Some (fun progress =>
                          updateJobProgress storage jobId (concatProgress progress)
                            "concatenating-videos"))
           end;
         updateJobProgress storage jobId 95 "cleaning-up";;
         (* cleanupTemporaryFiles never throws and touches only the file system *)
         match fs_stat w finalVideoPath with
         | None => throw (newError "Final presentation video was not created")
         | Some size =>
             if (size =? 0)%Z
             then throw (newError "Generated presentation video is empty")
             else
               updateJobProgress storage jobId 100 "completed";;
               mret (PresentationVideoResult.mk finalVideoPath totalDuration)
         end)
        (fun error =>
           updateJobProgress storage jobId 0 "error";;
           throw (newError ("Video assembly failed: " +:+ Js.message error)))
  end.

(** ** routes.ts: the export jobs *)

(** One iteration of the pairing loop of [processVideoExport]:
    [slideImages[i]], the first narration with the same [slideId], and the
    input built from both when both are there. *)
Definition pairAt (slideImages : list PresentationRenderResult.t)
    (narrationResults : list SlideNarrationResult.t) (i : nat)
    : option SlideVideoInput.t :=
  image ← slideImages !! i;
  narration ← List.find
                 (fun n => String.eqb (SlideNarrationResult.slideId n)
                             (PresentationRenderResult.slideId image))
                 narrationResults;
  Some (SlideVideoInput.mk (PresentationRenderResult.imagePath image)
          (SlideNarrationResult.audioPath narration)
          (SlideNarrationResult.duration narration)).

(** [for (let i = 0; i < Math.min(images.length, narrations.length); i++)] *)
Definition pairSlideVideoInputs (slideImages : list PresentationRenderResult.t)
    (narrationResults : list SlideNarrationResult.t) : list SlideVideoInput.t :=
  omap (pairAt slideImages narrationResults)
    (seq 0 (Nat.min (length slideImages) (length narrationResults))).

Definition preset_get (quality : Quality) (p : Presets.t) : VideoQualitySettings.t :=
  match quality with
  | high => Presets.high p
  | medium => Presets.medium p
  | low => Presets.low p
  end.

Definition with_format (settings : VideoQualitySettings.t) (f : string)
    : VideoQualitySettings.t :=
  with_codec_format settings (VideoQualitySettings.videoCodec settings) (Some f).

(** [VIDEO_QUALITY_PRESETS[quality].format = f] *)
Definition preset_set_format (quality : Quality) (f : string) (p : Presets.t) : Presets.t :=
  match quality with
  | high => Presets.mk (with_format (Presets.high p) f) (Presets.medium p) (Presets.low p)
  | medium => Presets.mk (Presets.high p) (with_format (Presets.medium p) f) (Presets.low p)
  | low => Presets.mk (Presets.high p) (Presets.medium p) (with_format (Presets.low p) f)
  end.

Definition default {A : Type} (o : option A) (d : A) : A :=
  match o with
  | Some a => a
  | None => d
  end.

Definition processVideoExport (exportId : string) (presentation : Presentation.t)
    (options : VideoExportOptions.t) : M string :=
  let quality := default (VideoExportOptions.quality options) medium in
  let voice := or_default (VideoExportOptions.voice options) "alloy" in
  let ttsModel := or_default (VideoExportOptions.ttsModel options) "tts-1" in
  let transition :=
    default (VideoExportOptions.transition options)
      (TransitionSettings.mk "crossfade" 0.5) in
  let format := or_default (VideoExportOptions.format options) "mp4" in
  let slides := default (Presentation.slides presentation) [] in
  match slides with
  | [] => throw (newError "No slides found in presentation for video export")
  | _ =>
      try_catch
        (updateExportProgress exportId 15 (Some "tts")
           (Some "Generating audio narration...") None;;
         narrationResults ← generatePresentationNarration slides voice ttsModel "mp3";
         match narrationResults with
         | [] => throw (newError "Failed to generate any audio narration for slides")
         | _ =>
             updateExportProgress exportId 33 (Some "tts")
               (Some ("Generated narration for " +:+ pretty (length narrationResults)
                      +:+ " slides")) None;;
             updateExportProgress exportId 40 (Some "rendering")
               (Some "Rendering slides to images...") None;;
             slideImages ← lift (renderPresentationFromSlides w slides);
             match slideImages with
             | [] => throw (newError "Failed to render any slide images")
             | _ =>
                 updateExportProgress exportId 66 (Some "rendering")
                   (Some ("Rendered " +:+ pretty (length slideImages)
                          +:+ " slide images")) None;;
                 updateExportProgress exportId 70 (Some "assembly")
                   (Some "Assembling final video...") None;;
                 let slideVideoInputs := pairSlideVideoInputs slideImages narrationResults in
                 match slideVideoInputs with
                 | [] => throw (newError "Failed to match slide images with narration audio")
                 | _ =>
                     timestamp ← now;
                     let outputPath :=
                       path_join (path_join (path_join (cwd w) "uploads") "videos")
                         ("presentation_" +:+ Presentation.id presentation +:+ "_"
                          +:+ pretty timestamp +:+ "." +:+ format) in
                     (if negb (String.eqb format "mp4")
                      then modify (set_presets (preset_set_format quality format))
                      else mret tt);;
                     qualitySettings ← gets (fun s => preset_get quality (presets s));
                     videoResult ← assemblePresentationVideo true slideVideoInputs
                                     outputPath qualitySettings transition exportId;
                     (* cleanupVideoFiles never throws and touches only the file system *)
                     mret (PresentationVideoResult.videoPath videoResult)
                 end
             end
         end)
        (fun error => throw error)
  end.

Definition downloadUrl (exportId : string) : string :=
  "/api/exports/" +:+ exportId +:+ "/download".

(** The [switch (format)] of [processExportAsync]; the result is [fileUrl]. *)
Definition convertExport (exportId : string) (presentation : Presentation.t)
    (format : string) (options : option VideoExportOptions.t)
    (masterPptxPath : string) : M string :=
  if String.eqb format "pdf" then
    updateExportProgress exportId 70 (Some "conversion") (Some "Converting to PDF...") None;;
    pdfResult ← lift (convertToPDF w masterPptxPath presentation);
    updateExportFilePath exportId (FileResult.filePath pdfResult)
      (Some (FileResult.fileSize pdfResult));;
    mret (downloadUrl exportId)
  else if String.eqb format "html" then
    updateExportProgress exportId 70 (Some "conversion") (Some "Converting to HTML...") None;;
    htmlResult ← lift (convertToHTML w masterPptxPath presentation);
    updateExportFilePath exportId (FileResult.filePath htmlResult)
      (Some (FileResult.fileSize htmlResult));;
    mret (downloadUrl exportId)
  else if String.eqb format "google-slides" then
    if negb (googleSlides_isConfigured w)
    then throw (newError "Google Slides integration not configured. Please set ZAPIER_MCP_API_KEY environment variable.")
    else
      updateExportProgress exportId 70 (Some "conversion")
        (Some "Creating Google Slides...") None;;
      lift (googleSlides_create w masterPptxPath presentation)
  else if String.eqb format "video" then
    updateExportProgress exportId 10 (Some "tts") (Some "Starting video export") None;;
    videoPath ← processVideoExport exportId presentation
                  (default options (VideoExportOptions.mk None None None None None));
    updateExportFilePath exportId videoPath None;;
    match fs_stat w videoPath with
    | Some size => updateExportFilePath exportId videoPath (Some size)
    | None => mret tt
    end;;
    mret (downloadUrl exportId)
  else throw (newError ("Unsupported export format: " +:+ format)).

(** The [try] block of [processExportAsync]. *)
Definition processExportAsync_try (exportId : string) (presentation : Presentation.t)
    (format : string) (options : option VideoExportOptions.t) : M unit :=
  let finish (masterPptxPath : string) : M unit :=
    fileUrl ← convertExport exportId presentation format options masterPptxPath;
    updateExportProgress exportId 100 (Some "completed")
      (Some "Export completed successfully") None;;
    updateExportStatus exportId true (Some fileUrl) None in
  if negb (String.eqb format "video") then
    updateExportProgress exportId 30 (Some "pptx")
      (Some "Creating master presentation...") None;;
    pptxResult ← lift (pptx_generatePresentation w presentation);
    if String.eqb format "pptx" then
      updateExportFilePath exportId (FileResult.filePath pptxResult)
        (Some (FileResult.fileSize pptxResult));;
      updateExportStatus exportId true (Some (downloadUrl exportId)) None
    else finish (FileResult.filePath pptxResult)
  else finish "".

(** The [catch] block of [processExportAsync]. *)
Definition processExportAsync_catch (exportId : string) (error : Error) : M unit :=
  updateExportProgress exportId 0 (Some "error")
    (Some ("Failed: " +:+ Js.message error)) None;;
  updateExportStatus exportId false None (Some ("Error: " +:+ Js.message error)).

Definition processExportAsync (exportId : string) (presentation : Presentation.t)
    (format : string) (options : option VideoExportOptions.t) : M unit :=
  try_catch (processExportAsync_try exportId presentation format options)
    (processExportAsync_catch exportId).

End Pipeline.

(** ** Notions used in the statements *)

(** The container and the codec the validator looks at, defaults applied. *)
Definition requestedFormat (p : VideoQualitySettings.t) : string :=
  or_default (VideoQualitySettings.format p) "mp4".

Definition requestedCodec (p : VideoQualitySettings.t) : string :=
  or_default (VideoQualitySettings.videoCodec p) "libx264".

(** The containers that [videoExportOptionsSchema] lets through:
    [format: z.enum(['mp4', 'avi', 'mov'])]. *)
Definition schemaFormats : list string := ["mp4"; "avi"; "mov"].

(** A profile that the validator can receive.  The validator is private;
    the service is given a preset, whose container is mp4 unless
    [processVideoExport] has written the container of the request into it,
    and that one has passed the schema. *)
Definition receivable (p : VideoQualitySettings.t) : Prop :=
  In (requestedFormat p) schemaFormats.

Definition presetsReceivable (p : Presets.t) : Prop :=
  receivable (Presets.high p) /\ receivable (Presets.medium p)
  /\ receivable (Presets.low p).

(** The pair of [SAFE_CODEC_FALLBACKS] that belongs to a container. *)
Definition fallbackFor (fmt : string) : Fallback.t :=
  match own_property SAFE_CODEC_FALLBACKS fmt with
  | Some fb => fb
  | None => SAFE_CODEC_FALLBACKS_default
  end.

(** A pair is safe when the table lists its codec for its container. *)
Definition safePair (fb : Fallback.t) : Prop :=
  exists l, own_property CODEC_CONTAINER_COMPATIBILITY (Fallback.format fb) = Some l
            /\ array_includes l (Fallback.videoCodec fb) = true.

(** The fields of a profile other than [videoCodec] and [format]. *)
Definition sameOtherFields (p p' : VideoQualitySettings.t) : Prop :=
  VideoQualitySettings.audioCodec p' = VideoQualitySettings.audioCodec p
  /\ VideoQualitySettings.audioBitrate p' = VideoQualitySettings.audioBitrate p
  /\ VideoQualitySettings.crf p' = VideoQualitySettings.crf p
  /\ VideoQualitySettings.videoBitrate p' = VideoQualitySettings.videoBitrate p
  /\ VideoQualitySettings.preset p' = VideoQualitySettings.preset p
  /\ VideoQualitySettings.resolution p' = VideoQualitySettings.resolution p.

(** What the loop of [generatePresentationNarration] does with one slide:
    it skips it, narrates it, or records its failure. *)
Inductive SlideOutcome :=
| Skipped
| Narrated (clip : SlideNarrationResult.t)
| Failed (slideId error : string).

Definition slideOutcome (w : World) (voice model format : string) (slide : Slide.t)
    : State -> SlideOutcome * State := fun s =>
  match narrateSlide w slide voice model format s with
  | (Ok None, s') => (Skipped, s')
  | (Ok (Some clip), s') => (Narrated clip, s')
  | (Throw e, s') => (Failed (Slide.id slide) (Js.message e), s')
  end.

(** The outcomes of the slides of a batch, one after the other. *)
Fixpoint batchOutcomes (w : World) (voice model format : string) (slides : list Slide.t)
    : State -> list SlideOutcome * State := fun s =>
  match slides with
  | [] => ([], s)
  | slide :: rest =>
      let (o, s1) := slideOutcome w voice model format slide s in
      let (os, s2) := batchOutcomes w voice model format rest s1 in
      (o :: os, s2)
  end.

Definition narratedClip (o : SlideOutcome) : option SlideNarrationResult.t :=
  match o with
  | Narrated clip => Some clip
  | _ => None
  end.

Definition failureOf (o : SlideOutcome) : option (string * string) :=
  match o with
  | Failed slideId error => Some (slideId, error)
  | _ => None
  end.

Definition isFailed (o : SlideOutcome) : Prop :=
  match o with
  | Failed _ _ => True
  | _ => False
  end.

(** A string of [n] copies of a character. *)
Fixpoint replicate_char (n : nat) (c : ascii) : string :=
  match n with
  | O => EmptyString
  | S n' => String c (replicate_char n' c)
  end.

(** A world for examples: every file is there and holds 2048 bytes, ffprobe
    answers with [probe], every ffmpeg command ends well without a progress
    report, the renderer produces one image per slide and the speech API
    answers with [speech]. *)
Definition exampleWorldProbing (probe : string -> ProbeOutcome)
    (speech : nat -> SpeechRequest.t -> SpeechOutcome) : World :=
  mkWorld "/app" (fun n => (1700000000000 + N.of_nat n)%N)
    (fun _ => Some 2048%Z)
    probe
    speech
    (fun _ _ _ _ _ => FfmpegRun.mk [] None)
    (fun _ _ _ => FfmpegRun.mk [] None)
    (fun _ _ _ _ => FfmpegRun.mk [] None)
    (fun slides =>
       Ok (map (fun sl => PresentationRenderResult.mk (Slide.id sl)
                            ("/app/uploads/slide_images/" +:+ Slide.id sl +:+ ".png")
                            1920 1080) slides))
    (fun _ => Ok (FileResult.mk "/app/uploads/deck.pptx" 4096))
    (fun _ _ => Ok (FileResult.mk "/app/uploads/deck.pdf" 4096))
    (fun _ _ => Ok (FileResult.mk "/app/uploads/deck.html" 4096))
    true
    (fun _ _ => Ok "https://docs.google.com/presentation/d/1").

Definition exampleWorld (duration : float)
    (speech : nat -> SpeechRequest.t -> SpeechOutcome) : World :=
  exampleWorldProbing (fun _ => ProbeDuration duration) speech.

Definition speechAlwaysAudio : nat -> SpeechRequest.t -> SpeechOutcome :=
  fun _ _ => SpeechAudio 1000.

Definition speechAlwaysDown : nat -> SpeechRequest.t -> SpeechOutcome :=
  fun _ _ => SpeechError (Js.mkError "Error" "503 service unavailable" (Some 503%Z) None).

(** The speech API fails on its third call and answers all the others. *)
Definition speechThirdCallDown : nat -> SpeechRequest.t -> SpeechOutcome :=
  fun n _ =>
    if (n =? 2)%nat
    then SpeechError (Js.mkError "Error" "500 internal error" (Some 500%Z) None)
    else SpeechAudio 1000.

Definition exampleSlide (id : string) : Slide.t :=
  Slide.mk id ("Slide " +:+ id) (Some ["first point"; "second point"])
    (Some ("Speaker notes of slide " +:+ id)).

Definition fiveSlides : list Slide.t :=
  map exampleSlide ["s1"; "s2"; "s3"; "s4"; "s5"].

(** State predicates that a computation keeps. *)
Definition preserves {A : Type} (P : State -> Prop) (m : M A) : Prop :=
  forall s, P s -> P (m s).2.

(** The sum of a list of durations as the code forms it: from zero, one
    addition per duration, in the order of the list. *)
Definition sumDurations (l : list float) : float := fold_left PrimFloat.add l 0%float.

(** The durations that ffprobe reports for the audio files of the slides. *)
Definition audioDurations (w : World) (slides : list SlideVideoInput.t) (ds : list float)
    : Prop :=
  Forall2 (fun slide d => ffprobe w (SlideVideoInput.audioPath slide) = ProbeDuration d)
    slides ds.

(** Three segments whose audio files last 0.1, 0.2 and 0.3 seconds. *)
Definition threeSegments : list SlideVideoInput.t :=
  [ SlideVideoInput.mk "/img/1.png" "/audio/1.mp3" 0.1;
    SlideVideoInput.mk "/img/2.png" "/audio/2.mp3" 0.2;
    SlideVideoInput.mk "/img/3.png" "/audio/3.mp3" 0.3 ].

Definition threeSegmentsProbe (audioPath : string) : ProbeOutcome :=
  if String.eqb audioPath "/audio/1.mp3" then ProbeDuration 0.1
  else if String.eqb audioPath "/audio/2.mp3" then ProbeDuration 0.2
  else if String.eqb audioPath "/audio/3.mp3" then ProbeDuration 0.3
  else ProbeError "No such file or directory".

Definition threeSegmentsWorld : World :=
  exampleWorldProbing threeSegmentsProbe speechAlwaysAudio.

(** An image, a narration clip and a slide for examples. *)
Definition exampleImage (slideId : string) : PresentationRenderResult.t :=
  PresentationRenderResult.mk slideId
    ("/app/uploads/slide_images/" +:+ slideId +:+ ".png") 1920 1080.

Definition exampleClip (slideId : string) : SlideNarrationResult.t :=
  SlideNarrationResult.mk slideId ("/app/uploads/tts_audio/" +:+ slideId +:+ ".mp3") 5.

(** [w] with another slide renderer. *)
Definition withRenderer (w : World)
    (renderer : list Slide.t -> Result (list PresentationRenderResult.t)) : World :=
  mkWorld (cwd w) (Date_now w) (fs_stat w) (ffprobe w) (speech_create w)
    (ffmpeg_slide w) (ffmpeg_reencode w) (ffmpeg_concat w)
    renderer
    (pptx_generatePresentation w) (convertToPDF w) (convertToHTML w)
    (googleSlides_isConfigured w) (googleSlides_create w).

(** The speech API fails on its second call and answers all the others. *)
Definition speechSecondCallDown : nat -> SpeechRequest.t -> SpeechOutcome :=
  fun n _ =>
    if (n =? 1)%nat
    then SpeechError (Js.mkError "Error" "500 internal error" (Some 500%Z) None)
    else SpeechAudio 1000.

(** A world in which, of two slides, only the first is narrated and only
    the second is rendered. *)
Definition mismatchWorld : World :=
  withRenderer (exampleWorld 5 speechSecondCallDown)
    (fun slides => Ok (map (fun sl => exampleImage (Slide.id sl)) (drop 1 slides))).

Definition twoSlideDeck : Presentation.t :=
  Presentation.mk "p1" (Some "Deck") (Some [exampleSlide "s1"; exampleSlide "s2"]).

Definition noOptions : VideoExportOptions.t :=
  VideoExportOptions.mk None None None None None.

(** An export row as [createExport] makes it. *)
Definition freshExport (id presentationId format : string) : ExportRow.t :=
  ExportRow.mk id presentationId format None None None false 0 (Some "initializing")
    None 1700000000000 1700000000000.

Definition stateWithExport (id presentationId format : string) : State :=
  set_exports <[id := freshExport id presentationId format]> initialState.

(** The state in which [processVideoExport] starts the narration. *)
Definition stateAtNarration (w : World) (exportId : string) (s : State) : State :=
  (updateExportProgress w exportId 15 (Some "tts")
     (Some "Generating audio narration...") None s).2.

(** The state in which [processVideoExport] pairs the images [imgs] with
    the narrations [narrs], [s2] being the state in which the narration
    ended: the progress of the narration and of the rendering is written. *)
Definition stateAtPairing (w : World) (exportId : string)
    (narrs : list SlideNarrationResult.t) (imgs : list PresentationRenderResult.t)
    (s2 : State) : State :=
  let s3 := (updateExportProgress w exportId 33 (Some "tts")
               (Some ("Generated narration for " +:+ pretty (length narrs) +:+ " slides"))
               None s2).2 in
  let s4 := (updateExportProgress w exportId 40 (Some "rendering")
               (Some "Rendering slides to images...") None s3).2 in
  let s5 := (updateExportProgress w exportId 66 (Some "rendering")
               (Some ("Rendered " +:+ pretty (length imgs) +:+ " slide images"))
               None s4).2 in
  (updateExportProgress w exportId 70 (Some "assembly")
     (Some "Assembling final video...") None s5).2.

(** The output file that [processVideoExport] names when it reads the clock
    in state [s]. *)
Definition videoOutputPath (w : World) (presentation : Presentation.t)
    (options : VideoExportOptions.t) (s : State) : string :=
  path_join (path_join (path_join (cwd w) "uploads") "videos")
    ("presentation_" +:+ Presentation.id presentation +:+ "_"
     +:+ pretty (Date_now w (clock s)) +:+ "."
     +:+ or_default (VideoExportOptions.format options) "mp4").

(** The state in which [processVideoExport] calls the assembly, [s] being
    the state of the pairing: the clock is read and the container is
    written into the preset. *)
Definition stateAtAssembly (options : VideoExportOptions.t) (s : State) : State :=
  let format := or_default (VideoExportOptions.format options) "mp4" in
  let quality := default (VideoExportOptions.quality options) medium in
  if negb (String.eqb format "mp4")
  then set_presets (preset_set_format quality format) (set_clock S s)
  else set_clock S s.

(** A world in which ffmpeg reports no progress while it runs. *)
Definition quietWorld (w : World) : Prop :=
  (forall imagePath audioPath outputPath settings attempt,
      FfmpegRun.events (ffmpeg_slide w imagePath audioPath outputPath settings attempt) = [])
  /\ (forall videoPaths outputPath transition settings,
      FfmpegRun.events (ffmpeg_concat w videoPaths outputPath transition settings) = []).

(** [lo <= x1 <= x2 <= ... <= xn <= hi] *)
Fixpoint ascending (lo : Z) (l : list Z) (hi : Z) : Prop :=
  match l with
  | [] => (lo <= hi)%Z
  | x :: r => (lo <= x)%Z /\ ascending x r hi
  end.

(** The tracker has received, after the writes [l0], only writes that
    satisfy [P]. *)
Definition appended (P : ProgressWrite.t -> Prop) (l0 : list ProgressWrite.t)
    (s : State) : Prop :=
  exists added, progressWrites s = l0 ++ added /\ Forall P added.

(** A write that the callback of the first loop of
    [assemblePresentationVideo] makes for slide [i]: it answers a
    ['progress'] event of a run of the per-slide ffmpeg command and carries
    the status of the encoding of that slide.  Which percentage it carries
    is left open. *)
Definition slideReport (w : World) (jobId : string) (i : nat) (x : ProgressWrite.t)
    : Prop :=
  ProgressWrite.jobId x = jobId
  /\ ProgressWrite.status x
     = "creating-slide-" +:+ pretty (i + 1)%nat +:+ "-" +:+ "encoding"
  /\ exists imagePath audioPath outputPath settings attempt,
       FfmpegRun.events (ffmpeg_slide w imagePath audioPath outputPath settings attempt)
       <> [].

(** A write that the callback of the concatenation makes: it answers a
    ['progress'] event of a run of the concatenation command. *)
Definition concatReport (w : World) (jobId : string) (x : ProgressWrite.t) : Prop :=
  ProgressWrite.jobId x = jobId
  /\ ProgressWrite.status x = "concatenating-videos"
  /\ exists videoPaths outputPath transition settings,
       FfmpegRun.events (ffmpeg_concat w videoPaths outputPath transition settings) <> [].

(** How far a run of [assemblePresentationVideo] on a non-empty list gets:
    it fails while a slide video is made, while the videos are joined (after
    the reports [reports] of the concatenation), at the check of the final
    file, or it completes. *)
Inductive AssemblyEnd :=
| FailedInSlides
| FailedInConcat (reports : list ProgressWrite.t)
| FailedAtCheck (reports : list ProgressWrite.t)
| Completed (reports : list ProgressWrite.t).

Definition completed (ending : AssemblyEnd) : bool :=
  match ending with
  | Completed _ => true
  | _ => false
  end.

Definition concatReports (ending : AssemblyEnd) : list ProgressWrite.t :=
  match ending with
  | FailedInSlides => []
  | FailedInConcat reports | FailedAtCheck reports | Completed reports => reports
  end.

(** The writes of the first loop from slide [i] on: before each slide the
    checkpoint [floor(30*i/n)], then the reports of its encoder. *)
Fixpoint slidePhaseWrites (jobId : string) (n i : nat)
    (reports : list (list ProgressWrite.t)) : list ProgressWrite.t :=
  match reports with
  | [] => []
  | r :: rest =>
      ProgressWrite.mk jobId (slideBaseProgress i n) "creating-slide-videos"
      :: r ++ slidePhaseWrites jobId n (S i) rest
  end.

(** The writes of a run before its [catch] block: the checkpoints 0,
    [floor(30*i/n)], 30, 95 and 100 as far as the run gets, with the
    reports between them. *)
Definition assemblyWrites (jobId : string) (n : nat)
    (reports : list (list ProgressWrite.t)) (ending : AssemblyEnd)
    : list ProgressWrite.t :=
  ProgressWrite.mk jobId 0 "processing"
  :: slidePhaseWrites jobId n 0 reports
  ++ match ending with
     | FailedInSlides => []
     | FailedInConcat c => ProgressWrite.mk jobId 30 "concatenating-videos" :: c
     | FailedAtCheck c =>
         ProgressWrite.mk jobId 30 "concatenating-videos" :: c
         ++ [ProgressWrite.mk jobId 95 "cleaning-up"]
     | Completed c =>
         ProgressWrite.mk jobId 30 "concatenating-videos" :: c
         ++ [ProgressWrite.mk jobId 95 "cleaning-up";
             ProgressWrite.mk jobId 100 "completed"]
     end.

(** The write of the [catch] block. *)
Definition failureWrites (jobId : string) (ending : AssemblyEnd) : list ProgressWrite.t :=
  if completed ending then [] else [ProgressWrite.mk jobId 0 "error"].

(** The reports stay in the window of their phase and ascend there: those
    of slide [i] between the checkpoint of slide [i] and that of slide
    [i+1], those of the concatenation between 30 and 95. *)
Definition reportsAscend (n : nat) (reports : list (list ProgressWrite.t))
    (ending : AssemblyEnd) : Prop :=
  (forall i r, reports !! i = Some r ->
     ascending (slideBaseProgress i n) (map ProgressWrite.progress r)
       (slideBaseProgress (S i) n))
  /\ ascending 30 (map ProgressWrite.progress (concatReports ending)) 95.

(** A computation that writes nothing through the tracker. *)
Definition silent {A : Type} (m : M A) : Prop :=
  forall l, preserves (fun s => progressWrites s = l) m.

(** Two segments, the second of which has an audio file that ffprobe cannot
    read. *)
Definition brokenSecondSegment : list SlideVideoInput.t :=
  [ SlideVideoInput.mk "/img/1.png" "/audio/1.mp3" 8;
    SlideVideoInput.mk "/img/2.png" "/audio/missing.mp3" 6 ].

(** [w] with other runs of the per-slide ffmpeg command. *)
Definition withSlideRuns (w : World)
    (runs : string -> string -> string -> VideoQualitySettings.t -> nat -> FfmpegRun.t)
    : World :=
  mkWorld (cwd w) (Date_now w) (fs_stat w) (ffprobe w) (speech_create w)
    runs (ffmpeg_reencode w) (ffmpeg_concat w)
    (renderPresentationFromSlides w)
    (pptx_generatePresentation w) (convertToPDF w) (convertToHTML w)
    (googleSlides_isConfigured w) (googleSlides_create w).

(** A world in which the encoder of a slide reports 50% and then 100%. *)
Definition reportingWorld : World :=
  withSlideRuns threeSegmentsWorld
    (fun _ _ _ _ _ => FfmpegRun.mk [Some 50%Q; Some 100%Q] None).

(** A world in which the encoder of a slide reports once without a
    percentage and once 0%, and the concatenation reports 50% twice. *)
Definition harmlessWorld : World :=
  mkWorld (cwd threeSegmentsWorld) (Date_now threeSegmentsWorld)
    (fs_stat threeSegmentsWorld) (ffprobe threeSegmentsWorld)
    (speech_create threeSegmentsWorld)
    (fun _ _ _ _ _ => FfmpegRun.mk [None; Some 0%Q] None)
    (ffmpeg_reencode threeSegmentsWorld)
    (fun _ _ _ _ => FfmpegRun.mk [Some 50%Q; Some 50%Q] None)
    (renderPresentationFromSlides threeSegmentsWorld)
    (pptx_generatePresentation threeSegmentsWorld) (convertToPDF threeSegmentsWorld)
    (convertToHTML threeSegmentsWorld)
    (googleSlides_isConfigured threeSegmentsWorld) (googleSlides_create threeSegmentsWorld).



(** ** Further parts of the services *)

(** [getVideoProgress]: the entry of the tracker, or [not-found]. *)
Definition getVideoProgress (jobId : string) : M VideoProgress.t :=
  gets (fun s =>
          match jobProgress s !! jobId with
          | Some progress => progress
          | None => VideoProgress.mk 0 "not-found"
          end).

(** [getAvailableTransitions] *)
Definition getAvailableTransitions : list string := ["none"; "crossfade"; "fade-to-black"].

(** A profile whose codec is in the list of its container. *)
Definition compatibleProfile (p : VideoQualitySettings.t) : Prop :=
  exists l, own_property CODEC_CONTAINER_COMPATIBILITY (requestedFormat p) = Some l
            /\ array_includes l (requestedCodec p) = true.

(** The attempts [a], [a+1], ..., [k-1] of an operation, run one after the
    other from state [s], all threw a retryable error and left state [sk]. *)
Inductive retriedUntil {A : Type} (operation : nat -> M A)
    : nat -> State -> nat -> State -> Prop :=
| retried_none a s : retriedUntil operation a s a s
| retried_step a s e s1 k sk :
    operation a s = (Throw e, s1) ->
    isRetryableError e = true ->
    retriedUntil operation (S a) s1 k sk ->
    retriedUntil operation a s k sk.

(** The fields of a row that no update changes. *)
Definition rowIdentity (r0 r : ExportRow.t) : Prop :=
  ExportRow.id r = ExportRow.id r0
  /\ ExportRow.presentationId r = ExportRow.presentationId r0
  /\ ExportRow.format r = ExportRow.format r0
  /\ ExportRow.createdAt r = ExportRow.createdAt r0.

(** [s] has the rows of [s0], under the same keys and with the same
    identity. *)
Definition rowsKept (s0 s : State) : Prop :=
  forall id,
    match exports s0 !! id, exports s !! id with
    | Some r0, Some r => rowIdentity r0 r
    | None, None => True
    | _, _ => False
    end.

Definition progressBounded (s : State) : Prop :=
  forall id row, exports s !! id = Some row -> (0 <= ExportRow.progress row <= 100)%Z.

Definition aviOptions : VideoExportOptions.t :=
  VideoExportOptions.mk None None None None (Some "avi").


Section CombinedNarration.

Variable w : World.

(** What ffprobe answers when [combineAudioFiles] probes its input at
    position [k]: the files of the clips are probed a second time there,
    after the batch, and the answer need not be the one the batch got. *)
Variable ffprobe_again : nat -> string -> ProbeOutcome.

(** What ffmpeg answers to the command that [combineAudioFiles] builds from
    the input files, the output file and the filter. *)
Variable ffmpeg_combine : list string -> string -> string -> FfmpegRun.t.








End CombinedNarration.

(** A clip whose duration is what ffprobe reports for its file. *)
Definition clipProbed (w : World) (clip : SlideNarrationResult.t) : Prop :=
  ffprobe w (SlideNarrationResult.audioPath clip)
  = ProbeDuration (SlideNarrationResult.duration clip).

(** Slides with too little to narrate. *)
Definition shortSlide (id : string) : Slide.t := Slide.mk id "A" None None.

Definition speechServerError : Error :=
  Js.mkError "Error" "500 internal error" (Some 500%Z) None.


(** ** Numbers read from strings *)

Definition isDigit (c : ascii) : bool :=
  let n := nat_of_ascii c in (48 <=? n)%nat && (n <=? 57)%nat.

(** The longest run of decimal digits at the start of a string, and the
    rest. *)
Fixpoint spanDigits (s : string) : string * string :=
  match s with
  | EmptyString => (EmptyString, EmptyString)
  | String c r =>
      if isDigit c
      then let p := spanDigits r in (String c p.1, p.2)
      else (EmptyString, s)
  end.

Fixpoint allDigits (s : string) : bool :=
  match s with
  | EmptyString => true
  | String c r => isDigit c && allDigits r
  end.

Fixpoint parseDigits (acc : N) (s : string) : N :=
  match s with
  | EmptyString => acc
  | String c r => parseDigits (acc * 10 + (N_of_ascii c - 48)) r
  end.

(** [parseInt(s, 10)]: white space, a sign, then the digits up to the first
    other character; [None] is [NaN].  The value is exact, as it is in
    JavaScript below 2^53. *)
Definition parseInt (s : string) : option Z :=
  let t := trimStart s in
  let signed :=
    match t with
    | String c r =>
        if Ascii.eqb c "-" then (true, r)
        else if Ascii.eqb c "+" then (false, r)
        else (false, t)
    | EmptyString => (false, t)
    end in
  match (spanDigits signed.2).1 with
  | EmptyString => None
  | ds =>
      let v := Z.of_N (parseDigits 0 ds) in
      Some (if signed.1 then (- v)%Z else v)
  end.

Fixpoint stripPrefix (p s : string) : option string :=
  match p, s with
  | EmptyString, _ => Some s
  | String a p', String b s' => if Ascii.eqb a b then stripPrefix p' s' else None
  | String _ _, EmptyString => None
  end.

(** ** videoAssembly.ts: job ids and the cleanup of the tracker *)

(** The first group of [/video_job_(\d+)_/] matched at the start of [s].
    The digits are taken greedily; giving some back cannot help, since the
    character after a shorter run is a digit and not the underscore. *)
Definition matchJobIdHere (s : string) : option string :=
  match stripPrefix "video_job_" s with
  | Some r =>
      let p := spanDigits r in
      match p.1, p.2 with
      | String _ _, String c _ => if Ascii.eqb c "_" then Some p.1 else None
      | _, _ => None
      end
  | None => None
  end.

(** The leftmost match of the expression in [s]. *)
Fixpoint matchJobId (s : string) : option string :=
  match matchJobIdHere s with
  | Some ds => Some ds
  | None =>
      match s with
      | EmptyString => None
      | String _ r => matchJobId r
      end
  end.

(** [extractTimestampFromJobId]; the group holds digits only, so that
    [parseInt] without a radix reads it in base ten. *)
Definition extractTimestampFromJobId (jobId : string) : option Z :=
  match matchJobId jobId with
  | Some ds => parseInt ds
  | None => None
  end.

(** [jobTimestamp && jobTimestamp < oneHourAgo] *)
Definition jobExpired (oneHourAgo : Z) (jobId : string) : bool :=
  match extractTimestampFromJobId jobId with
  | Some jobTimestamp => negb (jobTimestamp =? 0)%Z && (jobTimestamp <? oneHourAgo)%Z
  | None => false
  end.

(** What [cleanupOldFiles] finds at the place of its directory. *)
Inductive TempDir :=
| DirMissing
| DirUnreadable (error : Error)
| DirListing (files : list string).

Section JobIds.

Variable w : World.

(** [generateJobId]; [random] stands for
    [Math.random().toString(36).substr(2, 9)]. *)
Definition generateJobId (random : string) : M string :=
  t ← now w;
  mret ("video_job_" +:+ pretty t +:+ "_" +:+ random).

(** [cleanupOldFiles].  The loop over the files unlinks those older than
    [maxAge] and catches what each iteration throws: it acts on the file
    system only.  The entries of the tracker are collected first and
    deleted afterwards. *)
Definition cleanupOldFiles (tempDir : TempDir) : M unit :=
  match tempDir with
  | DirMissing => mret tt
  | DirUnreadable error => throw error
  | DirListing _ =>
      _ ← now w;
      t ← now w;
      let oneHourAgo := (Z.of_N t - 60 * 60 * 1000)%Z in
      modify (set_jobProgress
                (filter (fun entry => jobExpired oneHourAgo entry.1 = false)))
  end.

End JobIds.

(** The world [w] with another clock. *)
Definition withClock (w : World) (clockReading : nat -> N) : World :=
  mkWorld (cwd w) clockReading (fs_stat w) (ffprobe w) (speech_create w)
    (ffmpeg_slide w) (ffmpeg_reencode w) (ffmpeg_concat w)
    (renderPresentationFromSlides w)
    (pptx_generatePresentation w) (convertToPDF w) (convertToHTML w)
    (googleSlides_isConfigured w) (googleSlides_create w).

(** A world in which more than an hour passes between two readings of the
    clock. *)
Definition slowWorld : World :=
  withClock (exampleWorld 5 speechAlwaysAudio)
    (fun n => (1700000000000 + 3600001 * N.of_nat n)%N).

(** ** routes.ts: range requests of the video download *)

(** [String.prototype.split] with a separator of one character. *)
Fixpoint split (separator : ascii) (s : string) : list string :=
  match s with
  | EmptyString => [EmptyString]
  | String c r =>
      if Ascii.eqb c separator
      then EmptyString :: split separator r
      else match split separator r with
           | part :: parts => String c part :: parts
           | [] => [String c EmptyString]
           end
  end.

(** [String.prototype.replace] with an expression that is a plain word and
    has no flag: the first occurrence is replaced. *)
Definition replaceFirst (pattern replacement s : string) : string :=
  match String.index 0 pattern s with
  | Some i =>
      substring 0 i s +:+ replacement
      +:+ substring (i + String.length pattern)
            (String.length s - (i + String.length pattern)) s
  | None => s
  end.

(** What [handleVideoDownload] answers once the file is found: status 416
    with [Content-Range: bytes */size], status 206 with
    [Content-Range: bytes start-end/size] and [Content-Length: chunkSize],
    or the whole file. *)
Module RangeReply.
Inductive t :=
| NotSatisfiable (size : Z)
| PartialContent (start end_ size chunkSize : Z)
| WholeFile.
End RangeReply.

(** The handling of the [Range] header in [handleVideoDownload], for a file
    of [size] bytes.  The condition of the source is an [||] chain that
    stops at its first true member; a comparison with [NaN] is false. *)
Definition handleVideoDownload_range (range : option string) (size : Z) : RangeReply.t :=
  match range with
  | Some (String _ _ as range) =>
      let parts := split "-" (replaceFirst "bytes=" "" range) in
      let start := parseInt (nth 0 parts "") in
      let part1 :=
        match parts !! 1%nat with
        | Some (String _ _ as part) => Some part
        | _ => None
        end in
      match start with
      | None => RangeReply.NotSatisfiable size
      | Some start =>
          if (start <? 0)%Z || (size <=? start)%Z
          then RangeReply.NotSatisfiable size
          else
            match part1 with
            | None =>
                let end_ := (size - 1)%Z in
                RangeReply.PartialContent start end_ size (end_ - start + 1)%Z
            | Some part =>
                match parseInt part with
                | None => RangeReply.NotSatisfiable size
                | Some end_ =>
                    if (end_ <? start)%Z || (size <=? end_)%Z
                    then RangeReply.NotSatisfiable size
                    else RangeReply.PartialContent start end_ size (end_ - start + 1)%Z
                end
            end
      end
  | _ => RangeReply.WholeFile
  end.

(** ** slideRenderer.ts *)

Module SlideContent.
Record t := mk { id : string; content : string }.
End SlideContent.

Module SlideRenderResult.
Record t := mk { imagePath : string; width : Z; height : Z }.
End SlideRenderResult.

Definition doubleQuote : ascii := ascii_of_nat 34.

(** The replacement of one character by [escapeHtml]. *)
Definition escapeHtmlChar (c : ascii) : string :=
  if Ascii.eqb c "&" then "&amp;"
  else if Ascii.eqb c "<" then "&lt;"
  else if Ascii.eqb c ">" then "&gt;"
  else if Ascii.eqb c doubleQuote then "&quot;"
  else if Ascii.eqb c "'" then "&#039;"
  else String c EmptyString.

(** [escapeHtml]: every ampersand, angle bracket, double quote and
    apostrophe of the text is replaced by its entity. *)
Fixpoint escapeHtml (text : string) : string :=
  match text with
  | EmptyString => EmptyString
  | String c r => escapeHtmlChar c +:+ escapeHtml r
  end.

Definition markupChars : list ascii := ["<"; ">"; doubleQuote; "'"]%char.

Fixpoint occursIn (c : ascii) (s : string) : bool :=
  match s with
  | EmptyString => false
  | String d r => Ascii.eqb c d || occursIn c r
  end.

Section SlideRenderer.

(** What the launch of the browser throws, what its closing throws, and
    what [renderSlideWithRetry] answers for the slide at a position. *)
Variable getBrowser : option Error.
Variable closeBrowser : option Error.
Variable renderSlideWithRetry : nat -> string -> string -> Result SlideRenderResult.t.

(** The loop of [renderPresentation] from slide [i] on. *)
Fixpoint renderLoop (i : nat) (slides : list SlideContent.t)
    (results : list PresentationRenderResult.t) (errors : list (string * string))
    : list PresentationRenderResult.t * list (string * string) :=
  match slides with
  | [] => (results, errors)
  | slide :: rest =>
      match renderSlideWithRetry i (SlideContent.content slide) (SlideContent.id slide) with
      | Ok result =>
          renderLoop (S i) rest
            (results ++ [PresentationRenderResult.mk (SlideContent.id slide)
                           (SlideRenderResult.imagePath result)
                           (SlideRenderResult.width result)
                           (SlideRenderResult.height result)])
            errors
      | Throw error =>
          renderLoop (S i) rest results
            (errors ++ [(SlideContent.id slide, Js.message error)])
      end
  end.

(** [renderPresentation]; the [finally] block closes the browser, which
    does nothing when the browser was never launched. *)
Definition renderPresentation (slides : list SlideContent.t)
    : Result (list PresentationRenderResult.t) :=
  match slides with
  | [] => Throw (newError "No slides provided for rendering")
  | _ =>
      match getBrowser with
      | Some error => Throw error
      | None =>
          let run := renderLoop 0 slides [] [] in
          let outcome :=
            if (length run.1 =? 0)%nat && (0 <? length run.2)%nat
            then Throw (newError ("Failed to render any slides. Errors: "
                                  +:+ join ", " (map snd run.2)))
            else Ok run.1 in
          match closeBrowser with
          | Some error => Throw error
          | None => outcome
          end
      end
  end.

End SlideRenderer.

(** A renderer that fails on the slide at position [failing]. *)
Definition failingAt (failing : nat) : nat -> string -> string -> Result SlideRenderResult.t :=
  fun i _ slideId =>
    if (i =? failing)%nat
    then Throw (newError "Slide rendering failed: Target closed")
    else Ok (SlideRenderResult.mk ("/app/uploads/slide_images/" +:+ slideId +:+ ".png")
               1920 1080).

(** * Properties *)

(** ** The codec/container validator *)

Section Validator.

Lemma compatibility_keys fmt l :
  own_property CODEC_CONTAINER_COMPATIBILITY fmt = Some l ->
  fmt = "mp4" \/ fmt = "avi" \/ fmt = "mov" \/ fmt = "mkv".
Proof.
  unfold CODEC_CONTAINER_COMPATIBILITY; cbn [own_property].
  destruct (String.eqb_spec "mp4" fmt) as [<-|_]; [auto|].
  destruct (String.eqb_spec "avi" fmt) as [<-|_]; [auto|].
  destruct (String.eqb_spec "mov" fmt) as [<-|_]; [auto|].
  destruct (String.eqb_spec "mkv" fmt) as [<-|_]; [auto 10|].
  discriminate.
Qed.

Lemma get_own {A : Type} (own : list (string * A)) key v :
  own_property own key = Some v -> Js.get own key = Own v.
Proof. unfold Js.get. now intros ->. Qed.

Lemma fallback_keys fmt fb :
  own_property SAFE_CODEC_FALLBACKS fmt = Some fb ->
  array_includes ObjectPrototypeKeys fmt = false.
Proof.
  unfold SAFE_CODEC_FALLBACKS; cbn [own_property].
  destruct (String.eqb_spec "avi" fmt) as [<-|_]; [reflexivity|].
  destruct (String.eqb_spec "default" fmt) as [<-|_]; [reflexivity|].
  discriminate.
Qed.

Lemma fallbackFor_safe fmt : safePair (fallbackFor fmt).
Proof.
  unfold fallbackFor, SAFE_CODEC_FALLBACKS; cbn [own_property].
  destruct (String.eqb "avi" fmt); [|destruct (String.eqb "default" fmt)];
    eexists; split; reflexivity.
Qed.

(** When the lookup in the compatibility table does not hit an inherited
    property, the fallback lookup is an own property or [undefined]. *)
Lemma apply_fallback_spec p fmt :
  array_includes ObjectPrototypeKeys fmt = false ->
  apply_fallback p fmt =
  with_codec_format p (Some (Fallback.videoCodec (fallbackFor fmt)))
    (Some (Fallback.format (fallbackFor fmt))).
Proof.
  intros Hk. unfold apply_fallback, fallbackFor, Js.get.
  destruct (own_property SAFE_CODEC_FALLBACKS fmt); [reflexivity|].
  now rewrite Hk.
Qed.

Lemma compatibility_keys_not_inherited fmt l :
  own_property CODEC_CONTAINER_COMPATIBILITY fmt = Some l ->
  array_includes ObjectPrototypeKeys fmt = false.
Proof.
  intros H. destruct (compatibility_keys _ _ H) as [->|[->|[->| ->]]]; reflexivity.
Qed.

(** The validator throws exactly on the containers named like an inherited
    property; everywhere else it returns. *)
Lemma validate_returns p :
  Js.get CODEC_CONTAINER_COMPATIBILITY (requestedFormat p) <> Inherited ->
  exists p', validateCodecContainerCompatibility p = Ok p'.
Proof.
  unfold validateCodecContainerCompatibility, requestedFormat.
  destruct (Js.get _ _) as [l| |]; intros H; [|congruence|eauto].
  destruct (array_includes l _); eauto.
Qed.

Lemma validate_result_cases p p' :
  validateCodecContainerCompatibility p = Ok p' ->
  p' = p \/
  p' = with_codec_format p (Some "libxvid") (Some "avi") \/
  p' = with_codec_format p (Some "libx264") (Some "mp4").
Proof.
  unfold validateCodecContainerCompatibility.
  set (fmt := or_default (VideoQualitySettings.format p) "mp4").
  assert (Hfb : array_includes ObjectPrototypeKeys fmt = false ->
                apply_fallback p fmt = with_codec_format p (Some "libxvid") (Some "avi")
                \/ apply_fallback p fmt = with_codec_format p (Some "libx264") (Some "mp4")).
  { intros Hk. rewrite (apply_fallback_spec _ _ Hk).
    unfold fallbackFor, SAFE_CODEC_FALLBACKS; cbn [own_property].
    destruct (String.eqb "avi" fmt); [now left|].
    destruct (String.eqb "default" fmt); now right. }
  unfold Js.get.
  destruct (own_property CODEC_CONTAINER_COMPATIBILITY fmt) as [l|] eqn:Hown.
  - destruct (array_includes l _); intros [= <-]; [now left|right].
    apply Hfb. eapply compatibility_keys_not_inherited; eauto.
  - destruct (array_includes ObjectPrototypeKeys fmt) eqn:Hk; intros [= <-].
    right. now apply Hfb.
Qed.

(** Wherever the validator returns, its result is a fixed point. *)
Lemma validate_idempotent p p' :
  validateCodecContainerCompatibility p = Ok p' ->
  validateCodecContainerCompatibility p' = Ok p'.
Proof.
  intros H. destruct (validate_result_cases _ _ H) as [->|[->| ->]];
    [assumption|reflexivity|reflexivity].
Qed.

End Validator.

Section ValidatorClaims.

(** Outside the containers of the schema the validator can throw: on a
    container named like a property inherited from [Object.prototype] the
    lookup in the table answers with that property. *)
Remark validator_throws_outside_schema :
  validateCodecContainerCompatibility
    (VideoQualitySettings.mk None None None None None None (Some "constructor") None)
  = Throw (newTypeError "compatibleCodecs.includes is not a function").
Proof. reflexivity. Qed.

Lemma receivable_not_inherited p :
  receivable p ->
  Js.get CODEC_CONTAINER_COMPATIBILITY (requestedFormat p) <> Inherited.
Proof.
  unfold receivable, schemaFormats. cbn [In].
  intros [<-|[<-|[<-|[]]]]; discriminate.
Qed.

(** C6: on every profile that the validator can receive, the validator
    returns, it never throws, and what it returns is a fixed point:
    validating the result again returns the result. *)
Theorem validator_idempotent_never_throws p :
  receivable p ->
  exists p',
    validateCodecContainerCompatibility p = Ok p'
    /\ validateCodecContainerCompatibility p' = Ok p'.
Proof.
  intros Hp. destruct (validate_returns p (receivable_not_inherited p Hp)) as [p' Hp'].
  exists p'. split; [exact Hp'|]. exact (validate_idempotent p p' Hp').
Qed.

Lemma validator_idempotent_never_throws_witness :
  exists p',
    validateCodecContainerCompatibility (with_format VIDEO_QUALITY_PRESETS_medium "avi")
    = Ok p'
    /\ validateCodecContainerCompatibility p' = Ok p'.
Proof.
  apply (validator_idempotent_never_throws (with_format VIDEO_QUALITY_PRESETS_medium "avi")).
  unfold receivable. cbn. auto.
Defined.

(** The presets stay receivable: they start with mp4, and
    [processVideoExport] writes into them only the container of the
    request. *)
Lemma initialPresets_receivable : presetsReceivable initialPresets.
Proof. repeat split; cbn; auto. Qed.

Lemma preset_set_format_receivable quality f ps :
  In f schemaFormats -> presetsReceivable ps ->
  presetsReceivable (preset_set_format quality f ps).
Proof.
  intros Hf (Hh & Hm & Hl).
  assert (Hw : forall q, receivable (with_format q f)).
  { intros q. unfold receivable, schemaFormats in *. cbn [In] in *.
    destruct Hf as [<-|[<-|[<-|[]]]]; cbn; auto. }
  destruct quality; repeat split; try assumption; apply Hw.
Qed.

Lemma preset_get_receivable quality ps :
  presetsReceivable ps -> receivable (preset_get quality ps).
Proof. intros (Hh & Hm & Hl). now destruct quality. Qed.

(** The profile that [processVideoExport] hands to the assembly is
    receivable when the container of the request has passed the schema. *)
Lemma handed_profile_receivable options s :
  presetsReceivable (presets s) ->
  In (or_default (VideoExportOptions.format options) "mp4") schemaFormats ->
  presetsReceivable (presets (stateAtAssembly options s))
  /\ receivable (preset_get (default (VideoExportOptions.quality options) medium)
                   (presets (stateAtAssembly options s))).
Proof.
  intros Hps Hf.
  assert (H : presetsReceivable (presets (stateAtAssembly options s))).
  { unfold stateAtAssembly. destruct (negb _); cbn [presets set_presets set_clock];
      [now apply preset_set_format_receivable|exact Hps]. }
  split; [exact H|now apply preset_get_receivable].
Qed.

(** C7: a profile whose codec is not in the list of its container gets the
    fallback pair that belongs to that container, which is a safe pair and,
    for ["avi"], is the legacy codec in an ["avi"] container; a profile
    whose codec is in the list of its container comes back unchanged.  A
    container without a list (and not named like an inherited property)
    gets the fallback pair too. *)
Theorem validator_fallback_or_unchanged (p : VideoQualitySettings.t) :
  (forall l,
      own_property CODEC_CONTAINER_COMPATIBILITY (requestedFormat p) = Some l ->
      array_includes l (requestedCodec p) = false ->
      let fb := fallbackFor (requestedFormat p) in
      validateCodecContainerCompatibility p
      = Ok (with_codec_format p (Some (Fallback.videoCodec fb)) (Some (Fallback.format fb)))
      /\ safePair fb
      /\ (requestedFormat p = "avi" -> fb = Fallback.mk "libxvid" "avi"))
  /\ (forall l,
      own_property CODEC_CONTAINER_COMPATIBILITY (requestedFormat p) = Some l ->
      array_includes l (requestedCodec p) = true ->
      validateCodecContainerCompatibility p = Ok p)
  /\ (own_property CODEC_CONTAINER_COMPATIBILITY (requestedFormat p) = None ->
      array_includes ObjectPrototypeKeys (requestedFormat p) = false ->
      let fb := fallbackFor (requestedFormat p) in
      validateCodecContainerCompatibility p
      = Ok (with_codec_format p (Some (Fallback.videoCodec fb)) (Some (Fallback.format fb)))
      /\ safePair fb).
Proof.
  unfold validateCodecContainerCompatibility, requestedFormat, requestedCodec.
  repeat split.
  - rewrite (get_own _ _ _ H), H0.
    now rewrite (apply_fallback_spec _ _ (compatibility_keys_not_inherited _ _ H)).
  - apply fallbackFor_safe.
  - intros ->. reflexivity.
  - intros l H H0. now rewrite (get_own _ _ _ H), H0.
  - unfold Js.get. rewrite H, H0. now rewrite (apply_fallback_spec _ _ H0).
  - apply fallbackFor_safe.
Qed.

Lemma validator_fallback_or_unchanged_witness :
  validateCodecContainerCompatibility
    (VideoQualitySettings.mk (Some "libx265") (Some "aac") None None None None
       (Some "avi") None)
  = Ok (VideoQualitySettings.mk (Some "libxvid") (Some "aac") None None None None
          (Some "avi") None)
  /\ validateCodecContainerCompatibility VIDEO_QUALITY_PRESETS_medium
     = Ok VIDEO_QUALITY_PRESETS_medium
  /\ validateCodecContainerCompatibility
       (VideoQualitySettings.mk (Some "vp9") None None None None None (Some "webm") None)
     = Ok (VideoQualitySettings.mk (Some "libx264") None None None None None
             (Some "mp4") None).
Proof.
  split; [|split].
  - apply (proj1 (validator_fallback_or_unchanged
                    (VideoQualitySettings.mk (Some "libx265") (Some "aac") None None None
                       None (Some "avi") None)) ["libxvid"; "mjpeg"]);
      reflexivity.
  - apply (proj1 (proj2 (validator_fallback_or_unchanged VIDEO_QUALITY_PRESETS_medium))
             ["libx264"; "libx265"; "h264_nvenc"]);
      reflexivity.
  - apply (proj2 (proj2 (validator_fallback_or_unchanged
                    (VideoQualitySettings.mk (Some "vp9") None None None None None
                       (Some "webm") None))));
      reflexivity.
Defined.

(** C10: whenever the validator returns a profile, that profile has the
    [audioCodec], [audioBitrate], [crf], [videoBitrate], [preset] and
    [resolution] of its input, with or without a substitution; and it does
    return one for every container that is not named like an inherited
    property. *)
Theorem validator_keeps_other_fields :
  (forall p p', validateCodecContainerCompatibility p = Ok p' -> sameOtherFields p p')
  /\ (forall p,
       array_includes ObjectPrototypeKeys (requestedFormat p) = false ->
       exists p', validateCodecContainerCompatibility p = Ok p' /\ sameOtherFields p p').
Proof.
  assert (H1 : forall p p',
             validateCodecContainerCompatibility p = Ok p' -> sameOtherFields p p').
  { intros p p' H.
    destruct (validate_result_cases _ _ H) as [->|[->| ->]];
      unfold sameOtherFields; cbn; auto 10. }
  split; [exact H1|].
  intros p Hk. destruct (validate_returns p) as [p' Hp'].
  - unfold Js.get. destruct (own_property _ _); [discriminate|].
    fold (requestedFormat p). rewrite Hk. discriminate.
  - eauto.
Qed.

Lemma validator_keeps_other_fields_witness :
  sameOtherFields
    (VideoQualitySettings.mk (Some "libx264") (Some "aac") None (Some "192k")
       (Some 18%Q) (Some "slow") (Some "avi") (Some (Resolution.mk 1920 1080)))
    (VideoQualitySettings.mk (Some "libxvid") (Some "aac") None (Some "192k")
       (Some 18%Q) (Some "slow") (Some "avi") (Some (Resolution.mk 1920 1080)))
  /\ exists p', validateCodecContainerCompatibility VIDEO_QUALITY_PRESETS_low = Ok p'
                /\ sameOtherFields VIDEO_QUALITY_PRESETS_low p'.
Proof.
  split.
  - apply (proj1 validator_keeps_other_fields). reflexivity.
  - apply (proj2 validator_keeps_other_fields). reflexivity.
Defined.

(** C8: a transition type outside none, crossfade and fade-to-black is
    replaced by crossfade and the duration is kept; a type inside the set
    comes back unchanged.  The function is total: it has no failing case. *)
Theorem transition_coerced_to_crossfade (ts : TransitionSettings.t) :
  (TransitionSettings.type ts <> "none" ->
   TransitionSettings.type ts <> "crossfade" ->
   TransitionSettings.type ts <> "fade-to-black" ->
   validateTransitionSettings ts
   = TransitionSettings.mk "crossfade" (TransitionSettings.duration ts))
  /\ (TransitionSettings.type ts = "none"
      \/ TransitionSettings.type ts = "crossfade"
      \/ TransitionSettings.type ts = "fade-to-black" ->
      validateTransitionSettings ts = ts).
Proof.
  unfold validateTransitionSettings, supportedTransitions, array_includes.
  cbn [existsb]. split.
  - intros Hn Hc Hf.
    destruct (String.eqb_spec (TransitionSettings.type ts) "none"); [contradiction|].
    destruct (String.eqb_spec (TransitionSettings.type ts) "crossfade"); [contradiction|].
    destruct (String.eqb_spec (TransitionSettings.type ts) "fade-to-black");
      [contradiction|reflexivity].
  - intros [H|[H|H]]; rewrite H; reflexivity.
Qed.

Lemma transition_coerced_to_crossfade_witness :
  validateTransitionSettings (TransitionSettings.mk "wipe" 0.75)
  = TransitionSettings.mk "crossfade" 0.75
  /\ validateTransitionSettings (TransitionSettings.mk "slide" 2)
     = TransitionSettings.mk "crossfade" 2
  /\ validateTransitionSettings (TransitionSettings.mk "fade-to-black" 1)
     = TransitionSettings.mk "fade-to-black" 1.
Proof.
  split; [|split].
  - apply (proj1 (transition_coerced_to_crossfade (TransitionSettings.mk "wipe" 0.75)));
      discriminate.
  - apply (proj1 (transition_coerced_to_crossfade (TransitionSettings.mk "slide" 2)));
      discriminate.
  - apply (proj2 (transition_coerced_to_crossfade
                    (TransitionSettings.mk "fade-to-black" 1))).
    right; right; reflexivity.
Defined.

End ValidatorClaims.

(** ** The narration synthesizer *)

Section Narration.

Variable w : World.

Lemma length_append (a b : string) :
  String.length (a +:+ b) = (String.length a + String.length b)%nat.
Proof. induction a as [|c a IH]; simpl; [reflexivity|now f_equal]. Qed.

Lemma length_substring_le (n m : nat) (s : string) :
  (String.length (String.substring n m s) <= m)%nat.
Proof.
  revert n m. induction s as [|c s IH]; intros [|n] [|m]; cbn; try lia.
  - specialize (IH 0%nat m). lia.
  - apply (IH n 0%nat).
  - apply (IH n (S m)).
Qed.

Lemma length_truncatedText (text : string) :
  (String.length (truncatedText text) <= 4003)%nat.
Proof.
  unfold truncatedText. destruct (Nat.ltb_spec 4000 (String.length text)) as [H|H].
  - rewrite length_append. pose proof (length_substring_le 0 4000 text).
    change (String.length "...") with 3%nat. lia.
  - lia.
Qed.

Lemma truncatedText_short (text : string) :
  (String.length text <= 4000)%nat -> truncatedText text = text.
Proof.
  intros H. unfold truncatedText.
  destruct (Nat.ltb_spec 4000 (String.length text)); [lia|reflexivity].
Qed.

(** Every request that [generateAudioWithRetry] sends carries the truncated
    text. *)
Lemma generateAudioWithRetry_requests fuel text voice model format fileName attempt s :
  exists added,
    speechRequests (generateAudioWithRetry w fuel text voice model format fileName attempt s).2
    = speechRequests s ++ added
    /\ (0 < length added)%nat
    /\ Forall (fun req => SpeechRequest.input req = truncatedText text) added.
Proof.
  revert attempt s. induction fuel as [|fuel IH]; intros attempt s.
  - exists [SpeechRequest.mk model voice (truncatedText text) format].
    split; [|split; [cbn; lia|repeat constructor]].
    cbn. unfold try_catch, mbind, M_bind, gets, modify, throw, mret, M_ret; cbn.
    destruct (speech_create w _ _) as [bytes|e]; cbn.
    + destruct (bytes =? 0)%Z; cbn; [|reflexivity].
      repeat match goal with |- context [if ?b then _ else _] => destruct b end;
        reflexivity.
    + repeat match goal with |- context [if ?b then _ else _] => destruct b end;
        reflexivity.
  - cbn. unfold try_catch, mbind, M_bind, gets, modify, throw, mret, M_ret; cbn.
    set (req := SpeechRequest.mk model voice (truncatedText text) format).
    set (s1 := set_speechRequests (fun l => l ++ [req]) s).
    assert (Hretry : forall a,
      exists added,
        speechRequests (generateAudioWithRetry w fuel text voice model format fileName a s1).2
        = speechRequests s ++ added
        /\ (0 < length added)%nat
        /\ Forall (fun r => SpeechRequest.input r = truncatedText text) added).
    { intros a. destruct (IH a s1) as (added & Heq & _ & Hall).
      exists (req :: added). split; [|split].
      - rewrite Heq. cbn. now rewrite <- app_assoc.
      - cbn; lia.
      - constructor; [reflexivity|assumption]. }
    assert (Hstop : exists added,
      speechRequests s1 = speechRequests s ++ added
      /\ (0 < length added)%nat
      /\ Forall (fun r => SpeechRequest.input r = truncatedText text) added).
    { exists [req]. split; [reflexivity|split; [cbn; lia|repeat constructor]]. }
    destruct (speech_create w _ _) as [bytes|e]; cbn.
    + destruct (bytes =? 0)%Z; cbn; [|exact Hstop].
      repeat match goal with |- context [if ?b then _ else _] => destruct b end;
        cbn; auto.
    + repeat match goal with |- context [if ?b then _ else _] => destruct b end;
        cbn; auto.
Qed.

(** C9, as the code has it: every request that the synthesizer submits for
    a text carries that text cut by [truncatedText], that is the text itself
    when it has at most 4000 characters and its first 4000 characters
    followed by an ellipsis otherwise; at least one request is submitted and
    no submitted text is longer than 4003 characters. *)
Theorem submitted_text_at_most_4003 fuel text voice model format fileName attempt s :
  exists added,
    speechRequests (generateAudioWithRetry w fuel text voice model format fileName attempt s).2
    = speechRequests s ++ added
    /\ (0 < length added)%nat
    /\ Forall (fun req =>
                SpeechRequest.input req
                = (if (4000 <? String.length text)%nat
                   then String.substring 0 4000 text +:+ "..."
                   else text)
                /\ (String.length (SpeechRequest.input req) <= 4003)%nat) added.
Proof.
  destruct (generateAudioWithRetry_requests fuel text voice model format fileName attempt s)
    as (added & Heq & Hlen & Hall).
  exists added. split; [assumption|split; [assumption|]].
  eapply Forall_impl; [exact Hall|].
  intros req Hreq. cbn in Hreq. split; [exact Hreq|].
  rewrite Hreq. apply length_truncatedText.
Qed.

Lemma narrationLoop_outcomes voice model format slides results errors s :
  narrationLoop w slides voice model format results errors s
  = (Ok (results ++ omap narratedClip (batchOutcomes w voice model format slides s).1,
         errors ++ omap failureOf (batchOutcomes w voice model format slides s).1),
     (batchOutcomes w voice model format slides s).2).
Proof.
  revert results errors s. induction slides as [|slide rest IH]; intros results errors s.
  - cbn. now rewrite !app_nil_r.
  - cbn [narrationLoop batchOutcomes].
    unfold slideOutcome, mbind, M_bind, try_catch at 1.
    unfold mbind, M_bind.
    destruct (narrateSlide w slide voice model format s) as [[[clip|]|e] s1];
      cbn; rewrite IH;
      destruct (batchOutcomes w voice model format rest s1) as [os s2]; cbn;
      rewrite <- ?app_assoc; reflexivity.
Qed.

Lemma batchOutcomes_length voice model format slides s :
  length (batchOutcomes w voice model format slides s).1 = length slides.
Proof.
  revert s. induction slides as [|slide rest IH]; intros s; [reflexivity|].
  cbn [batchOutcomes]. destruct (slideOutcome w voice model format slide s) as [o s1].
  specialize (IH s1). destruct (batchOutcomes w voice model format rest s1) as [os s2].
  cbn in *. now rewrite IH.
Qed.

Lemma all_failed_outcomes (outcomes : list SlideOutcome) :
  Forall isFailed outcomes ->
  omap narratedClip outcomes = []
  /\ length (omap failureOf outcomes) = length outcomes.
Proof.
  induction 1 as [|o os Ho _ [IH1 IH2]]; [split; reflexivity|].
  destruct o; cbn in Ho; try contradiction.
  cbn. rewrite IH2. split; [exact IH1|reflexivity].
Qed.

(** C5: the batch narrates what it can.  With at least one narrated slide
    it returns the narrated clips, in slide order, whatever happened to the
    other slides; it throws only when no slide was narrated; and it throws
    when there are slides and the synthesis of every one of them failed. *)
Theorem narration_batch_tolerates_failures slides voice model format s :
  let outcomes := (batchOutcomes w voice model format slides s).1 in
  let clips := omap narratedClip outcomes in
  let result := (generatePresentationNarration w slides voice model format s).1 in
  ((0 < length clips)%nat -> result = Ok clips)
  /\ (forall e, result = Throw e -> clips = [])
  /\ ((0 < length slides)%nat -> Forall isFailed outcomes -> exists e, result = Throw e).
Proof.
  destruct slides as [|slide rest].
  - cbn. repeat split; intros; try lia; reflexivity.
  - set (sl := slide :: rest). intros outcomes clips result.
    assert (Hres : result =
      if (length clips =? 0)%nat && (0 <? length (omap failureOf outcomes))%nat
      then Throw (newError ("Failed to generate any narration. Errors: "
                            +:+ join ", " (map snd (omap failureOf outcomes))))
      else Ok clips).
    { subst result. unfold generatePresentationNarration. subst sl.
      unfold mbind, M_bind. rewrite narrationLoop_outcomes. cbn [fst snd app].
      fold outcomes. fold clips.
      destruct ((length clips =? 0)%nat && (0 <? length (omap failureOf outcomes))%nat);
        reflexivity. }
    rewrite Hres. repeat split.
    + intros Hpos. destruct (Nat.eqb_spec (length clips) 0); [lia|reflexivity].
    + intros e. destruct (Nat.eqb_spec (length clips) 0) as [H0|H0]; cbn.
      * intros _. now destruct clips.
      * discriminate.
    + intros _ Hall.
      assert (Hc : clips = [] /\ (0 < length (omap failureOf outcomes))%nat).
      { destruct (all_failed_outcomes _ Hall) as [Hclips Hfail].
        split; [exact Hclips|]. rewrite Hfail. subst outcomes.
        rewrite batchOutcomes_length. subst sl. cbn. lia. }
      destruct Hc as [-> Hf]. cbn.
      destruct (length (omap failureOf outcomes)); [lia|eauto].
Qed.

End Narration.

Lemma narration_batch_tolerates_failures_witness :
  (exists clips,
      (generatePresentationNarration (exampleWorld 5 speechThirdCallDown) fiveSlides
         "alloy" "tts-1" "mp3" initialState).1 = Ok clips
      /\ map SlideNarrationResult.slideId clips = ["s1"; "s2"; "s4"; "s5"])
  /\ (exists e,
         (generatePresentationNarration (exampleWorld 5 speechAlwaysDown) fiveSlides
            "alloy" "tts-1" "mp3" initialState).1 = Throw e).
Proof.
  split.
  - eexists. split.
    + apply (proj1 (narration_batch_tolerates_failures
                      (exampleWorld 5 speechThirdCallDown) fiveSlides
                      "alloy" "tts-1" "mp3" initialState)).
      vm_compute. lia.
    + vm_compute. reflexivity.
  - apply (proj2 (proj2 (narration_batch_tolerates_failures
                      (exampleWorld 5 speechAlwaysDown) fiveSlides
                      "alloy" "tts-1" "mp3" initialState))).
    + vm_compute. lia.
    + vm_compute. repeat constructor.
Defined.

(** C9 as stated, refuted: a text of 4001 characters is submitted as 4003
    characters, which is more than 4000. *)
Lemma submitted_text_exceeds_4000 :
  map (fun req => String.length (SpeechRequest.input req))
    (speechRequests
       (generateAudioWithRetry (exampleWorld 5 speechAlwaysAudio) 3
          (replicate_char 4001 "a") "alloy" "tts-1" "mp3" "slide_s1_1700000000000" 1
          initialState).2)
  = [4003%nat]
  /\ ~ Forall (fun req => (String.length (SpeechRequest.input req) <= 4000)%nat)
        (speechRequests
           (generateAudioWithRetry (exampleWorld 5 speechAlwaysAudio) 3
              (replicate_char 4001 "a") "alloy" "tts-1" "mp3" "slide_s1_1700000000000" 1
              initialState).2).
Proof.
  assert (H : map (fun req => String.length (SpeechRequest.input req))
    (speechRequests
       (generateAudioWithRetry (exampleWorld 5 speechAlwaysAudio) 3
          (replicate_char 4001 "a") "alloy" "tts-1" "mp3" "slide_s1_1700000000000" 1
          initialState).2)
  = [4003%nat]) by (vm_compute; reflexivity).
  split; [exact H|].
  intros Hall.
  remember (speechRequests _) as l eqn:Hl in H, Hall. clear Hl.
  destruct l as [|req l]; [discriminate H|].
  injection H as Hreq _. inversion Hall; subst. lia.
Qed.

(** ** Reasoning about computations *)

Section Computations.

Lemma bind_ok_inv {A B : Type} (m : M A) (f : A -> M B) s b s' :
  (m ≫= f) s = (Ok b, s') ->
  exists a s1, m s = (Ok a, s1) /\ f a s1 = (Ok b, s').
Proof.
  unfold mbind, M_bind. destruct (m s) as [[a|e] s1]; [eauto|discriminate].
Qed.

Lemma bind_ok {A B : Type} (m : M A) (f : A -> M B) s a s1 :
  m s = (Ok a, s1) -> (m ≫= f) s = f a s1.
Proof. unfold mbind, M_bind. now intros ->. Qed.

Lemma bind_throw {A B : Type} (m : M A) (f : A -> M B) s e s1 :
  m s = (Throw e, s1) -> (m ≫= f) s = (Throw e, s1).
Proof. unfold mbind, M_bind. now intros ->. Qed.

(** A [catch] block that always rethrows lets only the values of the [try]
    block through. *)
Lemma try_catch_ok_inv {A : Type} (m : M A) (h : Error -> M A) s a s' :
  (forall e s0, exists e' s1, h e s0 = (Throw e', s1)) ->
  try_catch m h s = (Ok a, s') -> m s = (Ok a, s').
Proof.
  intros Hh. unfold try_catch. destruct (m s) as [[a0|e] s1]; [easy|].
  destruct (Hh e s1) as (e' & s2 & ->). discriminate.
Qed.

Lemma preserves_mret {A : Type} P (a : A) : preserves P (mret a).
Proof. now intros s. Qed.

Lemma preserves_throw {A : Type} P e : preserves P (@throw A e).
Proof. now intros s. Qed.

Lemma preserves_lift {A : Type} P (r : Result A) : preserves P (lift r).
Proof. now intros s. Qed.

Lemma preserves_gets {A : Type} P (f : State -> A) : preserves P (gets f).
Proof. now intros s. Qed.

Lemma preserves_modify P (f : State -> State) :
  (forall s, P s -> P (f s)) -> preserves P (modify f).
Proof. intros H s. apply H. Qed.

Lemma preserves_bind {A B : Type} P (m : M A) (f : A -> M B) :
  preserves P m -> (forall a, preserves P (f a)) -> preserves P (m ≫= f).
Proof.
  intros Hm Hf s Hs. unfold mbind, M_bind. specialize (Hm s Hs).
  destruct (m s) as [[a|e] s1]; cbn in *; [now apply Hf|assumption].
Qed.

Lemma preserves_try_catch {A : Type} P (m : M A) (h : Error -> M A) :
  preserves P m -> (forall e, preserves P (h e)) -> preserves P (try_catch m h).
Proof.
  intros Hm Hh s Hs. unfold try_catch. specialize (Hm s Hs).
  destruct (m s) as [[a|e] s1]; cbn in *; [assumption|now apply Hh].
Qed.

Lemma preserves_for_each {A : Type} P (body : A -> M unit) (l : list A) :
  (forall x, preserves P (body x)) -> preserves P (for_each body l).
Proof.
  intros Hb. induction l as [|x l IH]; cbn [for_each].
  - apply preserves_mret.
  - apply preserves_bind; [apply Hb|intros _; exact IH].
Qed.

End Computations.

(** Structural steps of a preservation proof. *)
Ltac preserve_step :=
  lazymatch goal with
  | |- preserves _ (mret _) => apply preserves_mret
  | |- preserves _ (throw _) => apply preserves_throw
  | |- preserves _ (lift _) => apply preserves_lift
  | |- preserves _ (gets _) => apply preserves_gets
  | |- preserves _ (modify _) => apply preserves_modify; intros; auto
  | |- preserves _ (mbind _ _) => apply preserves_bind; [|intros ?]
  | |- preserves _ (try_catch _ _) => apply preserves_try_catch; [|intros ?]
  | |- preserves _ (for_each _ _) => apply preserves_for_each; intros ?
  | |- preserves _ (match ?x with _ => _ end) => destruct x
  | |- preserves _ (let _ := _ in _) => cbv zeta
  | |- preserves _ _ => solve [auto]
  end.

Ltac preserve := repeat preserve_step.

(** ** The duration of the assembled video *)

Section Duration.

Variable w : World.

Lemma updateExportProgress_ok id progress phase message error s :
  (updateExportProgress w id progress phase message error s).1 = Ok tt.
Proof.
  unfold updateExportProgress, mbind, M_bind, gets, now, modify; cbn.
  destruct (exports s !! id); reflexivity.
Qed.

Lemma updateJobProgress_ok storage jobId progress status s :
  (updateJobProgress w storage jobId progress status s).1 = Ok tt.
Proof.
  unfold updateJobProgress, mbind, M_bind, modify; cbn.
  destruct storage; [apply updateExportProgress_ok|reflexivity].
Qed.

Lemma updateJobProgress_run storage jobId progress status s :
  updateJobProgress w storage jobId progress status s
  = (Ok tt, (updateJobProgress w storage jobId progress status s).2).
Proof.
  pose proof (updateJobProgress_ok storage jobId progress status s) as H.
  destruct (updateJobProgress w storage jobId progress status s) as [r s'].
  cbn in *. now subst.
Qed.

(** A slide video that was created has the duration that ffprobe reported
    for its audio file. *)
Lemma createSlideVideo_duration imagePath audioPath outputPath qs cb s r s' :
  createSlideVideo w imagePath audioPath outputPath qs cb s = (Ok r, s') ->
  ffprobe w audioPath = ProbeDuration (VideoAssemblyResult.duration r).
Proof.
  unfold createSlideVideo.
  destruct (fs_stat w imagePath); [|discriminate].
  destruct (fs_stat w audioPath); [|discriminate].
  intros H. apply try_catch_ok_inv in H; [|intros; unfold throw; eauto].
  apply bind_ok_inv in H as (d & s1 & Hprobe & H).
  apply bind_ok_inv in H as (videoPath & s2 & _ & H).
  unfold getAudioDuration in Hprobe.
  destruct (ffprobe w audioPath) as [m| |d']; try discriminate.
  injection Hprobe as <- <-.
  destruct (fs_stat w videoPath) as [size|]; [|discriminate].
  destruct (size =? 0)%Z; [discriminate|].
  now injection H as <- <-.
Qed.

Lemma slideLoop_total storage jobId qs n slides i slideVideos totalDuration s acc s' :
  slideLoop w storage jobId qs n slides i slideVideos totalDuration s = (Ok acc, s') ->
  exists ds,
    audioDurations w slides ds
    /\ acc.2 = fold_left PrimFloat.add ds totalDuration
    /\ length acc.1 = (length slideVideos + length slides)%nat.
Proof.
  revert i slideVideos totalDuration s.
  induction slides as [|slide rest IH]; intros i slideVideos totalDuration s H.
  - injection H as <- <-. exists []. split; [constructor|].
    cbn [fst snd fold_left length]. split; [reflexivity|lia].
  - cbn [slideLoop] in H.
    apply bind_ok_inv in H as ([] & s1 & _ & H).
    apply bind_ok_inv in H as (t & s2 & _ & H).
    apply bind_ok_inv in H as (result & s3 & Hcreate & H).
    apply createSlideVideo_duration in Hcreate.
    apply IH in H as (ds & Hds & Hsum & Hlen).
    exists (VideoAssemblyResult.duration result :: ds).
    split; [constructor; assumption|]. split.
    + rewrite Hsum. reflexivity.
    + rewrite Hlen, length_app. cbn. lia.
Qed.

(** C1: when [assemblePresentationVideo] returns, its [totalDuration] is
    the sum of the audio durations of the segments, less [(n-1)*T] for a
    validated crossfade over at least two segments, plus [(n-1)*T] for any
    other validated type but none over at least two segments, and unchanged
    for one segment or for type none.  The sum, the product and the
    difference are those of binary64 arithmetic, in the order in which the
    code forms them, and the equations hold to the last bit. *)
Theorem totalDuration_accounts_for_transitions
    storage slides outputPath qs ts jobId s result s' :
  assemblePresentationVideo w storage slides outputPath qs ts jobId s = (Ok result, s') ->
  let n := length slides in
  let validated := validateTransitionSettings ts in
  let T := TransitionSettings.duration validated in
  let total := PresentationVideoResult.totalDuration result in
  exists ds,
    audioDurations w slides ds
    /\ ((2 <= n)%nat -> TransitionSettings.type validated = "crossfade" ->
        total = (sumDurations ds - number_of_nat (n - 1) * T)%float)
    /\ ((2 <= n)%nat -> TransitionSettings.type validated <> "none" ->
        TransitionSettings.type validated <> "crossfade" ->
        total = (sumDurations ds + number_of_nat (n - 1) * T)%float)
    /\ (n = 1%nat \/ TransitionSettings.type validated = "none" ->
        total = sumDurations ds).
Proof.
  intros H n validated T total.
  unfold assemblePresentationVideo in H.
  destruct slides as [|slide rest] eqn:Hslides; [discriminate|]. rewrite <- Hslides in *.
  apply try_catch_ok_inv in H.
  2:{ intros e s0. unfold mbind, M_bind.
      rewrite updateJobProgress_run. unfold throw. eauto. }
  apply bind_ok_inv in H as ([] & s1 & _ & H).
  apply bind_ok_inv in H as (acc & s2 & Hloop & H).
  apply slideLoop_total in Hloop as (ds & Hds & Hsum & _).
  apply bind_ok_inv in H as ([] & s3 & _ & H).
  apply bind_ok_inv in H as (finalVideoPath & s4 & _ & H).
  apply bind_ok_inv in H as ([] & s5 & _ & H).
  destruct (fs_stat w finalVideoPath) as [size|]; [|discriminate].
  destruct (size =? 0)%Z; [discriminate|].
  apply bind_ok_inv in H as ([] & s6 & _ & H).
  injection H as <- _.
  assert (Htotal : total = adjustTotalDuration n validated acc.2).
  { subst total n validated. cbn [PresentationVideoResult.totalDuration].
    now rewrite Hslides. }
  exists ds. split; [assumption|].
  rewrite Htotal. unfold adjustTotalDuration, sumDurations. fold T. rewrite Hsum.
  repeat split.
  - intros Hn Hty. destruct (Nat.ltb_spec 1 n); [|lia].
    rewrite Hty. reflexivity.
  - intros Hn Hnone Hcross. destruct (Nat.ltb_spec 1 n); [|lia].
    destruct (String.eqb_spec (TransitionSettings.type validated) "none");
      [contradiction|].
    destruct (String.eqb_spec (TransitionSettings.type validated) "crossfade");
      [contradiction|].
    reflexivity.
  - intros [Hn|Hty].
    + destruct (Nat.ltb_spec 1 n); [lia|]. reflexivity.
    + rewrite Hty. rewrite andb_false_r. reflexivity.
Qed.

End Duration.

Lemma threeSegments_durations ds :
  audioDurations threeSegmentsWorld threeSegments ds -> ds = [0.1; 0.2; 0.3]%float.
Proof.
  intros H. unfold audioDurations, threeSegments in H.
  repeat match goal with
         | H : Forall2 _ (_ :: _) _ |- _ => inversion H; subst; clear H
         | H : Forall2 _ [] _ |- _ => inversion H; subst; clear H
         | H : ffprobe _ _ = ProbeDuration _ |- _ => injection H as <-
         end.
  reflexivity.
Qed.

Lemma totalDuration_accounts_for_transitions_witness :
  (exists result s',
      assemblePresentationVideo threeSegmentsWorld false threeSegments "/out/deck.mp4"
        VIDEO_QUALITY_PRESETS_medium (TransitionSettings.mk "crossfade" 0.1) "job-1"
        initialState = (Ok result, s')
      /\ PresentationVideoResult.totalDuration result = 0.4000000000000001%float)
  /\ (exists result s',
      assemblePresentationVideo threeSegmentsWorld false threeSegments "/out/deck.mp4"
        VIDEO_QUALITY_PRESETS_medium (TransitionSettings.mk "fade-to-black" 0.1) "job-1"
        initialState = (Ok result, s')
      /\ PresentationVideoResult.totalDuration result = 0.8%float)
  /\ (exists result s',
      assemblePresentationVideo threeSegmentsWorld false threeSegments "/out/deck.mp4"
        VIDEO_QUALITY_PRESETS_medium (TransitionSettings.mk "none" 0.1) "job-1"
        initialState = (Ok result, s')
      /\ PresentationVideoResult.totalDuration result = 0.6000000000000001%float).
Proof.
  split; [|split].
  - eexists _, _. split; [vm_compute; reflexivity|].
    destruct (totalDuration_accounts_for_transitions threeSegmentsWorld false
                threeSegments "/out/deck.mp4" VIDEO_QUALITY_PRESETS_medium
                (TransitionSettings.mk "crossfade" 0.1) "job-1" initialState _ _
                ltac:(vm_compute; reflexivity))
      as (ds & Hds & Hcross & _ & _).
    apply threeSegments_durations in Hds. subst ds.
    rewrite Hcross; [vm_compute; reflexivity|cbn; lia|reflexivity].
  - eexists _, _. split; [vm_compute; reflexivity|].
    destruct (totalDuration_accounts_for_transitions threeSegmentsWorld false
                threeSegments "/out/deck.mp4" VIDEO_QUALITY_PRESETS_medium
                (TransitionSettings.mk "fade-to-black" 0.1) "job-1" initialState _ _
                ltac:(vm_compute; reflexivity))
      as (ds & Hds & _ & Hother & _).
    apply threeSegments_durations in Hds. subst ds.
    rewrite Hother; [vm_compute; reflexivity|cbn; lia|discriminate|discriminate].
  - eexists _, _. split; [vm_compute; reflexivity|].
    destruct (totalDuration_accounts_for_transitions threeSegmentsWorld false
                threeSegments "/out/deck.mp4" VIDEO_QUALITY_PRESETS_medium
                (TransitionSettings.mk "none" 0.1) "job-1" initialState _ _
                ltac:(vm_compute; reflexivity))
      as (ds & Hds & _ & _ & Hplain).
    apply threeSegments_durations in Hds. subst ds.
    rewrite Hplain; [vm_compute; reflexivity|right; reflexivity].
Defined.

(** ** Pairing images with narrations *)

Section Pairing.

Lemma length_omap_le {A B : Type} (f : A -> option B) (l : list A) :
  (length (omap f l) <= length l)%nat.
Proof. induction l as [|x l IH]; cbn; [lia|destruct (f x); cbn; lia]. Qed.

Lemma length_omap_eq {A B : Type} (f : A -> option B) (l : list A) :
  length (omap f l) = length l <-> Forall (fun x => is_Some (f x)) l.
Proof.
  induction l as [|x l IH]; cbn.
  - split; [constructor|reflexivity].
  - pose proof (length_omap_le f l) as Hle. destruct (f x) as [b|] eqn:Hfx; cbn.
    + split.
      * intros H. constructor; [rewrite Hfx; eauto|]. apply IH. lia.
      * intros H. inversion H; subst. f_equal. now apply IH.
    + split; [lia|]. intros H. inversion H as [|? ? [b Hb]]; subst. congruence.
Qed.

Lemma find_narration_is_Some (narrs : list SlideNarrationResult.t) (id : string) :
  is_Some (List.find (fun n => String.eqb (SlideNarrationResult.slideId n) id) narrs)
  <-> exists narration, narration ∈ narrs /\ SlideNarrationResult.slideId narration = id.
Proof.
  split.
  - intros [narration H]. apply find_some in H as [Hin Heq].
    exists narration. split; [now apply list_elem_of_In|now apply String.eqb_eq].
  - intros (narration & Hin & Hid).
    destruct (List.find _ narrs) as [n|] eqn:Hfind; [eauto|].
    apply list_elem_of_In in Hin.
    pose proof (find_none _ _ Hfind _ Hin) as Hnone. cbn in Hnone.
    apply String.eqb_neq in Hnone. contradiction.
Qed.

Lemma pairAt_is_Some imgs narrs i image :
  imgs !! i = Some image ->
  is_Some (pairAt imgs narrs i)
  <-> exists narration, narration ∈ narrs
        /\ SlideNarrationResult.slideId narration = PresentationRenderResult.slideId image.
Proof.
  intros Himg. rewrite <- find_narration_is_Some. unfold pairAt. rewrite Himg. cbn.
  destruct (List.find _ narrs); cbn; split; intros [x Hx]; eauto; discriminate.
Qed.

Lemma pairAt_Some imgs narrs i input :
  pairAt imgs narrs i = Some input ->
  exists image narration,
    imgs !! i = Some image /\ narration ∈ narrs
    /\ SlideNarrationResult.slideId narration = PresentationRenderResult.slideId image
    /\ input = SlideVideoInput.mk (PresentationRenderResult.imagePath image)
                 (SlideNarrationResult.audioPath narration)
                 (SlideNarrationResult.duration narration).
Proof.
  unfold pairAt. destruct (imgs !! i) as [image|]; [|discriminate]. cbn.
  destruct (List.find _ narrs) as [narration|] eqn:Hfind; [|discriminate]. cbn.
  intros [= <-]. apply find_some in Hfind as [Hin Heq].
  exists image, narration. repeat split; try reflexivity.
  - now apply list_elem_of_In.
  - now apply String.eqb_eq.
Qed.

End Pairing.

Section PairingClaim.

Variable w : World.

Lemma updateExportProgress_run id progress phase message error s :
  updateExportProgress w id progress phase message error s
  = (Ok tt, (updateExportProgress w id progress phase message error s).2).
Proof.
  pose proof (updateExportProgress_ok w id progress phase message error s) as H.
  destruct (updateExportProgress w id progress phase message error s) as [r s'].
  cbn in *. now subst.
Qed.

Lemma seq_update {B : Type} id progress phase message error (k : M B) s :
  (updateExportProgress w id progress phase message error ;; k) s
  = k (updateExportProgress w id progress phase message error s).2.
Proof.
  exact (bind_ok _ (fun _ => k) s tt _ (updateExportProgress_run _ _ _ _ _ s)).
Qed.

(** C4, as the code has it: the inputs handed to assembly are at most as
    many as the smaller of the two lists, and exactly as many when each of
    the first [min] images has a narration with its slide id; every input
    joins an image and a narration of the same slide id, taken from the two
    lists; a job that reaches the pairing step and ends up with no pair
    fails with the pairing error; and a job that ends up with a pair goes
    on as [assemblePresentationVideo] does on exactly these inputs. *)
Theorem pairing_within_both_inputs
    exportId presentation options s slides narrs s2 imgs :
  let pairs := pairSlideVideoInputs imgs narrs in
  let m := Nat.min (length imgs) (length narrs) in
  (length pairs <= m)%nat
  /\ (length pairs = m <->
      forall i image, (i < m)%nat -> imgs !! i = Some image ->
        exists narration, narration ∈ narrs
          /\ SlideNarrationResult.slideId narration
             = PresentationRenderResult.slideId image)
  /\ (forall input, input ∈ pairs ->
      exists image narration,
        image ∈ imgs /\ narration ∈ narrs
        /\ SlideNarrationResult.slideId narration = PresentationRenderResult.slideId image
        /\ input = SlideVideoInput.mk (PresentationRenderResult.imagePath image)
                     (SlideNarrationResult.audioPath narration)
                     (SlideNarrationResult.duration narration))
  /\ (Presentation.slides presentation = Some slides ->
      generatePresentationNarration w slides
        (or_default (VideoExportOptions.voice options) "alloy")
        (or_default (VideoExportOptions.ttsModel options) "tts-1") "mp3"
        (stateAtNarration w exportId s) = (Ok narrs, s2) ->
      renderPresentationFromSlides w slides = Ok imgs ->
      (0 < length narrs)%nat -> (0 < length imgs)%nat ->
      length pairs = 0%nat ->
      (processVideoExport w exportId presentation options s).1
      = Throw (newError "Failed to match slide images with narration audio"))
  /\ (Presentation.slides presentation = Some slides ->
      generatePresentationNarration w slides
        (or_default (VideoExportOptions.voice options) "alloy")
        (or_default (VideoExportOptions.ttsModel options) "tts-1") "mp3"
        (stateAtNarration w exportId s) = (Ok narrs, s2) ->
      renderPresentationFromSlides w slides = Ok imgs ->
      (0 < length narrs)%nat -> (0 < length imgs)%nat ->
      (0 < length pairs)%nat ->
      let sP := stateAtPairing w exportId narrs imgs s2 in
      let sA := stateAtAssembly options sP in
      processVideoExport w exportId presentation options s
      = match assemblePresentationVideo w true pairs
                (videoOutputPath w presentation options sP)
                (preset_get (default (VideoExportOptions.quality options) medium)
                   (presets sA))
                (default (VideoExportOptions.transition options)
                   (TransitionSettings.mk "crossfade" 0.5))
                exportId sA with
        | (Ok videoResult, s') => (Ok (PresentationVideoResult.videoPath videoResult), s')
        | (Throw error, s') => (Throw error, s')
        end).
Proof.
  intros pairs m. split; [|split; [|split; [|split]]].
  - subst pairs m. unfold pairSlideVideoInputs.
    etransitivity; [apply length_omap_le|]. now rewrite length_seq.
  - subst pairs. unfold pairSlideVideoInputs. fold m.
    pose proof (length_omap_eq (pairAt imgs narrs) (seq 0 m)) as Hiff.
    rewrite length_seq in Hiff. rewrite Hiff, Forall_forall. clear Hiff.
    split.
    + intros H i image Hi Himg. apply (pairAt_is_Some imgs narrs i image Himg).
      apply H. apply elem_of_seq. lia.
    + intros H i Hi. apply elem_of_seq in Hi.
      assert (Hlt : (i < length imgs)%nat) by (subst m; lia).
      apply lookup_lt_is_Some in Hlt as [image Himg].
      apply (pairAt_is_Some imgs narrs i image Himg). apply (H i image); [lia|assumption].
  - intros input Hin. subst pairs. unfold pairSlideVideoInputs in Hin.
    apply list_elem_of_omap in Hin as (i & _ & Hpair).
    apply pairAt_Some in Hpair as (image & narration & Himg & Hnarr & Hid & ->).
    exists image, narration. repeat split; try assumption.
    eapply list_elem_of_lookup_2; eassumption.
  - intros Hslides Hnarr Himgs Hn Hi Hpairs.
    unfold processVideoExport. rewrite Hslides. cbn [default].
    destruct slides as [|slide rest]; [discriminate Hnarr|].
    unfold try_catch. rewrite seq_update.
    fold (stateAtNarration w exportId s).
    rewrite (bind_ok _ _ _ _ _ Hnarr).
    destruct narrs as [|narration narrs']; [cbn in Hn; lia|].
    rewrite !seq_update. rewrite Himgs.
    unfold lift at 1. unfold mbind at 1, M_bind at 1.
    destruct imgs as [|image imgs']; [cbn in Hi; lia|].
    rewrite !seq_update.
    fold pairs. destruct pairs; [reflexivity|discriminate Hpairs].
  - intros Hslides Hnarr Himgs Hn Hi Hpairs sP sA.
    unfold processVideoExport. rewrite Hslides. cbn [default].
    destruct slides as [|slide rest]; [discriminate Hnarr|].
    unfold try_catch. rewrite seq_update.
    fold (stateAtNarration w exportId s).
    rewrite (bind_ok _ _ _ _ _ Hnarr).
    destruct narrs as [|narration narrs']; [cbn in Hn; lia|].
    rewrite !seq_update. rewrite Himgs.
    unfold lift at 1. unfold mbind at 1, M_bind at 1.
    destruct imgs as [|image imgs']; [cbn in Hi; lia|].
    rewrite !seq_update.
    fold pairs. fold (stateAtPairing w exportId (narration :: narrs') (image :: imgs') s2).
    fold sP.
    destruct pairs as [|input pairs'] eqn:Hp; [cbn in Hpairs; lia|]. rewrite <- Hp.
    rewrite (bind_ok (now w) _ sP _ _ eq_refl).
    fold (videoOutputPath w presentation options sP).
    unfold stateAtAssembly in sA.
    destruct (negb (String.eqb (or_default (VideoExportOptions.format options) "mp4")
                      "mp4")) eqn:Hformat.
    + rewrite (bind_ok (modify _) _ (set_clock S sP) tt _ eq_refl).
      rewrite (bind_ok (gets _) _ _ _ _ eq_refl). fold sA.
      unfold mbind, M_bind.
      destruct (assemblePresentationVideo w true pairs _ _ _ exportId sA) as [[r|e] s'];
        reflexivity.
    + rewrite (bind_ok (mret tt) _ (set_clock S sP) tt _ eq_refl).
      rewrite (bind_ok (gets _) _ _ _ _ eq_refl). fold sA.
      unfold mbind, M_bind.
      destruct (assemblePresentationVideo w true pairs _ _ _ exportId sA) as [[r|e] s'];
        reflexivity.
Qed.

End PairingClaim.

Lemma pairing_within_both_inputs_witness :
  (processVideoExport mismatchWorld "e1" twoSlideDeck noOptions
     (stateWithExport "e1" "p1" "video")).1
  = Throw (newError "Failed to match slide images with narration audio")
  /\ (exists image narration,
        image ∈ [exampleImage "s1"; exampleImage "s2"; exampleImage "s3"]
        /\ narration ∈ [exampleClip "s2"; exampleClip "s3"]
        /\ SlideNarrationResult.slideId narration = PresentationRenderResult.slideId image
        /\ SlideVideoInput.mk "/app/uploads/slide_images/s2.png"
             "/app/uploads/tts_audio/s2.mp3" 5
           = SlideVideoInput.mk (PresentationRenderResult.imagePath image)
               (SlideNarrationResult.audioPath narration)
               (SlideNarrationResult.duration narration))
  /\ (processVideoExport (exampleWorld 5 speechAlwaysAudio) "e1" twoSlideDeck noOptions
        (stateWithExport "e1" "p1" "video")).1
     = Ok "/app/uploads/videos/presentation_p1_1700000000007.mp4".
Proof.
  split; [|split].
  - eapply (proj1 (proj2 (proj2 (proj2
              (pairing_within_both_inputs mismatchWorld "e1" twoSlideDeck noOptions
                 (stateWithExport "e1" "p1" "video") _ _ _ _))))).
    + reflexivity.
    + vm_compute. reflexivity.
    + vm_compute. reflexivity.
    + cbn. lia.
    + cbn. lia.
    + vm_compute. reflexivity.
  - apply (proj1 (proj2 (proj2
              (pairing_within_both_inputs mismatchWorld "e1" twoSlideDeck noOptions
                 initialState [] [exampleClip "s2"; exampleClip "s3"] initialState
                 [exampleImage "s1"; exampleImage "s2"; exampleImage "s3"])))).
    vm_compute. apply list_elem_of_here.
  - epose proof (proj2 (proj2 (proj2 (proj2
              (pairing_within_both_inputs (exampleWorld 5 speechAlwaysAudio) "e1"
                 twoSlideDeck noOptions (stateWithExport "e1" "p1" "video") _ _ _ _)))))
      as H.
    specialize (H eq_refl).
    specialize (H ltac:(vm_compute; reflexivity)).
    specialize (H ltac:(vm_compute; reflexivity)).
    specialize (H ltac:(cbn; lia)).
    specialize (H ltac:(cbn; lia)).
    specialize (H ltac:(vm_compute; lia)).
    cbv zeta in H. rewrite H. vm_compute. reflexivity.
Defined.

(** C4 as stated, refuted: with three images and the narrations of the
    second and third slide only, the smaller list has two elements and the
    pairing keeps one input. *)
Lemma pairing_shorter_than_min :
  length (pairSlideVideoInputs
            [exampleImage "s1"; exampleImage "s2"; exampleImage "s3"]
            [exampleClip "s2"; exampleClip "s3"]) = 1%nat
  /\ Nat.min (length [exampleImage "s1"; exampleImage "s2"; exampleImage "s3"])
       (length [exampleClip "s2"; exampleClip "s3"]) = 2%nat
  /\ length (pairSlideVideoInputs
              [exampleImage "s1"; exampleImage "s2"; exampleImage "s3"]
              [exampleClip "s2"; exampleClip "s3"])
     <> Nat.min (length [exampleImage "s1"; exampleImage "s2"; exampleImage "s3"])
          (length [exampleClip "s2"; exampleClip "s3"]).
Proof.
  split; [vm_compute; reflexivity|].
  split; [vm_compute; reflexivity|].
  vm_compute. discriminate.
Qed.

(** ** What every step of a job keeps *)

Section Preservation.

Variable w : World.
Variable P : State -> Prop.

Hypothesis P_clock : forall s, P s -> P (set_clock S s).
Hypothesis P_speechRequests : forall f s, P s -> P (set_speechRequests f s).
Hypothesis P_jobProgress : forall f s, P s -> P (set_jobProgress f s).
Hypothesis P_progressWrites : forall f s, P s -> P (set_progressWrites f s).
Hypothesis P_presets : forall f s, P s -> P (set_presets f s).
Hypothesis P_exports : forall id row s, P s -> P (set_exports <[id := row]> s).


Lemma preserves_now : preserves P (now w).
Proof. intros s Hs. cbn. now apply P_clock. Qed.

Hint Resolve preserves_now : core.

Lemma preserves_updateExportProgress id progress phase message error :
  preserves P (updateExportProgress w id progress phase message error).
Proof. unfold updateExportProgress. preserve; auto. Qed.

Lemma preserves_updateExportStatus id isReady fileUrl errorMessage :
  preserves P (updateExportStatus w id isReady fileUrl errorMessage).
Proof. unfold updateExportStatus. preserve; auto. Qed.

Lemma preserves_updateExportFilePath id filePath fileSize :
  preserves P (updateExportFilePath w id filePath fileSize).
Proof. unfold updateExportFilePath. preserve; auto. Qed.

Hint Resolve preserves_updateExportProgress preserves_updateExportStatus
  preserves_updateExportFilePath : core.

Lemma preserves_generateAudioWithRetry fuel text voice model format fileName attempt :
  preserves P (generateAudioWithRetry w fuel text voice model format fileName attempt).
Proof.
  revert attempt. induction fuel as [|fuel IH]; intros attempt;
    cbn [generateAudioWithRetry]; preserve; auto.
Qed.

Lemma preserves_getAudioDuration audioPath : preserves P (getAudioDuration w audioPath).
Proof. unfold getAudioDuration. preserve. Qed.

Hint Resolve preserves_generateAudioWithRetry preserves_getAudioDuration : core.

Lemma preserves_generateSlideNarration slideId text voice model format :
  preserves P (generateSlideNarration w slideId text voice model format).
Proof. unfold generateSlideNarration. preserve; auto. Qed.

Hint Resolve preserves_generateSlideNarration : core.

Lemma preserves_narrationLoop slides voice model format results errors :
  preserves P (narrationLoop w slides voice model format results errors).
Proof.
  revert results errors. induction slides as [|slide rest IH]; intros results errors;
    cbn [narrationLoop]; [preserve|].
  apply preserves_bind; [|intros acc; apply IH].
  unfold narrateSlide. preserve; auto.
Qed.

Lemma preserves_generatePresentationNarration slides voice model format :
  preserves P (generatePresentationNarration w slides voice model format).
Proof.
  unfold generatePresentationNarration. destruct slides; [preserve|].
  apply preserves_bind; [apply preserves_narrationLoop|intros acc; preserve].
Qed.

Lemma preserves_updateJobProgress storage jobId progress status :
  preserves P (updateJobProgress w storage jobId progress status).
Proof. unfold updateJobProgress. preserve; auto. Qed.

Hint Resolve preserves_generatePresentationNarration preserves_updateJobProgress : core.

Lemma preserves_retryLoop {A : Type} (operation : nat -> M A) maxRetries attempt remaining :
  (forall a, preserves P (operation a)) ->
  preserves P (retryLoop operation maxRetries attempt remaining).
Proof.
  intros Hop. revert attempt. induction remaining as [|remaining IH]; intros attempt;
    cbn [retryLoop]; preserve; auto.
Qed.

Lemma preserves_createSlideVideo imagePath audioPath outputPath qs callback :
  (forall p phase, match callback with
                   | Some cb => preserves P (cb p phase)
                   | None => True
                   end) ->
  preserves P (createSlideVideo w imagePath audioPath outputPath qs callback).
Proof.
  intros Hcb. unfold createSlideVideo, createVideoWithImageAndAudio, retryOperation.
  preserve; auto.
  apply preserves_retryLoop. intros attempt. preserve.
Qed.

Lemma preserves_runConcat run outputPath callback :
  (forall p, match callback with
             | Some cb => preserves P (cb p)
             | None => True
             end) ->
  preserves P (runConcat run outputPath callback).
Proof.
  intros Hcb. unfold runConcat. preserve.
Qed.

Lemma preserves_assemblePresentationVideo storage slides outputPath qs ts jobId :
  preserves P (assemblePresentationVideo w storage slides outputPath qs ts jobId).
Proof.
  unfold assemblePresentationVideo. destruct slides as [|slide rest]; [preserve|].
  set (slides := slide :: rest). generalize (length slides) as n. intros n.
  apply preserves_try_catch; [|intros e; preserve; auto].
  apply preserves_bind; [auto|intros _].
  apply preserves_bind.
  { generalize 0%nat as i, (@nil string) as vids, 0%float as total.
    induction slides as [|sl slides' IH]; intros i vids total; cbn [slideLoop];
      [preserve|].
    apply preserves_bind; [auto|intros _].
    apply preserves_bind; [auto|intros t].
    apply preserves_bind; [|intros r; apply IH].
    apply preserves_createSlideVideo. intros p phase. auto. }
  intros acc. apply preserves_bind; [auto|intros _].
  apply preserves_bind.
  { destruct acc.1 as [|v [|v' vs]].
    - unfold concatenateVideosWithTransitions, concatenateVideosSimple.
      preserve; auto; apply preserves_runConcat; intros p; auto.
    - unfold reencodeVideo. preserve.
    - unfold concatenateVideosWithTransitions, concatenateVideosSimple.
      preserve; auto; apply preserves_runConcat; intros p; auto. }
  intros final. preserve; auto.
Qed.

Hint Resolve preserves_assemblePresentationVideo : core.

Lemma preserves_processVideoExport exportId presentation options :
  preserves P (processVideoExport w exportId presentation options).
Proof. unfold processVideoExport. preserve; auto. Qed.

Hint Resolve preserves_processVideoExport : core.

Lemma preserves_processExportAsync_try exportId presentation format options :
  preserves P (processExportAsync_try w exportId presentation format options).
Proof. unfold processExportAsync_try, convertExport. preserve; auto. Qed.

End Preservation.

(** ** Failed jobs *)

Section FailedJobs.

Variable w : World.

Lemma export_row_stays exportId presentation format options s :
  is_Some (exports s !! exportId) ->
  is_Some (exports (processExportAsync_try w exportId presentation format options s).2
           !! exportId).
Proof.
  apply (preserves_processExportAsync_try w
           (fun s => is_Some (exports s !! exportId))); try (intros; assumption).
  intros id row s0 Hs0. cbn. apply lookup_insert_is_Some.
  destruct (decide (id = exportId)); [now left|now right].
Qed.

Lemma processExportAsync_catch_row exportId e s row :
  exports s !! exportId = Some row ->
  exists row',
    exports (processExportAsync_catch w exportId e s).2 !! exportId = Some row'
    /\ ExportRow.progress row' = 0%Z
    /\ ExportRow.phase row' = Some "error"
    /\ ExportRow.error row' = Some ("Error: " +:+ Js.message e)
    /\ ExportRow.isReady row' = false.
Proof.
  intros Hrow.
  unfold processExportAsync_catch, updateExportProgress, updateExportStatus.
  unfold mbind, M_bind, gets, now, modify. cbn. rewrite Hrow. cbn.
  rewrite lookup_insert_eq. cbn. rewrite lookup_insert_eq.
  eexists. split; [reflexivity|]. cbn. auto.
Qed.

(** C2, as the code has it: when the [try] block of an export job throws,
    the row of the job ends with phase ["error"], with the message of the
    exception in its [error] field, not ready, and with its progress set
    to 0. *)
Theorem failed_job_marked_error_progress_zero
    exportId presentation format options s e s1 :
  is_Some (exports s !! exportId) ->
  processExportAsync_try w exportId presentation format options s = (Throw e, s1) ->
  exists row,
    exports (processExportAsync w exportId presentation format options s).2 !! exportId
    = Some row
    /\ ExportRow.progress row = 0%Z
    /\ ExportRow.phase row = Some "error"
    /\ ExportRow.error row = Some ("Error: " +:+ Js.message e)
    /\ ExportRow.isReady row = false.
Proof.
  intros Hrow Htry.
  pose proof (export_row_stays exportId presentation format options s Hrow) as Hs1.
  rewrite Htry in Hs1. cbn in Hs1. destruct Hs1 as [row1 Hrow1].
  unfold processExportAsync, try_catch. rewrite Htry.
  now apply (processExportAsync_catch_row exportId e s1 row1).
Qed.

(** The [catch] block of [assemblePresentationVideo] does the same to the
    progress tracker: a failed assembly ends with a write of 0 and status
    ["error"]. *)
Lemma failed_assembly_writes_zero storage slides outputPath qs ts jobId s e s' :
  assemblePresentationVideo w storage slides outputPath qs ts jobId s = (Throw e, s') ->
  slides <> [] ->
  jobProgress s' !! jobId = Some (VideoProgress.mk 0 "error")
  /\ exists earlier,
       progressWrites s' = earlier ++ [ProgressWrite.mk jobId 0 "error"].
Proof.
  intros H Hne. unfold assemblePresentationVideo in H.
  destruct slides as [|slide rest]; [contradiction|].
  unfold try_catch in H.
  match type of H with
  | context [match ?body s with _ => _ end] => destruct (body s) as [[r|e0] s0]
  end; [discriminate|].
  unfold mbind, M_bind in H. rewrite updateJobProgress_run in H.
  unfold throw in H. injection H as _ <-.
  unfold updateJobProgress, mbind, M_bind, modify. cbn.
  assert (Hkeep : forall st,
    jobProgress (updateExportProgress w jobId 0 (Some "assembly") (Some "error") None st).2
    = jobProgress st
    /\ progressWrites
         (updateExportProgress w jobId 0 (Some "assembly") (Some "error") None st).2
       = progressWrites st).
  { intros st. unfold updateExportProgress, mbind, M_bind, gets, now, modify. cbn.
    destruct (exports st !! jobId); cbn; auto. }
  destruct storage; cbn.
  - destruct (Hkeep (set_progressWrites
                       (fun l => l ++ [ProgressWrite.mk jobId 0 "error"])
                       (set_jobProgress <[jobId := VideoProgress.mk 0 "error"]> s0)))
      as [-> ->].
    cbn. rewrite lookup_insert_eq. eauto.
  - rewrite lookup_insert_eq. eauto.
Qed.

End FailedJobs.

Lemma failed_job_marked_error_progress_zero_witness :
  exists row,
    exports (processExportAsync (exampleWorld 5 speechAlwaysDown) "e1" twoSlideDeck
               "video" (Some noOptions) (stateWithExport "e1" "p1" "video")).2 !! "e1"
    = Some row
    /\ ExportRow.progress row = 0%Z
    /\ ExportRow.phase row = Some "error"
    /\ ExportRow.error row
       = Some ("Error: " +:+
               "Failed to generate any narration. Errors: Narration generation failed: TTS generation failed: 503 service unavailable, Narration generation failed: TTS generation failed: 503 service unavailable")
    /\ ExportRow.isReady row = false.
Proof.
  eapply (failed_job_marked_error_progress_zero (exampleWorld 5 speechAlwaysDown) "e1"
            twoSlideDeck "video" (Some noOptions) (stateWithExport "e1" "p1" "video")
            (newError _) _).
  - eexists. vm_compute. reflexivity.
  - vm_compute. reflexivity.
Defined.

(** C2 as stated, refuted: a job whose narration fails has reached 15% when
    the exception is thrown, and its row ends at 0%, not at 15%. *)
Lemma failed_job_progress_is_reset :
  exists e s1,
    processExportAsync_try (exampleWorld 5 speechAlwaysDown) "e1" twoSlideDeck "video"
      (Some noOptions) (stateWithExport "e1" "p1" "video") = (Throw e, s1)
    /\ ExportRow.progress <$> exports s1 !! "e1" = Some 15%Z
    /\ ExportRow.progress <$>
         exports (processExportAsync (exampleWorld 5 speechAlwaysDown) "e1" twoSlideDeck
                    "video" (Some noOptions) (stateWithExport "e1" "p1" "video")).2
         !! "e1" = Some 0%Z.
Proof.
  eexists _, _. split; [vm_compute; reflexivity|].
  split; vm_compute; reflexivity.
Qed.

(** ** Progress written by the assembly *)

Section Progress.

Lemma slideBaseProgress_div i n :
  (0 < n)%nat -> slideBaseProgress i n = (30 * Z.of_nat i / Z.of_nat n)%Z.
Proof.
  intros Hn. unfold slideBaseProgress. rewrite Zdiv_Qdiv. apply Qfloor_comp.
  rewrite inject_Z_mult. field.
  intros H. unfold Qeq in H. cbn in H. lia.
Qed.

Lemma slideBaseProgress_mono i j n :
  (0 < n)%nat -> (i <= j)%nat -> (slideBaseProgress i n <= slideBaseProgress j n)%Z.
Proof.
  intros Hn Hij. rewrite !slideBaseProgress_div by assumption.
  apply Z.div_le_mono; lia.
Qed.

Lemma slideBaseProgress_nonneg i n : (0 < n)%nat -> (0 <= slideBaseProgress i n)%Z.
Proof.
  intros Hn. rewrite slideBaseProgress_div by assumption. apply Z.div_pos; lia.
Qed.

Lemma slideBaseProgress_le_30 i n :
  (0 < n)%nat -> (i <= n)%nat -> (slideBaseProgress i n <= 30)%Z.
Proof.
  intros Hn Hi. rewrite slideBaseProgress_div by assumption.
  apply Z.div_le_upper_bound; nia.
Qed.

Lemma ascending_bounds lo l hi : ascending lo l hi -> (lo <= hi)%Z.
Proof.
  revert lo. induction l as [|x l IH]; intros lo; cbn; [easy|].
  intros [H1 H2]. specialize (IH _ H2). lia.
Qed.

Lemma ascending_app lo l1 mid l2 hi :
  ascending lo l1 mid -> ascending mid l2 hi -> ascending lo (l1 ++ l2) hi.
Proof.
  revert lo. induction l1 as [|x l1 IH]; intros lo; cbn.
  - intros H1 H2. destruct l2 as [|y l2]; cbn in *; [lia|].
    destruct H2. split; [lia|assumption].
  - intros [H1 H2] H3. split; [assumption|now apply IH].
Qed.

Lemma ascending_weaken lo l hi hi' :
  ascending lo l hi -> (hi <= hi')%Z -> ascending lo l hi'.
Proof.
  intros H Hle. rewrite <- (app_nil_r l). eapply ascending_app; [exact H|exact Hle].
Qed.

Lemma ascending_sorted lo l hi :
  ascending lo l hi -> Sorted Z.le l /\ Forall (fun x => (lo <= x <= hi)%Z) l.
Proof.
  revert lo. induction l as [|x l IH]; intros lo; cbn.
  - intros _. split; constructor.
  - intros [H1 H2]. destruct (IH _ H2) as [Hs Hf].
    pose proof (ascending_bounds _ _ _ H2) as Hb. split.
    + constructor; [assumption|]. destruct l as [|y l]; constructor. now destruct H2.
    + constructor; [lia|]. eapply Forall_impl; [exact Hf|]. cbn. intros; lia.
Qed.

Lemma ascending_lower lo lo' l hi :
  ascending lo l hi -> (lo' <= lo)%Z -> ascending lo' l hi.
Proof.
  destruct l as [|x l]; cbn; [lia|]. intros [H1 H2] Hle. split; [lia|assumption].
Qed.

Lemma slidePhaseWrites_ascending jobId n R : forall i,
  (0 < n)%nat -> (i + length R <= n)%nat ->
  (forall j r, R !! j = Some r ->
     ascending (slideBaseProgress (i + j) n) (map ProgressWrite.progress r)
       (slideBaseProgress (S (i + j)) n)) ->
  ascending (slideBaseProgress i n)
    (map ProgressWrite.progress (slidePhaseWrites jobId n i R))
    (slideBaseProgress (i + length R) n).
Proof.
  induction R as [|r rest IH]; intros i Hn Hlen Hwin; cbn [slidePhaseWrites length].
  - cbn. rewrite Nat.add_0_r. lia.
  - cbn [map ProgressWrite.progress]. split; [lia|]. rewrite map_app.
    eapply ascending_app.
    + specialize (Hwin 0%nat r eq_refl). rewrite Nat.add_0_r in Hwin. exact Hwin.
    + replace (i + S (length rest))%nat with (S i + length rest)%nat by lia.
      apply IH; [assumption|cbn in Hlen; lia|].
      intros j r' Hj. specialize (Hwin (S j) r' Hj).
      replace (i + S j)%nat with (S i + j)%nat in Hwin by lia. exact Hwin.
Qed.

Lemma assemblyWrites_ascending jobId n R ending :
  (0 < n)%nat -> (length R <= n)%nat -> reportsAscend n R ending ->
  ascending 0 (map ProgressWrite.progress (assemblyWrites jobId n R ending)) 100.
Proof.
  intros Hn Hlen [Hslides Hconcat].
  pose proof (slidePhaseWrites_ascending jobId n R 0 Hn Hlen Hslides) as Hphase.
  cbn [Nat.add] in Hphase.
  pose proof (slideBaseProgress_nonneg 0 n Hn) as H0.
  pose proof (slideBaseProgress_le_30 (length R) n Hn Hlen) as H30.
  unfold assemblyWrites. cbn [map ProgressWrite.progress]. split; [lia|].
  rewrite map_app. eapply ascending_app.
  - eapply ascending_lower; [exact Hphase|exact H0].
  - destruct ending as [|c|c|c];
      cbn [map ProgressWrite.progress concatReports ascending] in *.
    + lia.
    + split; [exact H30|]. eapply ascending_weaken; [exact Hconcat|lia].
    + split; [exact H30|]. rewrite map_app. eapply ascending_app; [exact Hconcat|].
      cbn. lia.
    + split; [exact H30|]. rewrite map_app. eapply ascending_app; [exact Hconcat|].
      cbn. lia.
Qed.

Variable w : World.

Lemma updateExportProgress_writes id progress phase message error s :
  progressWrites (updateExportProgress w id progress phase message error s).2
  = progressWrites s.
Proof.
  unfold updateExportProgress, mbind, M_bind, gets, now, modify. cbn.
  destruct (exports s !! id); reflexivity.
Qed.

Lemma updateJobProgress_writes storage jobId progress status s :
  progressWrites (updateJobProgress w storage jobId progress status s).2
  = progressWrites s ++ [ProgressWrite.mk jobId progress status].
Proof.
  unfold updateJobProgress, mbind, M_bind, modify. cbn.
  destruct storage; [|reflexivity]. now rewrite updateExportProgress_writes.
Qed.

Lemma appended_start P s : appended P (progressWrites s) s.
Proof. exists []. now rewrite app_nil_r. Qed.

Lemma appended_silent {A : Type} P l0 (m : M A) :
  silent m -> preserves (appended P l0) m.
Proof.
  intros Hm s (added & Heq & Hall). exists added. split; [|exact Hall].
  now apply (Hm (l0 ++ added)).
Qed.

Lemma appended_updateJobProgress P l0 storage jobId progress status :
  P (ProgressWrite.mk jobId progress status) ->
  preserves (appended P l0) (updateJobProgress w storage jobId progress status).
Proof.
  intros HP s (added & Heq & Hall).
  exists (added ++ [ProgressWrite.mk jobId progress status]). split.
  - now rewrite updateJobProgress_writes, Heq, app_assoc.
  - apply Forall_app. split; [exact Hall|]. now constructor.
Qed.

Lemma preserves_for_each_In {A : Type} P (body : A -> M unit) (l : list A) :
  (forall x, In x l -> preserves P (body x)) -> preserves P (for_each body l).
Proof.
  induction l as [|x l IH]; intros Hb; cbn [for_each].
  - apply preserves_mret.
  - apply preserves_bind; [apply Hb; now left|intros _].
    apply IH. intros y Hy. apply Hb. now right.
Qed.

Lemma retryLoop_keeps {A : Type} P (operation : nat -> M A) maxRetries attempt remaining :
  (forall a, preserves P (operation a)) ->
  preserves P (retryLoop operation maxRetries attempt remaining).
Proof.
  intros Hop. revert attempt.
  induction remaining as [|remaining IH]; intros attempt; cbn [retryLoop].
  - apply preserves_throw.
  - apply preserves_try_catch; [apply Hop|]. intros e.
    destruct (negb (isRetryableError e) || (attempt =? maxRetries)%nat);
      [apply preserves_throw|apply IH].
Qed.

Lemma silent_now : silent (now w).
Proof. intros l s Hs. exact Hs. Qed.

Lemma silent_reencodeVideo inputPath outputPath qs :
  silent (reencodeVideo w inputPath outputPath qs).
Proof. intros l. unfold reencodeVideo. preserve. Qed.

(** All that [createSlideVideo] writes for slide [i] are reports of the
    encoder. *)
Lemma reports_createSlideVideo storage jobId n i imagePath audioPath outputPath qs l0 :
  preserves (appended (slideReport w jobId i) l0)
    (createSlideVideo w imagePath audioPath outputPath qs
       (Some (fun slideProgress phase =>
                updateJobProgress w storage jobId
                  (slideOverallProgress i n slideProgress)
                  ("creating-slide-" +:+ pretty (i + 1)%nat +:+ "-" +:+ phase)))).
Proof.
  unfold createSlideVideo.
  destruct (fs_stat w imagePath); [|apply preserves_throw].
  destruct (fs_stat w audioPath); [|apply preserves_throw].
  apply preserves_try_catch; [|intros e; apply preserves_throw].
  apply preserves_bind; [unfold getAudioDuration; preserve|intros d].
  apply preserves_bind; [|intros v; preserve].
  unfold createVideoWithImageAndAudio, retryOperation.
  apply preserves_bind; [preserve|intros vs].
  apply retryLoop_keeps. intros a.
  apply preserves_bind; [|intros _; preserve].
  apply preserves_for_each_In. intros p Hp.
  apply appended_updateJobProgress.
  split; [reflexivity|]. split; [reflexivity|].
  exists imagePath, audioPath, outputPath, vs, a. intros Hnil. now rewrite Hnil in Hp.
Qed.

(** All that the concatenation writes are reports of its command. *)
Lemma reports_concatenate storage jobId videoPaths outputPath ts qs l0 :
  preserves (appended (concatReport w jobId) l0)
    (concatenateVideosWithTransitions w videoPaths outputPath ts qs
       (Some (fun progress =>
                updateJobProgress w storage jobId (concatProgress progress)
                  "concatenating-videos"))).
Proof.
  assert (Hrun : forall vs,
    preserves (appended (concatReport w jobId) l0)
      (runConcat (ffmpeg_concat w videoPaths outputPath ts vs) outputPath
         (Some (fun progress =>
                  updateJobProgress w storage jobId (concatProgress progress)
                    "concatenating-videos")))).
  { intros vs. unfold runConcat.
    apply preserves_bind; [|intros _; preserve].
    apply preserves_for_each_In. intros p Hp.
    apply appended_updateJobProgress.
    split; [reflexivity|]. split; [reflexivity|].
    exists videoPaths, outputPath, ts, vs. intros Hnil. now rewrite Hnil in Hp. }
  unfold concatenateVideosWithTransitions, concatenateVideosSimple.
  destruct (String.eqb _ "none").
  - apply preserves_bind; [apply appended_silent, silent_now|intros _].
    apply preserves_bind; [preserve|intros vs]. apply Hrun.
  - apply preserves_bind; [preserve|intros vs]. apply Hrun.
Qed.

Lemma appended_run {A : Type} P (m : M A) s :
  (forall l0, preserves (appended P l0) m) ->
  exists added, progressWrites (m s).2 = progressWrites s ++ added /\ Forall P added.
Proof. intros Hm. exact (Hm (progressWrites s) s (appended_start P s)). Qed.

(** The writes of the first loop, slide by slide. *)
Lemma slideLoop_writes storage jobId qs n slides : forall i slideVideos totalDuration s,
  exists R,
    progressWrites (slideLoop w storage jobId qs n slides i slideVideos totalDuration s).2
    = progressWrites s ++ slidePhaseWrites jobId n i R
    /\ (forall j r, R !! j = Some r -> Forall (slideReport w jobId (i + j)) r)
    /\ match (slideLoop w storage jobId qs n slides i slideVideos totalDuration s).1 with
       | Ok _ => length R = length slides
       | Throw _ => (1 <= length R <= length slides)%nat
       end.
Proof.
  induction slides as [|slide rest IH]; intros i slideVideos totalDuration s.
  - exists []. cbn. rewrite app_nil_r. repeat split. intros j r Hj. discriminate.
  - cbn [slideLoop].
    rewrite (bind_ok _ _ s tt _ (updateJobProgress_run w storage jobId _ _ s)).
    set (s1 := (updateJobProgress w storage jobId (slideBaseProgress i n)
                  "creating-slide-videos" s).2).
    rewrite (bind_ok (now w) _ s1 _ _ eq_refl).
    set (s2 := set_clock S s1).
    match goal with
    | |- context [createSlideVideo w ?a ?b ?c ?d ?e] =>
        destruct (appended_run (slideReport w jobId i)
                    (createSlideVideo w a b c d e) s2
                    (reports_createSlideVideo storage jobId n i a b c d))
          as (r & Hr & Hall);
        destruct (createSlideVideo w a b c d e s2) as [[result|e0] s3] eqn:Hcreate
    end; cbn [snd] in Hr.
    + rewrite (bind_ok _ _ s2 _ _ Hcreate).
      destruct (IH (S i) (slideVideos ++ [VideoAssemblyResult.videoPath result])
                  (totalDuration + VideoAssemblyResult.duration result)%float s3)
        as (R & HR & HallR & Hlen).
      exists (r :: R). split; [|split].
      * rewrite HR, Hr. subst s2 s1. cbn [progressWrites set_clock].
        rewrite updateJobProgress_writes. cbn [slidePhaseWrites].
        rewrite <- !app_assoc. reflexivity.
      * intros [|j] r' Hj.
        -- injection Hj as <-. now rewrite Nat.add_0_r.
        -- replace (i + S j)%nat with (S i + j)%nat by lia. now apply HallR.
      * destruct (slideLoop w storage jobId qs n rest (S i) _ _ s3).1; cbn [length]; lia.
    + rewrite (bind_throw _ _ s2 _ _ Hcreate). cbn [fst snd].
      exists [r]. split; [|split].
      * rewrite Hr. subst s2 s1. cbn [progressWrites set_clock].
        rewrite updateJobProgress_writes. cbn [slidePhaseWrites].
        rewrite app_nil_r, <- !app_assoc. reflexivity.
      * intros [|j] r' Hj; [|discriminate].
        injection Hj as <-. now rewrite Nat.add_0_r.
      * cbn [length]. lia.
Qed.

Ltac list_norm :=
  repeat first [rewrite <- app_assoc | progress cbn [app]].

Lemma Forall_impossible {A : Type} (P : A -> Prop) (l : list A) :
  (forall x, ~ P x) -> Forall P l -> l = [].
Proof. intros HP Hall. destruct Hall as [|x l Hx _]; [reflexivity|destruct (HP x Hx)]. Qed.

(** C3, as the code has it.  A run on an empty list fails before it writes
    anything.  On a non-empty list the tracker receives the checkpoints 0,
    [floor(30*i/n)] before slide [i], 30, 95 and 100, as far as the run
    gets, and between them only what answers a progress event of ffmpeg;
    a run that fails writes 0 with status ["error"] after them.  Before
    that last write the percentages never decrease and lie between 0 and
    100 whenever the reports of each phase ascend within the window of the
    phase, and so in every run without a report, which writes the
    checkpoints alone. *)
Theorem checkpoint_progress_never_decreases storage slides outputPath qs ts jobId s :
  let run := assemblePresentationVideo w storage slides outputPath qs ts jobId s in
  let n := length slides in
  match slides with
  | [] => run = (Throw (newError "No slides provided for video assembly"), s)
  | _ :: _ =>
      exists R ending,
        progressWrites run.2
        = progressWrites s ++ assemblyWrites jobId n R ending ++ failureWrites jobId ending
        /\ completed ending = (if run.1 is Ok _ then true else false)
        /\ (1 <= length R <= n)%nat
        /\ (ending <> FailedInSlides -> length R = n)
        /\ (forall i r, R !! i = Some r -> Forall (slideReport w jobId i) r)
        /\ Forall (concatReport w jobId) (concatReports ending)
        /\ (reportsAscend n R ending ->
            Sorted Z.le (map ProgressWrite.progress (assemblyWrites jobId n R ending))
            /\ Forall (fun p => (0 <= p <= 100)%Z)
                 (map ProgressWrite.progress (assemblyWrites jobId n R ending)))
        /\ (quietWorld w ->
            Forall (fun r => r = []) R /\ concatReports ending = []
            /\ reportsAscend n R ending)
  end.
Proof.
  intros run n. destruct slides as [|slide rest]; [reflexivity|].
  subst run. unfold assemblePresentationVideo.
  set (slides := slide :: rest) in *.
  assert (Hn : (0 < n)%nat) by (subst n slides; cbn; lia).
  (* what holds of every outcome, once the shape is known *)
  assert (Hwrap : forall R ending,
    (1 <= length R <= n)%nat ->
    (forall i r, R !! i = Some r -> Forall (slideReport w jobId i) r) ->
    Forall (concatReport w jobId) (concatReports ending) ->
    (reportsAscend n R ending ->
       Sorted Z.le (map ProgressWrite.progress (assemblyWrites jobId n R ending))
       /\ Forall (fun p => (0 <= p <= 100)%Z)
            (map ProgressWrite.progress (assemblyWrites jobId n R ending)))
    /\ (quietWorld w ->
        Forall (fun r => r = []) R /\ concatReports ending = []
        /\ reportsAscend n R ending)).
  { intros R ending HlenR HR HC. split.
    - intros Hasc. apply ascending_sorted.
      apply assemblyWrites_ascending; [exact Hn|lia|exact Hasc].
    - intros [Hqs Hqc].
      assert (HRnil : Forall (fun r => r = []) R).
      { apply Forall_lookup. intros i r Hi.
        refine (Forall_impossible _ _ _ (HR i r Hi)).
        intros x (_ & _ & a & b & c & d & e & Hne). now apply Hne. }
      assert (HCnil : concatReports ending = []).
      { refine (Forall_impossible _ _ _ HC).
        intros x (_ & _ & a & b & c & d & Hne). now apply Hne. }
      split; [exact HRnil|]. split; [exact HCnil|]. split.
      + intros i r Hi. rewrite (proj1 (Forall_lookup _ _) HRnil i r Hi).
        cbn [map ascending]. apply slideBaseProgress_mono; [exact Hn|lia].
      + rewrite HCnil. cbn [map ascending]. lia. }
  change (length slides) with n. unfold try_catch.
  rewrite (bind_ok _ _ s tt _ (updateJobProgress_run w storage jobId 0 "processing" s)).
  set (s1 := (updateJobProgress w storage jobId 0 "processing" s).2).
  assert (Hs1 : progressWrites s1
                = progressWrites s ++ [ProgressWrite.mk jobId 0 "processing"])
    by apply updateJobProgress_writes.
  destruct (slideLoop_writes storage jobId qs n slides 0 [] 0%float s1)
    as (R & HwR & HR & HlenR).
  assert (Hnlen : length slides = n) by reflexivity.
  destruct (slideLoop w storage jobId qs n slides 0 [] 0%float s1)
    as [[acc|e] s2] eqn:Hloop; cbn [fst snd] in HwR, HlenR.
  2:{ (* a slide video fails *)
      rewrite (bind_throw _ _ s1 _ _ Hloop).
      rewrite (bind_ok _ _ s2 tt _ (updateJobProgress_run w storage jobId 0 "error" s2)).
      unfold throw. cbn [fst snd].
      exists R, FailedInSlides.
      destruct (Hwrap R FailedInSlides ltac:(lia) HR ltac:(constructor)) as [Hasc Hq].
      split; [|split; [reflexivity|split; [lia|split; [congruence|
              split; [exact HR|split; [constructor|split; [exact Hasc|exact Hq]]]]]]].
      rewrite updateJobProgress_writes, HwR, Hs1.
      unfold assemblyWrites, failureWrites. cbn [completed].
      rewrite app_nil_r. list_norm. reflexivity. }
  rewrite (bind_ok _ _ s1 _ _ Hloop).
  rewrite (bind_ok _ _ s2 tt _
             (updateJobProgress_run w storage jobId 30 "concatenating-videos" s2)).
  set (s3 := (updateJobProgress w storage jobId 30 "concatenating-videos" s2).2).
  assert (Hs3 : progressWrites s3
                = progressWrites s
                  ++ ProgressWrite.mk jobId 0 "processing"
                  :: slidePhaseWrites jobId n 0 R
                  ++ [ProgressWrite.mk jobId 30 "concatenating-videos"]).
  { subst s3. rewrite updateJobProgress_writes, HwR, Hs1. list_norm. reflexivity. }
  (* the concatenation *)
  match goal with
  | |- context [mbind _ (match acc.1 with
                         | [] => ?many
                         | single :: l => _
                         end)] => set (concatenate := many)
  end.
  assert (Hjoin : exists c,
    forall (m : M string),
      m = match acc.1 with
          | [single] => reencodeVideo w single outputPath qs
          | _ => concatenate
          end ->
      progressWrites (m s3).2 = progressWrites s3 ++ c
      /\ Forall (concatReport w jobId) c).
  { destruct acc.1 as [|v [|v' vs]].
    - destruct (appended_run (concatReport w jobId) concatenate s3
                  (reports_concatenate storage jobId _ _ _ _)) as (c & Hc & Hall).
      exists c. now intros m ->.
    - exists []. intros m ->. split; [|constructor].
      rewrite app_nil_r. exact (silent_reencodeVideo _ _ _ _ s3 eq_refl).
    - destruct (appended_run (concatReport w jobId) concatenate s3
                  (reports_concatenate storage jobId _ _ _ _)) as (c & Hc & Hall).
      exists c. now intros m ->. }
  destruct Hjoin as (c & Hjoin).
  match goal with
  | |- context [mbind ?k (match acc.1 with
                          | [] => concatenate
                          | single :: l => _
                          end)] =>
      set (join := match acc.1 with
                   | [single] => reencodeVideo w single outputPath qs
                   | _ => concatenate
                   end);
      change (match acc.1 with
              | [] => concatenate
              | single :: l => _
              end) with join
  end.
  destruct (Hjoin join eq_refl) as [Hwc Hc].
  destruct (join s3) as [[finalVideoPath|e] s4] eqn:Hjoined; cbn [snd] in Hwc.
  2:{ rewrite (bind_throw _ _ s3 _ _ Hjoined).
      rewrite (bind_ok _ _ s4 tt _ (updateJobProgress_run w storage jobId 0 "error" s4)).
      unfold throw. cbn [fst snd].
      exists R, (FailedInConcat c).
      destruct (Hwrap R (FailedInConcat c) ltac:(lia) HR Hc) as [Hasc Hq].
      split; [|split; [reflexivity|split; [lia|split; [intros _; lia|
              split; [exact HR|split; [exact Hc|split; [exact Hasc|exact Hq]]]]]]].
      rewrite updateJobProgress_writes, Hwc, Hs3.
      unfold assemblyWrites, failureWrites. cbn [completed].
      list_norm. reflexivity. }
  rewrite (bind_ok _ _ s3 _ _ Hjoined).
  rewrite (bind_ok _ _ s4 tt _ (updateJobProgress_run w storage jobId 95 "cleaning-up" s4)).
  set (s5 := (updateJobProgress w storage jobId 95 "cleaning-up" s4).2).
  assert (Hs5 : progressWrites s5
                = progressWrites s
                  ++ ProgressWrite.mk jobId 0 "processing"
                  :: slidePhaseWrites jobId n 0 R
                  ++ ProgressWrite.mk jobId 30 "concatenating-videos"
                  :: c ++ [ProgressWrite.mk jobId 95 "cleaning-up"]).
  { subst s5. rewrite updateJobProgress_writes, Hwc, Hs3.
    list_norm. reflexivity. }
  assert (Hfail :
    exists R0 ending,
      progressWrites (updateJobProgress w storage jobId 0 "error" s5).2
      = progressWrites s ++ assemblyWrites jobId n R0 ending ++ failureWrites jobId ending
      /\ completed ending = false
      /\ (1 <= length R0 <= n)%nat
      /\ (ending <> FailedInSlides -> length R0 = n)
      /\ (forall i r, R0 !! i = Some r -> Forall (slideReport w jobId i) r)
      /\ Forall (concatReport w jobId) (concatReports ending)
      /\ (reportsAscend n R0 ending ->
          Sorted Z.le (map ProgressWrite.progress (assemblyWrites jobId n R0 ending))
          /\ Forall (fun p => (0 <= p <= 100)%Z)
               (map ProgressWrite.progress (assemblyWrites jobId n R0 ending)))
      /\ (quietWorld w ->
          Forall (fun r => r = []) R0 /\ concatReports ending = []
          /\ reportsAscend n R0 ending)).
  { exists R, (FailedAtCheck c).
    destruct (Hwrap R (FailedAtCheck c) ltac:(lia) HR Hc) as [Hasc Hq].
    split; [|split; [reflexivity|split; [lia|split; [intros _; lia|
            split; [exact HR|split; [exact Hc|split; [exact Hasc|exact Hq]]]]]]].
    rewrite updateJobProgress_writes, Hs5.
    unfold assemblyWrites, failureWrites. cbn [completed].
    list_norm. reflexivity. }
  destruct (fs_stat w finalVideoPath) as [size|].
  2:{ unfold throw. cbv beta iota.
      rewrite (bind_ok _ _ s5 tt _ (updateJobProgress_run w storage jobId 0 "error" s5)).
      cbn [fst snd]. exact Hfail. }
  destruct (size =? 0)%Z.
  { unfold throw. cbv beta iota.
    rewrite (bind_ok _ _ s5 tt _ (updateJobProgress_run w storage jobId 0 "error" s5)).
    cbn [fst snd]. exact Hfail. }
  rewrite (bind_ok _ _ s5 tt _ (updateJobProgress_run w storage jobId 100 "completed" s5)).
  unfold mret, M_ret. cbn [fst snd].
  exists R, (Completed c).
  destruct (Hwrap R (Completed c) ltac:(lia) HR Hc) as [Hasc Hq].
  split; [|split; [reflexivity|split; [lia|split; [intros _; lia|
          split; [exact HR|split; [exact Hc|split; [exact Hasc|exact Hq]]]]]]].
  rewrite updateJobProgress_writes, Hs5.
  unfold assemblyWrites, failureWrites. cbn [completed].
  rewrite app_nil_r. list_norm. reflexivity.
Qed.

End Progress.

Lemma checkpoint_progress_never_decreases_witness :
  Sorted Z.le
    (map ProgressWrite.progress
       (progressWrites
          (assemblePresentationVideo threeSegmentsWorld false threeSegments "/out/deck.mp4"
             VIDEO_QUALITY_PRESETS_medium (TransitionSettings.mk "crossfade" 1) "job-1"
             initialState).2))
  /\ map ProgressWrite.progress
       (progressWrites
          (assemblePresentationVideo threeSegmentsWorld false threeSegments "/out/deck.mp4"
             VIDEO_QUALITY_PRESETS_medium (TransitionSettings.mk "crossfade" 1) "job-1"
             initialState).2)
     = [0; 0; 10; 20; 30; 95; 100]%Z.
Proof.
  split; [|vm_compute; reflexivity].
  destruct (checkpoint_progress_never_decreases threeSegmentsWorld false threeSegments
              "/out/deck.mp4" VIDEO_QUALITY_PRESETS_medium
              (TransitionSettings.mk "crossfade" 1) "job-1" initialState)
    as (R & ending & Hshape & Hdone & _ & _ & _ & _ & Hasc & Hquiet).
  assert (Hok : completed ending = true) by (rewrite Hdone; vm_compute; reflexivity).
  rewrite Hshape. unfold failureWrites. rewrite Hok, app_nil_r.
  cbn [progressWrites initialState app].
  apply Hasc. apply Hquiet. split; intros; reflexivity.
Defined.

(** A run with reports that stay in their windows. *)
(** The two callbacks round as the code does: 92, not 93, at 90% of the
    concatenation, and 489, not 490, at 49% of the first of three slides. *)
Example reports_round_in_binary64 :
  concatProgress 90 = 92%Z /\ slideOverallProgress 0 3 49 = 489%Z.
Proof. split; vm_compute; reflexivity. Qed.

(** At the checkpoints the binary64 computation gives the floor of the
    exact value, for every position in every list of up to 200 slides. *)
Example slideBaseProgress_binary64 :
  forallb
    (fun n =>
       forallb
         (fun i =>
            (slideBaseProgress i n
             =? Math_floor ((number_of_nat i / number_of_nat n) * 30)%float)%Z)
         (seq 0 n))
    (seq 1 200)
  = true.
Proof. vm_compute. reflexivity. Qed.

Example harmless_reports_stay_in_order :
  map ProgressWrite.progress
    (progressWrites
       (assemblePresentationVideo harmlessWorld false threeSegments "/out/deck.mp4"
          VIDEO_QUALITY_PRESETS_medium (TransitionSettings.mk "crossfade" 1) "job-1"
          initialState).2)
  = [0; 0; 0; 0; 10; 10; 10; 20; 20; 20; 30; 65; 65; 95; 100]%Z.
Proof. vm_compute. reflexivity. Qed.

(** C3 as stated, refuted: when the audio of the second of two slides
    cannot be read, the tracker receives 0, 0, 15 and then 0; after the
    initial 0 the sequence goes down from 15 to 0. *)
Lemma failed_run_progress_goes_down :
  map ProgressWrite.progress
    (progressWrites
       (assemblePresentationVideo threeSegmentsWorld false brokenSecondSegment
          "/out/deck.mp4" VIDEO_QUALITY_PRESETS_medium
          (TransitionSettings.mk "crossfade" 1) "job-1" initialState).2)
  = [0; 0; 15; 0]%Z
  /\ ~ Sorted Z.le
       (drop 1
          (map ProgressWrite.progress
             (progressWrites
                (assemblePresentationVideo threeSegmentsWorld false brokenSecondSegment
                   "/out/deck.mp4" VIDEO_QUALITY_PRESETS_medium
                   (TransitionSettings.mk "crossfade" 1) "job-1" initialState).2))).
Proof.
  assert (H : map ProgressWrite.progress
    (progressWrites
       (assemblePresentationVideo threeSegmentsWorld false brokenSecondSegment
          "/out/deck.mp4" VIDEO_QUALITY_PRESETS_medium
          (TransitionSettings.mk "crossfade" 1) "job-1" initialState).2)
  = [0; 0; 15; 0]%Z) by (vm_compute; reflexivity).
  split; [exact H|]. rewrite H. cbn [drop]. intros Hs.
  inversion Hs as [|? ? Hs' _]; subst.
  inversion Hs' as [|? ? _ Hrel]; subst.
  inversion Hrel; subst. lia.
Qed.

(** With progress reports the picture changes: the callback of the first
    loop receives a percentage and scales it like a fraction, so the reports
    of the encoder are written far above 100 and the checkpoint that follows
    is below them. *)
Example encoder_reports_overshoot :
  map ProgressWrite.progress
    (progressWrites
       (assemblePresentationVideo reportingWorld false
          [SlideVideoInput.mk "/img/1.png" "/audio/1.mp3" 8] "/out/deck.mp4"
          VIDEO_QUALITY_PRESETS_medium (TransitionSettings.mk "crossfade" 1) "job-1"
          initialState).2)
  = [0; 0; 1500; 3000; 30; 95; 100]%Z.
Proof. vm_compute. reflexivity. Qed.

(** ** The bounded recursions *)

Section Retries.

Variable w : World.

(** The depth bound of [generateAudioWithRetry] is never hit: once the fuel
    covers the attempts that are left, more fuel changes nothing. *)
Lemma generateAudioWithRetry_fuel fuel text voice model format fileName attempt s :
  (tts_maxRetries <= fuel + attempt)%nat ->
  generateAudioWithRetry w fuel text voice model format fileName attempt s
  = generateAudioWithRetry w (S fuel) text voice model format fileName attempt s.
Proof.
  revert attempt s. induction fuel as [|fuel IH]; intros attempt s Hfuel.
  - cbn [generateAudioWithRetry]. unfold try_catch.
    match goal with |- context [match ?m s with _ => _ end] => destruct (m s) as [[a|e] s1] end;
      [reflexivity|].
    destruct (Nat.ltb_spec attempt tts_maxRetries); [cbn in *; lia|].
    now rewrite andb_false_r.
  - cbn [generateAudioWithRetry]. unfold try_catch.
    match goal with |- context [match ?m s with _ => _ end] => destruct (m s) as [[a|e] s1] end;
      [reflexivity|].
    destruct (isRateLimitError e && (attempt <? tts_maxRetries)%nat); [|reflexivity].
    apply IH. lia.
Qed.

(** The outcome of [retryOperation] is the outcome of one of its attempts:
    the [throw] after the loop is not reached. *)
Lemma retryLoop_some_attempt {A : Type} (operation : nat -> M A) maxRetries
    attempt remaining s :
  (attempt + remaining = maxRetries)%nat ->
  exists k sk,
    (attempt <= k <= maxRetries)%nat
    /\ retryLoop operation maxRetries attempt (S remaining) s = operation k sk.
Proof.
  revert attempt s. induction remaining as [|remaining IH]; intros attempt s Hsum.
  - exists attempt, s. split; [lia|]. cbn [retryLoop]. unfold try_catch.
    destruct (operation attempt s) as [[a|e] s1]; [reflexivity|].
    replace (attempt =? maxRetries)%nat with true by (symmetry; apply Nat.eqb_eq; lia).
    now rewrite orb_true_r.
  - cbn [retryLoop]. unfold try_catch.
    destruct (operation attempt s) as [[a|e] s1] eqn:Hop.
    + exists attempt, s. split; [lia|]. now rewrite Hop.
    + destruct (negb (isRetryableError e) || (attempt =? maxRetries)%nat).
      * exists attempt, s. split; [lia|]. now rewrite Hop.
      * destruct (IH (S attempt) s1) as (k & sk & Hk & Heq); [lia|].
        exists k, sk. split; [lia|]. exact Heq.
Qed.

End Retries.

(** * Further properties *)

(** ** The validators, once more *)

Section ValidatorResults.

Lemma apply_fallback_compatible p fmt :
  array_includes ObjectPrototypeKeys fmt = false ->
  compatibleProfile (apply_fallback p fmt).
Proof.
  intros Hk. rewrite (apply_fallback_spec _ _ Hk).
  unfold fallbackFor, SAFE_CODEC_FALLBACKS; cbn [own_property].
  destruct (String.eqb "avi" fmt); [|destruct (String.eqb "default" fmt)];
    eexists; split; reflexivity.
Qed.

(** X1: whatever the validator returns is a profile whose codec is in the
    list of its container, and the validator returns it unchanged when it
    is passed in again. *)
Theorem validator_result_compatible_and_fixed p p' :
  validateCodecContainerCompatibility p = Ok p' ->
  compatibleProfile p' /\ validateCodecContainerCompatibility p' = Ok p'.
Proof.
  intros H. split; [|now apply (validate_idempotent p)].
  unfold validateCodecContainerCompatibility in H.
  fold (requestedFormat p) in H. fold (requestedCodec p) in H.
  unfold Js.get in H.
  destruct (own_property CODEC_CONTAINER_COMPATIBILITY (requestedFormat p))
    as [l|] eqn:Hown.
  - destruct (array_includes l (requestedCodec p)) eqn:Hinc; injection H as <-.
    + exists l. split; assumption.
    + apply apply_fallback_compatible.
      eapply compatibility_keys_not_inherited; eassumption.
  - destruct (array_includes ObjectPrototypeKeys (requestedFormat p)) eqn:Hk;
      [discriminate|]. injection H as <-. now apply apply_fallback_compatible.
Qed.

Lemma validator_result_compatible_and_fixed_witness :
  compatibleProfile
    (VideoQualitySettings.mk (Some "libx264") (Some "aac") None None (Some 23%Q) None
       (Some "mp4") None)
  /\ validateCodecContainerCompatibility
       (VideoQualitySettings.mk (Some "libx264") (Some "aac") None None (Some 23%Q) None
          (Some "mp4") None)
     = Ok (VideoQualitySettings.mk (Some "libx264") (Some "aac") None None (Some 23%Q)
             None (Some "mp4") None).
Proof.
  apply (validator_result_compatible_and_fixed
           (VideoQualitySettings.mk (Some "prores") (Some "aac") None None (Some 23%Q)
              None (Some "mkv") None)).
  reflexivity.
Defined.

(** X2: the transition validator always answers with one of the types that
    [getAvailableTransitions] lists, keeps the duration, and is
    idempotent. *)
Theorem transition_result_available ts :
  In (TransitionSettings.type (validateTransitionSettings ts)) getAvailableTransitions
  /\ TransitionSettings.duration (validateTransitionSettings ts)
     = TransitionSettings.duration ts
  /\ validateTransitionSettings (validateTransitionSettings ts)
     = validateTransitionSettings ts.
Proof.
  unfold validateTransitionSettings, supportedTransitions, getAvailableTransitions,
    array_includes.
  cbn [existsb].
  destruct (String.eqb_spec (TransitionSettings.type ts) "none") as [H|_].
  { cbn. rewrite H. cbn. auto. }
  destruct (String.eqb_spec (TransitionSettings.type ts) "crossfade") as [H|_].
  { cbn. rewrite H. cbn. auto. }
  destruct (String.eqb_spec (TransitionSettings.type ts) "fade-to-black") as [H|_].
  { cbn. rewrite H. cbn. auto 6. }
  cbn. auto.
Qed.

End ValidatorResults.

(** ** Retries *)

Section RetryOperation.

(** X3: [retryOperation] answers with the outcome of one attempt [k]: the
    attempts before it all threw a retryable error, and [k] is the last
    attempt allowed, or it returned, or it threw an error that is not
    retryable. *)
Theorem retryOperation_first_decisive_attempt {A : Type} (operation : nat -> M A)
    (retries : nat) (s : State) :
  exists k sk,
    retriedUntil operation 1 s k sk
    /\ (1 <= k <= S retries)%nat
    /\ retryOperation operation (S retries) s = operation k sk
    /\ (k = S retries
        \/ (exists a s', operation k sk = (Ok a, s'))
        \/ (exists e s', operation k sk = (Throw e, s') /\ isRetryableError e = false)).
Proof.
  unfold retryOperation.
  assert (Hgen : forall remaining attempt s0,
    (attempt + remaining = S retries)%nat ->
    exists k sk,
      retriedUntil operation attempt s0 k sk
      /\ (attempt <= k <= S retries)%nat
      /\ retryLoop operation (S retries) attempt (S remaining) s0 = operation k sk
      /\ (k = S retries
          \/ (exists a s', operation k sk = (Ok a, s'))
          \/ (exists e s', operation k sk = (Throw e, s')
                           /\ isRetryableError e = false))).
  { induction remaining as [|remaining IH]; intros attempt s0 Hsum.
    - exists attempt, s0. split; [constructor|]. split; [lia|].
      split; [|left; lia].
      cbn [retryLoop]. unfold try_catch.
      destruct (operation attempt s0) as [[a|e] s1]; [reflexivity|].
      replace (attempt =? S retries)%nat with true by (symmetry; apply Nat.eqb_eq; lia).
      now rewrite orb_true_r.
    - cbn [retryLoop]. unfold try_catch.
      destruct (operation attempt s0) as [[a|e] s1] eqn:Hop.
      + exists attempt, s0. rewrite Hop.
        split; [constructor|]. split; [lia|]. split; [reflexivity|].
        right; left. eauto.
      + destruct (isRetryableError e) eqn:Hretry; cbn [negb orb].
        * destruct (Nat.eqb_spec attempt (S retries)); [lia|].
          destruct (IH (S attempt) s1) as (k & sk & Htrace & Hk & Heq & Hlast); [lia|].
          exists k, sk. split; [econstructor; eassumption|].
          split; [lia|]. split; assumption.
        * exists attempt, s0. rewrite Hop.
          split; [constructor|]. split; [lia|]. split; [reflexivity|].
          right; right. eauto. }
  apply (Hgen retries 1%nat s). lia.
Qed.

End RetryOperation.

(** ** Slide videos and the tracker *)

Section SlideVideos.

Variable w : World.

Lemma createVideoWithImageAndAudio_path imagePath audioPath outputPath d qs cb s v s' :
  createVideoWithImageAndAudio w imagePath audioPath outputPath d qs cb s = (Ok v, s') ->
  v = outputPath.
Proof.
  unfold createVideoWithImageAndAudio. intros H.
  apply bind_ok_inv in H as (vs & s1 & _ & H).
  unfold retryOperation, video_maxRetries in H.
  match type of H with
  | retryLoop ?op _ _ _ _ = _ =>
      destruct (retryLoop_some_attempt op 3 1 2 s1 eq_refl) as (k & sk & _ & Heq)
  end.
  rewrite Heq in H. cbv beta zeta in H.
  apply bind_ok_inv in H as ([] & s2 & _ & H).
  destruct (FfmpegRun.failure _); [discriminate|]. now injection H as <- _.
Qed.

(** X4: a slide video is returned only when both input files exist, the
    output file exists and is not empty; it is the requested output path
    with the duration that ffprobe reports for the audio.  Every failure is
    one of the two missing-file errors or carries the prefix
    ["Video creation failed: "]. *)
Theorem createSlideVideo_outcome imagePath audioPath outputPath qs cb s :
  match createSlideVideo w imagePath audioPath outputPath qs cb s with
  | (Ok r, _) =>
      VideoAssemblyResult.videoPath r = outputPath
      /\ ffprobe w audioPath = ProbeDuration (VideoAssemblyResult.duration r)
      /\ is_Some (fs_stat w imagePath) /\ is_Some (fs_stat w audioPath)
      /\ exists size, fs_stat w outputPath = Some size /\ (size =? 0)%Z = false
  | (Throw e, s') =>
      (fs_stat w imagePath = None
       /\ e = newError ("Image file not found: " +:+ imagePath) /\ s' = s)
      \/ (fs_stat w audioPath = None
          /\ e = newError ("Audio file not found: " +:+ audioPath) /\ s' = s)
      \/ exists m, e = newError ("Video creation failed: " +:+ m)
  end.
Proof.
  destruct (createSlideVideo w imagePath audioPath outputPath qs cb s) as [[r|e] s']
    eqn:Hrun.
  - pose proof (createSlideVideo_duration w _ _ _ _ _ _ _ _ Hrun) as Hprobe.
    unfold createSlideVideo in Hrun.
    destruct (fs_stat w imagePath) as [isz|]; [|discriminate].
    destruct (fs_stat w audioPath) as [asz|]; [|discriminate].
    apply try_catch_ok_inv in Hrun; [|intros; unfold throw; eauto].
    apply bind_ok_inv in Hrun as (d & s1 & _ & Hrun).
    apply bind_ok_inv in Hrun as (v & s2 & Hpath & Hrun).
    apply createVideoWithImageAndAudio_path in Hpath. subst v.
    destruct (fs_stat w outputPath) as [size|]; [|discriminate].
    destruct (size =? 0)%Z eqn:Hsize; [discriminate|].
    injection Hrun as <- _. cbn. repeat split; eauto.
  - unfold createSlideVideo in Hrun.
    destruct (fs_stat w imagePath) as [isz|].
    2:{ injection Hrun as <- <-. left. auto. }
    destruct (fs_stat w audioPath) as [asz|].
    2:{ injection Hrun as <- <-. right; left. auto. }
    right; right. unfold try_catch in Hrun.
    match type of Hrun with
    | context [match ?m s with _ => _ end] => destruct (m s) as [[r|e0] s0]
    end; [discriminate|].
    injection Hrun as <- _. eauto.
Qed.

Lemma updateJobProgress_jobProgress storage jobId progress status s :
  jobProgress (updateJobProgress w storage jobId progress status s).2
  = <[jobId := VideoProgress.mk progress status]> (jobProgress s).
Proof.
  unfold updateJobProgress, mbind, M_bind, modify. cbn.
  destruct storage; [|reflexivity].
  unfold updateExportProgress, mbind, M_bind, gets, now, modify. cbn.
  destruct (exports _ !! jobId); reflexivity.
Qed.

(** X5: after [assemblePresentationVideo] the tracker answers for the job:
    100 and ["completed"] when the assembly returned, 0 and ["error"] when
    it threw on a non-empty list of slides; an empty list of slides leaves
    the tracker as it was. *)
Theorem getVideoProgress_after_assembly storage slides outputPath qs ts jobId s :
  let run := assemblePresentationVideo w storage slides outputPath qs ts jobId s in
  match run.1, slides with
  | Ok _, _ => (getVideoProgress jobId run.2).1 = Ok (VideoProgress.mk 100 "completed")
  | Throw _, _ :: _ => (getVideoProgress jobId run.2).1 = Ok (VideoProgress.mk 0 "error")
  | Throw _, [] => jobProgress run.2 = jobProgress s
  end.
Proof.
  intros run. subst run.
  destruct (assemblePresentationVideo w storage slides outputPath qs ts jobId s)
    as [[r|e] s'] eqn:Hrun; cbn [fst snd].
  - unfold assemblePresentationVideo in Hrun.
    destruct slides as [|slide rest]; [discriminate|].
    apply try_catch_ok_inv in Hrun.
    2:{ intros e s0. unfold mbind, M_bind.
        rewrite updateJobProgress_run. unfold throw. eauto. }
    apply bind_ok_inv in Hrun as ([] & s1 & _ & H).
    apply bind_ok_inv in H as (acc & s2 & _ & H).
    apply bind_ok_inv in H as ([] & s3 & _ & H).
    apply bind_ok_inv in H as (finalVideoPath & s4 & _ & H).
    apply bind_ok_inv in H as ([] & s5 & _ & H).
    destruct (fs_stat w finalVideoPath) as [size|]; [|discriminate].
    destruct (size =? 0)%Z; [discriminate|].
    apply bind_ok_inv in H as ([] & s6 & Hlast & H).
    injection H as _ <-.
    assert (Hs6 : s6 = (updateJobProgress w storage jobId 100 "completed" s5).2)
      by now rewrite Hlast.
    unfold getVideoProgress, gets. cbn. rewrite Hs6, updateJobProgress_jobProgress.
    now rewrite lookup_insert_eq.
  - destruct slides as [|slide rest].
    + unfold assemblePresentationVideo, throw in Hrun. now injection Hrun as _ <-.
    + destruct (failed_assembly_writes_zero w storage (slide :: rest) outputPath qs ts
                  jobId s e s' Hrun) as [Hjob _]; [discriminate|].
      unfold getVideoProgress, gets. cbn. now rewrite Hjob.
Qed.

End SlideVideos.

(** ** The export rows *)

Section ExportRows.

Variable w : World.

Lemma preserves_run {A : Type} (P : State -> Prop) (m : M A) s r s' :
  preserves P m -> P s -> m s = (r, s') -> P s'.
Proof. intros Hm Hs Hrun. specialize (Hm s Hs). now rewrite Hrun in Hm. Qed.

(** X6: an update for an id that has no row changes nothing: no row is
    created, the clock is not read. *)
Theorem update_without_row_changes_nothing id progress phase message error
    isReady fileUrl errorMessage filePath fileSize s :
  exports s !! id = None ->
  updateExportProgress w id progress phase message error s = (Ok tt, s)
  /\ updateExportStatus w id isReady fileUrl errorMessage s = (Ok tt, s)
  /\ updateExportFilePath w id filePath fileSize s = (Ok tt, s).
Proof.
  intros Hnone.
  unfold updateExportProgress, updateExportStatus, updateExportFilePath,
    mbind, M_bind, gets.
  rewrite Hnone. auto.
Qed.

End ExportRows.

Lemma update_without_row_changes_nothing_witness :
  updateExportProgress (exampleWorld 5 speechAlwaysAudio) "e2" 50 (Some "tts") None None
    (stateWithExport "e1" "p1" "video")
  = (Ok tt, stateWithExport "e1" "p1" "video")
  /\ updateExportStatus (exampleWorld 5 speechAlwaysAudio) "e2" true (Some "/x") None
       (stateWithExport "e1" "p1" "video")
     = (Ok tt, stateWithExport "e1" "p1" "video")
  /\ updateExportFilePath (exampleWorld 5 speechAlwaysAudio) "e2" "/x.mp4" (Some 10%Z)
       (stateWithExport "e1" "p1" "video")
     = (Ok tt, stateWithExport "e1" "p1" "video").
Proof.
  apply (update_without_row_changes_nothing (exampleWorld 5 speechAlwaysAudio) "e2").
  vm_compute. reflexivity.
Defined.

(** Invariants of the rows: what holds for a predicate that the three
    updates of the storage keep. *)

Section RowInvariants.

Variable w : World.
Variable P : State -> Prop.

Hypothesis P_clock : forall s, P s -> P (set_clock S s).
Hypothesis P_speechRequests : forall f s, P s -> P (set_speechRequests f s).
Hypothesis P_jobProgress : forall f s, P s -> P (set_jobProgress f s).
Hypothesis P_progressWrites : forall f s, P s -> P (set_progressWrites f s).
Hypothesis P_presets : forall f s, P s -> P (set_presets f s).
Hypothesis P_updateExportProgress :
  forall id progress phase message error,
    preserves P (updateExportProgress w id progress phase message error).
Hypothesis P_updateExportStatus :
  forall id isReady fileUrl errorMessage,
    preserves P (updateExportStatus w id isReady fileUrl errorMessage).
Hypothesis P_updateExportFilePath :
  forall id filePath fileSize,
    preserves P (updateExportFilePath w id filePath fileSize).

Lemma invariant_now : preserves P (now w).
Proof. intros s Hs. cbn. now apply P_clock. Qed.

Hint Resolve invariant_now : core.

Lemma invariant_generatePresentationNarration slides voice model format :
  preserves P (generatePresentationNarration w slides voice model format).
Proof. apply preserves_generatePresentationNarration; assumption. Qed.

Lemma invariant_updateJobProgress storage jobId progress status :
  preserves P (updateJobProgress w storage jobId progress status).
Proof. unfold updateJobProgress. preserve; auto. Qed.

Hint Resolve invariant_generatePresentationNarration invariant_updateJobProgress : core.

Lemma invariant_assemblePresentationVideo storage slides outputPath qs ts jobId :
  preserves P (assemblePresentationVideo w storage slides outputPath qs ts jobId).
Proof.
  unfold assemblePresentationVideo. destruct slides as [|slide rest]; [preserve|].
  set (slides := slide :: rest). generalize (length slides) as n. intros n.
  apply preserves_try_catch; [|intros e; preserve; auto].
  apply preserves_bind; [auto|intros _].
  apply preserves_bind.
  { generalize 0%nat as i, (@nil string) as vids, 0%float as total.
    induction slides as [|sl slides' IH]; intros i vids total; cbn [slideLoop];
      [preserve|].
    apply preserves_bind; [auto|intros _].
    apply preserves_bind; [auto|intros t].
    apply preserves_bind; [|intros r; apply IH].
    apply preserves_createSlideVideo. intros p phase. auto. }
  intros acc. apply preserves_bind; [auto|intros _].
  apply preserves_bind.
  { destruct acc.1 as [|v [|v' vs]].
    - unfold concatenateVideosWithTransitions, concatenateVideosSimple.
      preserve; auto; apply preserves_runConcat; intros p; auto.
    - unfold reencodeVideo. preserve.
    - unfold concatenateVideosWithTransitions, concatenateVideosSimple.
      preserve; auto; apply preserves_runConcat; intros p; auto. }
  intros final. preserve; auto.
Qed.

Hint Resolve invariant_assemblePresentationVideo : core.

Lemma invariant_processVideoExport exportId presentation options :
  preserves P (processVideoExport w exportId presentation options).
Proof. unfold processVideoExport. preserve; auto. Qed.

Hint Resolve invariant_processVideoExport : core.

Lemma invariant_convertExport exportId presentation format options masterPptxPath :
  preserves P (convertExport w exportId presentation format options masterPptxPath).
Proof. unfold convertExport. preserve; auto. Qed.

Hint Resolve invariant_convertExport : core.

Lemma invariant_processExportAsync exportId presentation format options :
  preserves P (processExportAsync w exportId presentation format options).
Proof.
  unfold processExportAsync, processExportAsync_try, processExportAsync_catch.
  preserve; auto.
Qed.

End RowInvariants.

Section RowsOfAJob.

Variable w : World.

Lemma rowsKept_refl s : rowsKept s s.
Proof.
  intros id. destruct (exports s !! id); [|exact I]. repeat split.
Qed.

Lemma rowsKept_insert s0 s id row row' :
  rowsKept s0 s -> exports s !! id = Some row -> rowIdentity row row' ->
  rowsKept s0 (set_exports <[id := row']> s).
Proof.
  intros Hkept Hrow Hid id'. specialize (Hkept id'). cbn.
  destruct (decide (id = id')) as [<-|Hne].
  - rewrite lookup_insert_eq. rewrite Hrow in Hkept.
    destruct (exports s0 !! id) as [r0|]; [|contradiction].
    destruct Hkept as (H1 & H2 & H3 & H4), Hid as (H1' & H2' & H3' & H4').
    repeat split; congruence.
  - now rewrite lookup_insert_ne.
Qed.

Lemma rowsKept_other s0 s s' :
  rowsKept s0 s -> exports s' = exports s -> rowsKept s0 s'.
Proof. intros Hkept Heq id. rewrite Heq. apply Hkept. Qed.

Lemma progressBounded_insert s id row :
  progressBounded s -> (0 <= ExportRow.progress row <= 100)%Z ->
  progressBounded (set_exports <[id := row]> s).
Proof.
  intros Hb Hrow id' row'. cbn. destruct (decide (id = id')) as [<-|Hne].
  - rewrite lookup_insert_eq. now intros [= <-].
  - rewrite lookup_insert_ne by assumption. apply Hb.
Qed.

(** X7: an export job, whatever its format and its outcome, creates no
    row and deletes none, and leaves the id, the presentation, the format
    and the creation time of every row as they were. *)
Theorem export_job_keeps_rows exportId presentation format options s :
  rowsKept s (processExportAsync w exportId presentation format options s).2.
Proof.
  apply (invariant_processExportAsync w (rowsKept s)); try (intros; assumption).
  - intros id progress phase message error s1 Hs1.
    unfold updateExportProgress, mbind, M_bind, gets, now, modify. cbn.
    destruct (exports s1 !! id) as [row|] eqn:Hrow; [|exact Hs1]. cbn.
    apply (rowsKept_insert s (set_clock S s1) id row);
      [eapply rowsKept_other; [exact Hs1|reflexivity]|exact Hrow|repeat split].
  - intros id isReady fileUrl errorMessage s1 Hs1.
    unfold updateExportStatus, mbind, M_bind, gets, now, modify. cbn.
    destruct (exports s1 !! id) as [row|] eqn:Hrow; [|exact Hs1]. cbn.
    apply (rowsKept_insert s (set_clock S s1) id row);
      [eapply rowsKept_other; [exact Hs1|reflexivity]|exact Hrow|repeat split].
  - intros id filePath fileSize s1 Hs1.
    unfold updateExportFilePath, mbind, M_bind, gets, now, modify. cbn.
    destruct (exports s1 !! id) as [row|] eqn:Hrow; [|exact Hs1]. cbn.
    apply (rowsKept_insert s (set_clock S s1) id row);
      [eapply rowsKept_other; [exact Hs1|reflexivity]|exact Hrow|repeat split].
  - apply rowsKept_refl.
Qed.

(** X8: when every row has a progress between 0 and 100 before an export
    job, every row has one after it: the storage clamps what the tracker
    sends. *)
Theorem export_job_keeps_progress_bounded exportId presentation format options s :
  progressBounded s ->
  progressBounded (processExportAsync w exportId presentation format options s).2.
Proof.
  apply (invariant_processExportAsync w progressBounded); try (intros; assumption).
  - intros id progress phase message error s1 Hs1.
    unfold updateExportProgress, mbind, M_bind, gets, now, modify. cbn.
    destruct (exports s1 !! id) as [row|] eqn:Hrow; [|exact Hs1]. cbn.
    apply (progressBounded_insert (set_clock S s1)); [exact Hs1|]. cbn. lia.
  - intros id isReady fileUrl errorMessage s1 Hs1.
    unfold updateExportStatus, mbind, M_bind, gets, now, modify. cbn.
    destruct (exports s1 !! id) as [row|] eqn:Hrow; [|exact Hs1]. cbn.
    apply (progressBounded_insert (set_clock S s1)); [exact Hs1|]. cbn.
    pose proof (Hs1 id row Hrow).
    destruct isReady; [lia|]. destruct (or_string errorMessage None); assumption.
  - intros id filePath fileSize s1 Hs1.
    unfold updateExportFilePath, mbind, M_bind, gets, now, modify. cbn.
    destruct (exports s1 !! id) as [row|] eqn:Hrow; [|exact Hs1]. cbn.
    apply (progressBounded_insert (set_clock S s1)); [exact Hs1|]. cbn.
    exact (Hs1 id row Hrow).
Qed.

End RowsOfAJob.

Lemma export_job_keeps_progress_bounded_witness :
  progressBounded
    (processExportAsync reportingWorld "e1"
       (Presentation.mk "p1" (Some "Deck") (Some [exampleSlide "s1"])) "video"
       (Some noOptions) (stateWithExport "e1" "p1" "video")).2.
Proof.
  apply (export_job_keeps_progress_bounded reportingWorld).
  intros id row. unfold stateWithExport. cbn.
  destruct (decide ("e1" = id)) as [<-|Hne].
  - rewrite lookup_insert_eq. intros [= <-]. cbn. lia.
  - rewrite lookup_insert_ne by assumption. rewrite lookup_empty. discriminate.
Defined.

(** ** How an export job ends *)

Section JobOutcome.

Variable w : World.

Lemma row_present_clock id s :
  is_Some (exports s !! id) -> is_Some (exports (set_clock S s) !! id).
Proof. easy. Qed.

Lemma row_present_insert id id' row s :
  is_Some (exports s !! id) -> is_Some (exports (set_exports <[id' := row]> s) !! id).
Proof.
  intros H. cbn. apply lookup_insert_is_Some.
  destruct (decide (id' = id)); [now left|now right].
Qed.

Lemma row_present_updateExportProgress id id' progress phase message error :
  preserves (fun s => is_Some (exports s !! id))
    (updateExportProgress w id' progress phase message error).
Proof.
  apply preserves_updateExportProgress;
    [apply row_present_clock|intros; now apply row_present_insert].
Qed.

Lemma row_present_updateExportFilePath id id' filePath fileSize :
  preserves (fun s => is_Some (exports s !! id))
    (updateExportFilePath w id' filePath fileSize).
Proof.
  apply preserves_updateExportFilePath;
    [apply row_present_clock|intros; now apply row_present_insert].
Qed.

Lemma row_present_updateExportStatus id id' isReady fileUrl errorMessage :
  preserves (fun s => is_Some (exports s !! id))
    (updateExportStatus w id' isReady fileUrl errorMessage).
Proof.
  apply preserves_updateExportStatus;
    [apply row_present_clock|intros; now apply row_present_insert].
Qed.

Lemma row_present_convertExport id exportId presentation format options masterPptxPath :
  preserves (fun s => is_Some (exports s !! id))
    (convertExport w exportId presentation format options masterPptxPath).
Proof.
  apply invariant_convertExport; try (intros; assumption).
  - intros. apply row_present_updateExportProgress.
  - intros. apply row_present_updateExportFilePath.
Qed.

Lemma updateExportStatus_ready id fileUrl s s' :
  is_Some (exports s !! id) ->
  updateExportStatus w id true fileUrl None s = (Ok tt, s') ->
  exists row,
    exports s' !! id = Some row
    /\ ExportRow.isReady row = true
    /\ ExportRow.progress row = 100%Z
    /\ ExportRow.phase row = Some "complete"
    /\ ExportRow.error row = None.
Proof.
  intros [row Hrow]. unfold updateExportStatus, mbind, M_bind, gets, now, modify.
  rewrite Hrow. cbn. intros [= <-]. cbn. rewrite lookup_insert_eq.
  eexists. split; [reflexivity|]. cbn. auto.
Qed.

(** X9: when the [try] block of an export job returns, the row of the job
    is ready, at 100%, in phase ["complete"] and without an error
    message. *)
Theorem finished_job_marked_complete exportId presentation format options s s' :
  is_Some (exports s !! exportId) ->
  processExportAsync_try w exportId presentation format options s = (Ok tt, s') ->
  processExportAsync w exportId presentation format options s = (Ok tt, s')
  /\ exists row,
       exports s' !! exportId = Some row
       /\ ExportRow.isReady row = true
       /\ ExportRow.progress row = 100%Z
       /\ ExportRow.phase row = Some "complete"
       /\ ExportRow.error row = None.
Proof.
  intros Hrow Htry. split.
  { unfold processExportAsync, try_catch. now rewrite Htry. }
  set (Q := fun st : State => is_Some (exports st !! exportId)).
  assert (Hfinish : forall path s0,
    Q s0 ->
    (fileUrl ← convertExport w exportId presentation format options path;
     updateExportProgress w exportId 100 (Some "completed")
       (Some "Export completed successfully") None;;
     updateExportStatus w exportId true (Some fileUrl) None) s0 = (Ok tt, s') ->
    exists row,
      exports s' !! exportId = Some row
      /\ ExportRow.isReady row = true
      /\ ExportRow.progress row = 100%Z
      /\ ExportRow.phase row = Some "complete"
      /\ ExportRow.error row = None).
  { intros path s0 Hs0 H.
    apply bind_ok_inv in H as (fileUrl & s1 & Hconv & H).
    apply bind_ok_inv in H as ([] & s2 & Hupd & H).
    apply (updateExportStatus_ready exportId (Some fileUrl) s2 s'); [|exact H].
    eapply (preserves_run Q); [apply row_present_updateExportProgress| |exact Hupd].
    eapply (preserves_run Q); [apply row_present_convertExport|exact Hs0|exact Hconv]. }
  unfold processExportAsync_try in Htry.
  destruct (negb (String.eqb format "video")).
  - apply bind_ok_inv in Htry as ([] & s1 & Hupd & H).
    apply bind_ok_inv in H as (pptxResult & s2 & Hpptx & H).
    assert (Hs2 : Q s2).
    { unfold lift in Hpptx. injection Hpptx as _ <-.
      eapply (preserves_run Q); [apply row_present_updateExportProgress|exact Hrow|].
      exact Hupd. }
    destruct (String.eqb format "pptx").
    + apply bind_ok_inv in H as ([] & s3 & Hfile & H).
      eapply (updateExportStatus_ready exportId _ s3 s'); [|exact H].
      eapply (preserves_run Q); [apply row_present_updateExportFilePath|exact Hs2|].
      exact Hfile.
    + eapply (Hfinish _ s2); [exact Hs2|exact H].
  - eapply (Hfinish _ s); [exact Hrow|exact Htry].
Qed.

(** X10: a format outside pptx, pdf, html, google-slides and video is
    refused only after the master PPTX has been generated; the row of the
    job then carries the error ["Unsupported export format"] with the
    format, phase ["error"] and progress 0. *)
Theorem unsupported_format_fails_after_pptx exportId presentation format options s
    pptxResult :
  is_Some (exports s !! exportId) ->
  pptx_generatePresentation w presentation = Ok pptxResult ->
  format <> "video" -> format <> "pptx" -> format <> "pdf" -> format <> "html" ->
  format <> "google-slides" ->
  exists row,
    exports (processExportAsync w exportId presentation format options s).2 !! exportId
    = Some row
    /\ ExportRow.error row = Some ("Error: Unsupported export format: " +:+ format)
    /\ ExportRow.phase row = Some "error"
    /\ ExportRow.progress row = 0%Z
    /\ ExportRow.isReady row = false.
Proof.
  intros Hrow Hpptx Hvideo Hpptxf Hpdf Hhtml Hgoogle.
  apply String.eqb_neq in Hvideo, Hpptxf, Hpdf, Hhtml, Hgoogle.
  assert (Htry : processExportAsync_try w exportId presentation format options s
                 = (Throw (newError ("Unsupported export format: " +:+ format)),
                    (updateExportProgress w exportId 30 (Some "pptx")
                       (Some "Creating master presentation...") None s).2)).
  { unfold processExportAsync_try. rewrite Hvideo. cbn [negb].
    rewrite seq_update. rewrite Hpptx. unfold lift at 1.
    unfold mbind at 1, M_bind at 1. rewrite Hpptxf.
    unfold convertExport. rewrite Hpdf, Hhtml, Hgoogle, Hvideo.
    reflexivity. }
  unfold processExportAsync, try_catch. rewrite Htry.
  pose proof (row_present_updateExportProgress exportId exportId 30 (Some "pptx")
                (Some "Creating master presentation...") None s Hrow) as [row1 Hrow1].
  destruct (processExportAsync_catch_row w exportId
              (newError ("Unsupported export format: " +:+ format)) _ row1 Hrow1)
    as (row & H1 & H2 & H3 & H4 & H5).
  exists row. auto.
Qed.

End JobOutcome.

Lemma finished_job_marked_complete_witness :
  exists s',
    processExportAsync (exampleWorld 5 speechAlwaysAudio) "e1" twoSlideDeck "video"
      (Some noOptions) (stateWithExport "e1" "p1" "video") = (Ok tt, s')
    /\ exists row,
         exports s' !! "e1" = Some row
         /\ ExportRow.isReady row = true
         /\ ExportRow.progress row = 100%Z
         /\ ExportRow.phase row = Some "complete"
         /\ ExportRow.error row = None.
Proof.
  eexists.
  apply (finished_job_marked_complete (exampleWorld 5 speechAlwaysAudio) "e1"
           twoSlideDeck "video" (Some noOptions) (stateWithExport "e1" "p1" "video")).
  - eexists. vm_compute. reflexivity.
  - vm_compute. reflexivity.
Defined.

Lemma unsupported_format_fails_after_pptx_witness :
  exists row,
    exports (processExportAsync (exampleWorld 5 speechAlwaysAudio) "e1" twoSlideDeck
               "docx" None (stateWithExport "e1" "p1" "docx")).2 !! "e1"
    = Some row
    /\ ExportRow.error row = Some ("Error: Unsupported export format: " +:+ "docx")
    /\ ExportRow.phase row = Some "error"
    /\ ExportRow.progress row = 0%Z
    /\ ExportRow.isReady row = false.
Proof.
  apply (unsupported_format_fails_after_pptx (exampleWorld 5 speechAlwaysAudio) "e1"
           twoSlideDeck "docx" None (stateWithExport "e1" "p1" "docx")
           (FileResult.mk "/app/uploads/deck.pptx" 4096));
    try discriminate.
  - eexists. vm_compute. reflexivity.
  - reflexivity.
Defined.

(** ** The shared quality presets *)

Section SharedPresets.

Variable w : World.

Lemma presets_updateExportProgress p id progress phase message error :
  preserves (fun s => presets s = p)
    (updateExportProgress w id progress phase message error).
Proof. apply preserves_updateExportProgress; intros; assumption. Qed.

Lemma presets_generatePresentationNarration p slides voice model format :
  preserves (fun s => presets s = p)
    (generatePresentationNarration w slides voice model format).
Proof. apply preserves_generatePresentationNarration; intros; assumption. Qed.

Lemma presets_assemblePresentationVideo p storage slides outputPath qs ts jobId :
  preserves (fun s => presets s = p)
    (assemblePresentationVideo w storage slides outputPath qs ts jobId).
Proof. apply preserves_assemblePresentationVideo; intros; assumption. Qed.

Lemma presets_now p : preserves (fun s => presets s = p) (now w).
Proof. intros s Hs. exact Hs. Qed.

(** X11: [processVideoExport] writes the requested container into the
    shared preset of the requested quality when that container is not mp4
    and the job gets as far as the assembly, and it never writes mp4 back:
    a job for mp4 leaves the presets as it finds them. *)
Theorem video_export_changes_shared_preset exportId presentation options s :
  let run := processVideoExport w exportId presentation options s in
  let format := or_default (VideoExportOptions.format options) "mp4" in
  let quality := default (VideoExportOptions.quality options) medium in
  (format = "mp4" -> presets run.2 = presets s)
  /\ (forall videoPath, run.1 = Ok videoPath -> format <> "mp4" ->
      presets run.2 = preset_set_format quality format (presets s)).
Proof.
  intros run format quality. split.
  - intros Hfmt. subst run.
    enough (Hp : preserves (fun st => presets st = presets s)
                   (processVideoExport w exportId presentation options))
      by exact (Hp s eq_refl).
    unfold processVideoExport. fold format. rewrite Hfmt.
    change (negb ("mp4" =? "mp4")%string) with false.
    pose proof (presets_updateExportProgress (presets s)).
    pose proof (presets_generatePresentationNarration (presets s)).
    pose proof (presets_assemblePresentationVideo (presets s)).
    pose proof (presets_now (presets s)).
    preserve.
  - intros videoPath Hok Hfmt. subst run.
    destruct (processVideoExport w exportId presentation options s) as [r s'] eqn:Hrun.
    cbn [fst snd] in *. subst r.
    apply String.eqb_neq in Hfmt.
    unfold processVideoExport in Hrun. fold format in Hrun. fold quality in Hrun.
    destruct (default (Presentation.slides presentation) []) as [|slide rest];
      [discriminate|].
    apply try_catch_ok_inv in Hrun; [|intros; unfold throw; eauto].
    set (Q := fun st : State => presets st = presets s).
    apply bind_ok_inv in Hrun as ([] & s1 & H1 & Hrun).
    apply (preserves_run Q) in H1; [|apply presets_updateExportProgress|reflexivity].
    apply bind_ok_inv in Hrun as (narrs & s2 & H2 & Hrun).
    apply (preserves_run Q) in H2; [|apply presets_generatePresentationNarration|exact H1].
    destruct narrs as [|narr narrs]; [discriminate|].
    apply bind_ok_inv in Hrun as ([] & s3 & H3 & Hrun).
    apply (preserves_run Q) in H3; [|apply presets_updateExportProgress|exact H2].
    apply bind_ok_inv in Hrun as ([] & s4 & H4 & Hrun).
    apply (preserves_run Q) in H4; [|apply presets_updateExportProgress|exact H3].
    apply bind_ok_inv in Hrun as (imgs & s5 & H5 & Hrun).
    unfold lift in H5. injection H5 as _ <-.
    destruct imgs as [|img imgs]; [discriminate|].
    apply bind_ok_inv in Hrun as ([] & s6 & H6 & Hrun).
    apply (preserves_run Q) in H6; [|apply presets_updateExportProgress|exact H4].
    apply bind_ok_inv in Hrun as ([] & s7 & H7 & Hrun).
    apply (preserves_run Q) in H7; [|apply presets_updateExportProgress|exact H6].
    destruct (pairSlideVideoInputs _ _) as [|pair pairs]; [discriminate|].
    apply bind_ok_inv in Hrun as (t & s8 & H8 & Hrun).
    apply (preserves_run Q) in H8; [|apply presets_now|exact H7].
    rewrite Hfmt in Hrun. cbn [negb] in Hrun.
    apply bind_ok_inv in Hrun as ([] & s9 & H9 & Hrun).
    unfold modify in H9. injection H9 as <-.
    apply bind_ok_inv in Hrun as (qs & s10 & H10 & Hrun).
    unfold gets in H10. injection H10 as _ <-.
    apply bind_ok_inv in Hrun as (vr & s11 & H11 & Hrun).
    injection Hrun as _ <-.
    apply (preserves_run
             (fun st => presets st = preset_set_format quality format (presets s)))
      in H11; [exact H11|apply presets_assemblePresentationVideo|].
    cbn. unfold Q in H8. now rewrite H8.
Qed.

End SharedPresets.

Lemma video_export_changes_shared_preset_witness :
  VideoQualitySettings.format
    (Presets.medium
       (presets
          (processVideoExport (exampleWorld 5 speechAlwaysAudio) "e1" twoSlideDeck
             aviOptions (stateWithExport "e1" "p1" "video")).2))
  = Some "avi"
  /\ presets
       (processVideoExport (exampleWorld 5 speechAlwaysAudio) "e2" twoSlideDeck noOptions
          (processVideoExport (exampleWorld 5 speechAlwaysAudio) "e1" twoSlideDeck
             aviOptions (stateWithExport "e1" "p1" "video")).2).2
     = presets
         (processVideoExport (exampleWorld 5 speechAlwaysAudio) "e1" twoSlideDeck
            aviOptions (stateWithExport "e1" "p1" "video")).2.
Proof.
  split.
  - rewrite (proj2 (video_export_changes_shared_preset
                      (exampleWorld 5 speechAlwaysAudio) "e1" twoSlideDeck aviOptions
                      (stateWithExport "e1" "p1" "video")) _
               ltac:(vm_compute; reflexivity) ltac:(discriminate)).
    reflexivity.
  - apply (proj1 (video_export_changes_shared_preset
                    (exampleWorld 5 speechAlwaysAudio) "e2" twoSlideDeck noOptions _)).
    reflexivity.
Defined.

(** ** More on the narration *)

Section NarrationRequests.

Variable w : World.

Lemma generateAudioWithRetry_request_count fuel text voice model format fileName attempt s :
  (length (speechRequests
             (generateAudioWithRetry w fuel text voice model format fileName attempt s).2)
   <= length (speechRequests s) + S (tts_maxRetries - attempt))%nat.
Proof.
  revert attempt s. induction fuel as [|fuel IH]; intros attempt s.
  - cbn [generateAudioWithRetry].
    unfold try_catch, mbind, M_bind, gets, modify, throw, mret, M_ret; cbn.
    destruct (speech_create w _ _) as [bytes|e]; cbn.
    + destruct (bytes =? 0)%Z; cbn;
        repeat match goal with |- context [if ?b then _ else _] => destruct b end;
        cbn; rewrite length_app; cbn; lia.
    + repeat match goal with |- context [if ?b then _ else _] => destruct b end;
        cbn; rewrite length_app; cbn; lia.
  - cbn [generateAudioWithRetry].
    unfold try_catch, mbind, M_bind, gets, modify, mret, M_ret.
    set (req := SpeechRequest.mk model voice (truncatedText text) format).
    set (s1 := set_speechRequests (fun l => l ++ [req]) s).
    assert (Hs1 : length (speechRequests s1) = S (length (speechRequests s)))
      by (cbn; rewrite length_app; cbn; lia).
    assert (Hretry : (attempt < tts_maxRetries)%nat ->
      (length (speechRequests
                 (generateAudioWithRetry w fuel text voice model format fileName
                    (S attempt) s1).2)
       <= length (speechRequests s) + S (tts_maxRetries - attempt))%nat).
    { intros Hlt. specialize (IH (S attempt) s1). lia. }
    assert (Hstop : (length (speechRequests s1)
                     <= length (speechRequests s) + S (tts_maxRetries - attempt))%nat)
      by lia.
    clearbody s1. clear IH Hs1.
    destruct (speech_create w _ _) as [bytes|e].
    + destruct (bytes =? 0)%Z; [|exact Hstop].
      cbv beta iota. unfold throw at 1.
      destruct (isRateLimitError _ && (attempt <? tts_maxRetries)%nat) eqn:He.
      * apply Hretry. apply andb_true_iff in He as [_ Hlt]. now apply Nat.ltb_lt.
      * repeat match goal with |- context [if ?b then _ else _] => destruct b end;
          exact Hstop.
    + cbv beta iota. unfold throw at 1.
      destruct (isRateLimitError e && (attempt <? tts_maxRetries)%nat) eqn:He.
      * apply Hretry. apply andb_true_iff in He as [_ Hlt]. now apply Nat.ltb_lt.
      * repeat match goal with |- context [if ?b then _ else _] => destruct b end;
          exact Hstop.
Qed.

Lemma generateSlideNarration_request_count slideId text voice model format s :
  (length (speechRequests (generateSlideNarration w slideId text voice model format s).2)
   <= length (speechRequests s) + 3)%nat.
Proof.
  unfold generateSlideNarration.
  destruct (String.length (trim text) =? 0)%nat; [cbn; lia|].
  unfold try_catch, mbind, M_bind, now. cbn -[generateAudioWithRetry].
  pose proof (generateAudioWithRetry_request_count tts_maxRetries text voice model format
                ("slide_" +:+ slideId +:+ "_" +:+ pretty (Date_now w (clock s))) 1
                (set_clock S s)) as Hgen.
  destruct (generateAudioWithRetry w _ _ _ _ _ _ _ _) as [[audioPath|e] s1];
    cbn -[generateAudioWithRetry] in Hgen |- *; [|lia].
  unfold getAudioDuration. destruct (ffprobe w audioPath); cbn; lia.
Qed.

Lemma narrationLoop_request_count slides voice model format results errors s :
  (length (speechRequests (narrationLoop w slides voice model format results errors s).2)
   <= length (speechRequests s) + 3 * length slides)%nat.
Proof.
  revert results errors s. induction slides as [|slide rest IH]; intros results errors s.
  - cbn. lia.
  - cbn [narrationLoop]. unfold mbind at 1, M_bind at 1, try_catch.
    unfold narrateSlide, mbind, M_bind.
    destruct (String.length (narrationText slide) <? 5)%nat.
    + cbn. specialize (IH results errors s). cbn [length]. lia.
    + pose proof (generateSlideNarration_request_count (Slide.id slide)
                    (narrationText slide) voice model format s) as Hone.
      destruct (generateSlideNarration w _ _ _ _ _ s) as [[r|e] s1]; cbn in Hone |- *.
      * specialize (IH (results ++ [SlideNarrationResult.mk (Slide.id slide)
                                      (TTSResult.audioPath r) (TTSResult.duration r)])
                      errors s1). cbn [length]. lia.
      * specialize (IH results (errors ++ [(Slide.id slide, Js.message e)]) s1).
        cbn [length]. lia.
Qed.

(** X12: a narration batch sends at most three requests per slide to the
    speech API, whatever the API answers. *)
Theorem narration_batch_request_bound slides voice model format s :
  (length (speechRequests (generatePresentationNarration w slides voice model format s).2)
   <= length (speechRequests s) + 3 * length slides)%nat.
Proof.
  unfold generatePresentationNarration. destruct slides as [|slide rest]; [cbn; lia|].
  unfold mbind, M_bind.
  pose proof (narrationLoop_request_count (slide :: rest) voice model format [] [] s)
    as Hloop.
  destruct (narrationLoop w (slide :: rest) voice model format [] [] s) as [[acc|e] s1];
    cbn [fst snd] in Hloop |- *; [|exact Hloop].
  destruct ((length acc.1 =? 0)%nat && (0 <? length acc.2)%nat); exact Hloop.
Qed.

(** X13: an error of the speech API that is not a rate limit is not
    retried: one request is sent and the failure carries the message of the
    API behind ["TTS generation failed: "]. *)
Theorem other_speech_errors_are_not_retried text voice model format fileName s e :
  speech_create w (length (speechRequests s))
    (SpeechRequest.mk model voice (truncatedText text) format) = SpeechError e ->
  isRateLimitError e = false ->
  generateAudioWithRetry w tts_maxRetries text voice model format fileName 1 s
  = (Throw (newError ("TTS generation failed: " +:+ Js.message e)),
     set_speechRequests
       (fun l => l ++ [SpeechRequest.mk model voice (truncatedText text) format]) s).
Proof.
  intros Hspeech Hrate. cbn [generateAudioWithRetry tts_maxRetries].
  unfold try_catch, mbind, M_bind, gets, modify, throw, mret, M_ret. cbn.
  rewrite Hspeech. cbn. rewrite Hrate. cbn.
  unfold isRateLimitError in Hrate.
  apply orb_false_iff in Hrate as [Hrate _].
  apply orb_false_iff in Hrate as [Hrate _].
  apply orb_false_iff in Hrate as [Hrate Hmsg].
  apply orb_false_iff in Hrate as [Hstatus _].
  rewrite Hmsg. cbn. rewrite Hstatus. reflexivity.
Qed.

Lemma generateSlideNarration_probed slideId text voice model format s r s' :
  generateSlideNarration w slideId text voice model format s = (Ok r, s') ->
  ffprobe w (TTSResult.audioPath r) = ProbeDuration (TTSResult.duration r).
Proof.
  unfold generateSlideNarration.
  destruct (trim text) as [|c rest]; cbn [String.length Nat.eqb]; [discriminate|].
  unfold try_catch, mbind, M_bind, now. cbn -[generateAudioWithRetry].
  destruct (generateAudioWithRetry w _ _ _ _ _ _ _ _) as [[audioPath|e] s1]; cbn;
    [|discriminate].
  unfold getAudioDuration.
  destruct (ffprobe w audioPath) as [m| |d] eqn:Hprobe; cbn; try discriminate.
  intros [= <- _]. exact Hprobe.
Qed.

(** X14: [generateSlideNarration] refuses a blank text before any request
    is sent; when it returns, its clip has the duration that ffprobe reports
    for the audio file; every other failure carries the prefix
    ["Narration generation failed: "]. *)
Theorem generateSlideNarration_outcome slideId text voice model format s :
  match generateSlideNarration w slideId text voice model format s with
  | (Ok r, _) =>
      ffprobe w (TTSResult.audioPath r) = ProbeDuration (TTSResult.duration r)
      /\ trim text <> ""
  | (Throw e, s') =>
      (trim text = "" /\ e = newError "No text provided for narration" /\ s' = s)
      \/ (trim text <> "" /\ exists m, e = newError ("Narration generation failed: " +:+ m))
  end.
Proof.
  unfold generateSlideNarration.
  destruct (trim text) as [|c rest] eqn:Htrim; cbn [String.length Nat.eqb].
  - unfold throw. left. auto.
  - unfold try_catch, mbind, M_bind, now. cbn -[generateAudioWithRetry].
    destruct (generateAudioWithRetry w _ _ _ _ _ _ _ _) as [[audioPath|e] s1]; cbn.
    + unfold getAudioDuration.
      destruct (ffprobe w audioPath) as [m| |d] eqn:Hprobe; cbn.
      * right. split; [discriminate|eauto].
      * right. split; [discriminate|eauto].
      * split; [assumption|discriminate].
    + right. split; [discriminate|eauto].
Qed.

Lemma slideOutcome_narrated voice model format slide s clip s' :
  slideOutcome w voice model format slide s = (Narrated clip, s') ->
  SlideNarrationResult.slideId clip = Slide.id slide /\ clipProbed w clip.
Proof.
  unfold slideOutcome, narrateSlide.
  destruct (String.length (narrationText slide) <? 5)%nat; [discriminate|].
  unfold mbind, M_bind.
  destruct (generateSlideNarration w _ _ _ _ _ s) as [[r|e] s1] eqn:Hgen; [|discriminate].
  apply generateSlideNarration_probed in Hgen.
  cbn. intros [= <- _]. split; [reflexivity|]. exact Hgen.
Qed.

Lemma batchOutcomes_clips voice model format slides s :
  map SlideNarrationResult.slideId
    (omap narratedClip (batchOutcomes w voice model format slides s).1)
  `sublist_of` map Slide.id slides
  /\ Forall (clipProbed w)
       (omap narratedClip (batchOutcomes w voice model format slides s).1).
Proof.
  revert s. induction slides as [|slide rest IH]; intros s.
  - cbn. split; constructor.
  - cbn [batchOutcomes].
    destruct (slideOutcome w voice model format slide s) as [o s1] eqn:Hout.
    specialize (IH s1).
    destruct (batchOutcomes w voice model format rest s1) as [os s2].
    cbn [fst] in *. destruct IH as [IHs IHp]. destruct o as [|clip|id err].
    + cbn. split; [now apply sublist_cons|exact IHp].
    + apply slideOutcome_narrated in Hout as [Hid Hprobe].
      cbn. rewrite Hid. split; [now apply sublist_skip|].
      constructor; assumption.
    + cbn. split; [now apply sublist_cons|exact IHp].
Qed.


(** X15: the clips that a batch returns belong to slides of the batch, in
    the order of the slides and at most one per slide, and each has the
    duration that ffprobe reports for its file.  A batch of slides that all
    have fewer than five characters to narrate returns no clip, raises
    nothing and sends no request. *)
Theorem narration_batch_clips slides voice model format s :
  match generatePresentationNarration w slides voice model format s with
  | (Ok clips, _) =>
      map SlideNarrationResult.slideId clips `sublist_of` map Slide.id slides
      /\ Forall (clipProbed w) clips
  | (Throw _, _) => True
  end
  /\ ((0 < length slides)%nat ->
      Forall (fun slide => (String.length (narrationText slide) < 5)%nat) slides ->
      generatePresentationNarration w slides voice model format s = (Ok [], s)).
Proof.
  split.
  - unfold generatePresentationNarration. destruct slides as [|slide rest]; [exact I|].
    unfold mbind, M_bind. rewrite narrationLoop_outcomes. cbn [fst snd app].
    destruct ((length _ =? 0)%nat && _); [exact I|].
    apply batchOutcomes_clips.
  - intros Hlen Hshort.
    assert (Hloop : forall results errors,
      narrationLoop w slides voice model format results errors s
      = (Ok (results, errors), s)).
    { clear Hlen. induction Hshort as [|slide rest Hslide _ IH]; intros results errors;
        [reflexivity|].
      cbn [narrationLoop]. unfold mbind at 1, M_bind at 1, try_catch, narrateSlide.
      apply Nat.ltb_lt in Hslide. rewrite Hslide. cbn. apply IH. }
    unfold generatePresentationNarration. destruct slides as [|slide rest];
      [cbn in Hlen; lia|].
    unfold mbind, M_bind. rewrite Hloop. reflexivity.
Qed.

End NarrationRequests.

Lemma other_speech_errors_are_not_retried_witness :
  generateAudioWithRetry (exampleWorld 5 speechThirdCallDown) tts_maxRetries
    "Some text to narrate" "alloy" "tts-1" "mp3" "slide_s3_1700000000002" 1
    (set_speechRequests
       (fun _ => [SpeechRequest.mk "tts-1" "alloy" "one" "mp3";
                  SpeechRequest.mk "tts-1" "alloy" "two" "mp3"]) initialState)
  = (Throw (newError ("TTS generation failed: " +:+ "500 internal error")),
     set_speechRequests
       (fun l => l ++ [SpeechRequest.mk "tts-1" "alloy"
                         (truncatedText "Some text to narrate") "mp3"])
       (set_speechRequests
          (fun _ => [SpeechRequest.mk "tts-1" "alloy" "one" "mp3";
                     SpeechRequest.mk "tts-1" "alloy" "two" "mp3"]) initialState)).
Proof.
  apply (other_speech_errors_are_not_retried (exampleWorld 5 speechThirdCallDown)
           "Some text to narrate" "alloy" "tts-1" "mp3" "slide_s3_1700000000002" _
           speechServerError).
  - reflexivity.
  - vm_compute. reflexivity.
Defined.

Lemma narration_batch_clips_witness :
  generatePresentationNarration (exampleWorld 5 speechAlwaysAudio)
    [shortSlide "s1"; shortSlide "s2"] "alloy" "tts-1" "mp3" initialState
  = (Ok [], initialState).
Proof.
  apply (proj2 (narration_batch_clips (exampleWorld 5 speechAlwaysAudio)
                  [shortSlide "s1"; shortSlide "s2"] "alloy" "tts-1" "mp3" initialState)).
  - cbn. lia.
  - repeat constructor.
Defined.

(** ** The combined narration *)

Section CombinedDuration.

Variable w : World.
Variable ffprobe_again : nat -> string -> ProbeOutcome.
Variable ffmpeg_combine : list string -> string -> string -> FfmpegRun.t.





End CombinedDuration.


(** ** Job ids and the cleanup of the tracker *)

Lemma append_assoc' (a b c : string) : (a +:+ b) +:+ c = a +:+ (b +:+ c).
Proof.
  induction a as [|x a IH]; [reflexivity|].
  change (String x ((a +:+ b) +:+ c) = String x (a +:+ (b +:+ c))). now rewrite IH.
Qed.

Lemma pretty_N_go_app x s : pretty_N_go x s = pretty_N_go x "" +:+ s.
Proof.
  revert s. induction (N.lt_wf_0 x) as [x _ IH]; intros s.
  assert (x = 0 \/ 0 < x)%N as [->|Hpos] by lia.
  - now rewrite !pretty_N_go_0.
  - rewrite (pretty_N_go_step x s), (pretty_N_go_step x "") by exact Hpos.
    rewrite (IH (x `div` 10)%N) by (now apply N.div_lt).
    rewrite (IH (x `div` 10)%N ltac:(now apply N.div_lt) (String _ "")).
    now rewrite append_assoc'.
Qed.

Lemma parseDigits_app a b acc :
  parseDigits acc (a +:+ b) = parseDigits (parseDigits acc a) b.
Proof.
  revert acc. induction a as [|c a IH]; intros acc; [reflexivity|].
  change (String c a +:+ b) with (String c (a +:+ b)). cbn [parseDigits]. apply IH.
Qed.

Lemma allDigits_app a b : allDigits (a +:+ b) = allDigits a && allDigits b.
Proof.
  induction a as [|c a IH]; [reflexivity|].
  change (String c a +:+ b) with (String c (a +:+ b)). cbn [allDigits].
  now rewrite IH, andb_assoc.
Qed.

Lemma pretty_N_char_digit d :
  (d < 10)%N ->
  isDigit (pretty_N_char d) = true /\ (N_of_ascii (pretty_N_char d) - 48)%N = d.
Proof.
  intros Hd.
  assert (d = 0 \/ d = 1 \/ d = 2 \/ d = 3 \/ d = 4 \/ d = 5 \/ d = 6 \/ d = 7
          \/ d = 8 \/ d = 9)%N as H by lia.
  repeat (destruct H as [->|H]); subst; split; reflexivity.
Qed.

Lemma pretty_N_go_digits x :
  allDigits (pretty_N_go x "") = true
  /\ parseDigits 0 (pretty_N_go x "") = x
  /\ ((0 < x)%N -> pretty_N_go x "" <> "").
Proof.
  induction (N.lt_wf_0 x) as [x _ IH].
  assert (x = 0 \/ 0 < x)%N as [->|Hpos] by lia.
  - rewrite pretty_N_go_0. repeat split. intros H. lia.
  - rewrite (pretty_N_go_step x "") by exact Hpos.
    rewrite pretty_N_go_app.
    destruct (IH (x `div` 10)%N ltac:(now apply N.div_lt)) as (Hall & Hval & _).
    destruct (pretty_N_char_digit (x `mod` 10)%N ltac:(now apply N.mod_lt)) as [Hd Hv].
    repeat split.
    + rewrite allDigits_app, Hall. cbn [allDigits]. now rewrite Hd.
    + rewrite parseDigits_app, Hval. cbn [parseDigits]. rewrite Hv.
      pose proof (N.div_mod x 10 ltac:(lia)). lia.
    + intros _. destruct (pretty_N_go (x `div` 10) ""); discriminate.
Qed.

Lemma pretty_N_digits (t : N) :
  allDigits (pretty t) = true /\ parseDigits 0 (pretty t) = t /\ pretty t <> "".
Proof.
  unfold pretty, pretty_N. destruct (decide (t = 0%N)) as [->|Hne].
  - repeat split. discriminate.
  - destruct (pretty_N_go_digits t) as (H1 & H2 & H3).
    repeat split; [exact H1|exact H2|apply H3; lia].
Qed.

Lemma spanDigits_app ds c r :
  allDigits ds = true -> isDigit c = false ->
  spanDigits (ds +:+ String c r) = (ds, String c r).
Proof.
  intros Hall Hc. induction ds as [|d ds IH].
  - change ("" +:+ String c r) with (String c r). cbn [spanDigits]. now rewrite Hc.
  - change (String d ds +:+ String c r) with (String d (ds +:+ String c r)).
    cbn [spanDigits allDigits] in *. apply andb_true_iff in Hall as [Hd Hall].
    rewrite Hd, (IH Hall). reflexivity.
Qed.

Lemma spanDigits_all ds : allDigits ds = true -> spanDigits ds = (ds, "").
Proof.
  intros Hall. induction ds as [|d ds IH]; cbn [spanDigits]; [reflexivity|].
  cbn [allDigits] in Hall. apply andb_true_iff in Hall as [Hd Hall].
  rewrite Hd, (IH Hall). reflexivity.
Qed.

Lemma parseInt_digits ds :
  allDigits ds = true -> ds <> "" ->
  parseInt ds = Some (Z.of_N (parseDigits 0 ds)).
Proof.
  intros Hall Hne. destruct ds as [|c r]; [congruence|clear Hne].
  pose proof (spanDigits_all _ Hall) as Hspan.
  cbn [allDigits] in Hall. apply andb_true_iff in Hall as [Hc _].
  assert (is_space c = false /\ Ascii.eqb c "-" = false /\ Ascii.eqb c "+" = false)
    as (Hs & Hm & Hp).
  { destruct c as [[] [] [] [] [] [] [] []]; try discriminate Hc; repeat split. }
  unfold parseInt. cbn [trimStart]. rewrite Hs, Hm, Hp. cbn [fst snd].
  rewrite Hspan. reflexivity.
Qed.

Lemma matchJobId_here s ds : matchJobIdHere s = Some ds -> matchJobId s = Some ds.
Proof. intros H. destruct s; cbn [matchJobId]; now rewrite H. Qed.

Lemma extractTimestamp_of_generated (t : N) random :
  extractTimestampFromJobId ("video_job_" +:+ pretty t +:+ "_" +:+ random)
  = Some (Z.of_N t).
Proof.
  destruct (pretty_N_digits t) as (Hall & Hval & Hne).
  unfold extractTimestampFromJobId.
  rewrite (matchJobId_here _ (pretty t)).
  - rewrite (parseInt_digits _ Hall Hne), Hval. reflexivity.
  - unfold matchJobIdHere.
    change (stripPrefix "video_job_" ("video_job_" +:+ pretty t +:+ "_" +:+ random))
      with (Some (pretty t +:+ String "_" random)).
    cbv beta iota zeta.
    rewrite (spanDigits_app (pretty t) "_" random Hall eq_refl). cbn [fst snd].
    destruct (pretty t); [congruence|reflexivity].
Qed.

Section JobIdProperties.

Variable w : World.

(** X17: the time stamp read back from a generated job id is the time at
    which the id was generated, whatever the random part is. *)
Theorem generated_job_id_round_trip random s jobId s1 :
  generateJobId w random s = (Ok jobId, s1) ->
  extractTimestampFromJobId jobId = Some (Z.of_N (Date_now w (clock s))).
Proof.
  unfold generateJobId, mbind, M_bind, now, mret, M_ret. intros [= <- _].
  apply extractTimestamp_of_generated.
Qed.

Lemma cleanupOldFiles_lookup files s jobId :
  jobProgress (cleanupOldFiles w (DirListing files) s).2 !! jobId
  = if jobExpired (Z.of_N (Date_now w (S (clock s))) - 3600000) jobId
    then None
    else jobProgress s !! jobId.
Proof.
  unfold cleanupOldFiles, mbind, M_bind, now, modify. cbn.
  rewrite map_lookup_filter.
  destruct (jobProgress s !! jobId) as [p|]; cbn.
  - destruct (jobExpired _ jobId); cbn; [|reflexivity].
    case_guard; [discriminate|reflexivity].
  - now destruct (jobExpired _ jobId).
Qed.

(** X18: when the directory is listed, the cleanup forgets the progress of
    a job with a generated id once more than an hour lies between the
    generation of the id and the cleanup, and keeps it until then; an id
    generated at time zero is kept for ever. *)
Theorem cleanup_forgets_job_after_an_hour random s0 jobId s1 files s :
  generateJobId w random s0 = (Ok jobId, s1) ->
  let created := Date_now w (clock s0) in
  let cleaned := Date_now w (S (clock s)) in
  jobProgress (cleanupOldFiles w (DirListing files) s).2 !! jobId
  = if (0 <? created)%N && (created + 3600000 <? cleaned)%N
    then None
    else jobProgress s !! jobId.
Proof.
  intros Hid created cleaned.
  assert (Hts : extractTimestampFromJobId jobId = Some (Z.of_N created)).
  { unfold generateJobId, mbind, M_bind, now, mret, M_ret in Hid.
    injection Hid as <- _. apply extractTimestamp_of_generated. }
  rewrite cleanupOldFiles_lookup. unfold jobExpired. rewrite Hts.
  fold created. fold cleaned.
  replace (negb (Z.of_N created =? 0)%Z) with (0 <? created)%N
    by (destruct (N.ltb_spec 0 created), (Z.eqb_spec (Z.of_N created) 0); cbn; lia).
  replace (Z.of_N created <? Z.of_N cleaned - 3600000)%Z
    with (created + 3600000 <? cleaned)%N
    by (destruct (N.ltb_spec (created + 3600000) cleaned),
                 (Z.ltb_spec (Z.of_N created) (Z.of_N cleaned - 3600000)); lia).
  reflexivity.
Qed.

Lemma stripPrefix_Some p s r : stripPrefix p s = Some r -> s = p +:+ r.
Proof.
  revert s. induction p as [|a p IH]; intros s H; cbn [stripPrefix] in H.
  - now injection H as <-.
  - destruct s as [|b s]; [discriminate|].
    destruct (Ascii.eqb_spec a b) as [->|]; [|discriminate].
    change (String b p +:+ r) with (String b (p +:+ r)).
    now rewrite (IH _ H).
Qed.

Lemma substring_prefix p r : substring 0 (String.length p) (p +:+ r) = p.
Proof.
  induction p as [|a p IH].
  - now destruct r.
  - change (String a p +:+ r) with (String a (p +:+ r)).
    cbn [String.length substring]. now rewrite IH.
Qed.

Lemma matchJobId_occurrence s ds :
  matchJobId s = Some ds ->
  exists m, substring m (String.length "video_job_") s = "video_job_".
Proof.
  induction s as [|c s IH]; cbn [matchJobId].
  - destruct (matchJobIdHere "") eqn:Hhere; [|discriminate]. discriminate Hhere.
  - destruct (matchJobIdHere (String c s)) eqn:Hhere.
    + intros _. unfold matchJobIdHere in Hhere.
      destruct (stripPrefix "video_job_" (String c s)) as [r|] eqn:Hp; [|discriminate].
      apply stripPrefix_Some in Hp. rewrite Hp. exists 0%nat. apply substring_prefix.
    + intros H. destruct (IH H) as [m Hm]. exists (S m). exact Hm.
Qed.

Lemma extractTimestamp_needs_prefix jobId :
  includes jobId "video_job_" = false -> extractTimestampFromJobId jobId = None.
Proof.
  unfold includes, extractTimestampFromJobId. intros Hinc.
  destruct (matchJobId jobId) as [ds|] eqn:Hm; [|reflexivity].
  destruct (matchJobId_occurrence _ _ Hm) as [m Hsub].
  destruct (index 0 "video_job_" jobId) eqn:Hidx; [discriminate|].
  exfalso. eapply (index_correct3 0 m); [exact Hidx|discriminate|lia|exact Hsub].
Qed.

(** X19: the cleanup never forgets the progress of a job whose id does not
    contain [video_job_], such as the jobs that the export routes start
    under the id of their export. *)
Theorem cleanup_keeps_other_job_ids tempDir s jobId :
  includes jobId "video_job_" = false ->
  jobProgress (cleanupOldFiles w tempDir s).2 !! jobId = jobProgress s !! jobId.
Proof.
  intros Hinc. destruct tempDir as [|error|files]; [reflexivity|reflexivity|].
  rewrite cleanupOldFiles_lookup. unfold jobExpired.
  now rewrite (extractTimestamp_needs_prefix _ Hinc).
Qed.

End JobIdProperties.

Lemma generated_job_id_round_trip_witness :
  extractTimestampFromJobId "video_job_1700000000000_k3x9q0a1z" = Some 1700000000000%Z.
Proof.
  apply (generated_job_id_round_trip (exampleWorld 5 speechAlwaysAudio) "k3x9q0a1z"
           initialState "video_job_1700000000000_k3x9q0a1z" (set_clock S initialState)).
  vm_compute. reflexivity.
Defined.

Lemma cleanup_forgets_job_after_an_hour_witness :
  jobProgress
    (cleanupOldFiles slowWorld (DirListing [])
       (set_jobProgress
          <["video_job_1700000000000_k3x9q0a1z" := VideoProgress.mk 100 "completed"]>
          (set_clock S initialState))).2
    !! "video_job_1700000000000_k3x9q0a1z"
  = None.
Proof.
  pose proof (cleanup_forgets_job_after_an_hour slowWorld "k3x9q0a1z" initialState
                "video_job_1700000000000_k3x9q0a1z" (set_clock S initialState) []
                (set_jobProgress
                   <["video_job_1700000000000_k3x9q0a1z"
                     := VideoProgress.mk 100 "completed"]>
                   (set_clock S initialState))
                ltac:(vm_compute; reflexivity)) as H.
  cbv zeta in H. rewrite H. reflexivity.
Defined.

Lemma cleanup_keeps_other_job_ids_witness :
  jobProgress
    (cleanupOldFiles slowWorld (DirListing [])
       (set_jobProgress <["e1" := VideoProgress.mk 100 "completed"]>
          (set_clock S initialState))).2
    !! "e1"
  = Some (VideoProgress.mk 100 "completed").
Proof.
  rewrite (cleanup_keeps_other_job_ids slowWorld (DirListing [])
             (set_jobProgress <["e1" := VideoProgress.mk 100 "completed"]>
                (set_clock S initialState)) "e1" ltac:(vm_compute; reflexivity)).
  reflexivity.
Defined.

(** ** Range requests *)

(** X20: a partial answer to a range request lies within the file: its
    first byte is not after its last byte, both are bytes of the file, and
    the announced length is the length of that range. *)
Theorem partial_content_within_file range size start end_ size' chunkSize :
  handleVideoDownload_range range size
  = RangeReply.PartialContent start end_ size' chunkSize ->
  (0 <= start <= end_)%Z /\ (end_ < size)%Z /\ size' = size
  /\ chunkSize = (end_ - start + 1)%Z /\ (1 <= chunkSize <= size)%Z.
Proof.
  unfold handleVideoDownload_range.
  destruct range as [[|c r]|]; try discriminate.
  set (parts := split "-" _).
  destruct (parseInt (nth 0 parts "")) as [st|]; [|discriminate].
  destruct ((st <? 0)%Z || (size <=? st)%Z) eqn:Hstart; [discriminate|].
  apply orb_false_iff in Hstart as [H0 Hsize].
  apply Z.ltb_ge in H0. apply Z.leb_gt in Hsize.
  destruct (parts !! 1%nat) as [[|c1 r1]|].
  - intros [= <- <- <- <-]. lia.
  - destruct (parseInt (String c1 r1)) as [e|]; [|discriminate].
    destruct ((e <? st)%Z || (size <=? e)%Z) eqn:Hend; [discriminate|].
    apply orb_false_iff in Hend as [H1 H2].
    apply Z.ltb_ge in H1. apply Z.leb_gt in H2.
    intros [= <- <- <- <-]. lia.
  - intros [= <- <- <- <-]. lia.
Qed.

Lemma partial_content_within_file_witness :
  handleVideoDownload_range (Some "bytes=90-") 100
  = RangeReply.PartialContent 90 99 100 10
  /\ ((0 <= 90 <= 99)%Z /\ (99 < 100)%Z /\ 100%Z = 100%Z
      /\ 10%Z = (99 - 90 + 1)%Z /\ (1 <= 10 <= 100)%Z).
Proof.
  split; [vm_compute; reflexivity|].
  apply (partial_content_within_file (Some "bytes=90-") 100 90 99 100 10).
  vm_compute. reflexivity.
Defined.

(** ** The slide renderer *)

Lemma occursIn_app c a b : occursIn c (a +:+ b) = occursIn c a || occursIn c b.
Proof.
  induction a as [|d a IH]; [reflexivity|].
  change (String d a +:+ b) with (String d (a +:+ b)). cbn [occursIn].
  now rewrite IH, orb_assoc.
Qed.

Lemma escapeHtmlChar_markup c d :
  In c markupChars -> occursIn c (escapeHtmlChar d) = false.
Proof.
  intros Hc. unfold escapeHtmlChar.
  destruct (Ascii.eqb_spec d "&"); [|destruct (Ascii.eqb_spec d "<");
    [|destruct (Ascii.eqb_spec d ">"); [|destruct (Ascii.eqb_spec d doubleQuote);
      [|destruct (Ascii.eqb_spec d "'")]]]];
    cbn in Hc; destruct Hc as [<-|[<-|[<-|[<-|[]]]]]; try reflexivity;
    cbn [occursIn]; rewrite orb_false_r; apply Ascii.eqb_neq; congruence.
Qed.

(** X21: escaped text holds no [<], no [>] and no quote character, and text
    without [&] and without these characters is left as it is. *)
Theorem escapeHtml_removes_markup text :
  (forall c, In c markupChars -> occursIn c (escapeHtml text) = false)
  /\ ((forall c, In c ("&"%char :: markupChars) -> occursIn c text = false)
      -> escapeHtml text = text).
Proof.
  split.
  - intros c Hc. induction text as [|d text IH]; [reflexivity|].
    cbn [escapeHtml]. now rewrite occursIn_app, (escapeHtmlChar_markup c d Hc), IH.
  - induction text as [|d text IH]; intros Hplain; [reflexivity|].
    cbn [escapeHtml]. rewrite IH.
    + assert (forall c, In c ("&"%char :: markupChars) -> Ascii.eqb c d = false) as Hd.
      { intros c Hc. specialize (Hplain c Hc). cbn [occursIn] in Hplain.
        now apply orb_false_iff in Hplain. }
      unfold escapeHtmlChar.
      rewrite (Ascii.eqb_sym d "&"), (Hd "&"%char) by (cbn; auto).
      rewrite (Ascii.eqb_sym d "<"), (Hd "<"%char) by (cbn; auto).
      rewrite (Ascii.eqb_sym d ">"), (Hd ">"%char) by (cbn; auto).
      rewrite (Ascii.eqb_sym d doubleQuote), (Hd doubleQuote) by (cbn; auto 6).
      rewrite (Ascii.eqb_sym d "'"), (Hd "'"%char) by (cbn; auto 6).
      reflexivity.
    + intros c Hc. specialize (Hplain c Hc). cbn [occursIn] in Hplain.
      now apply orb_false_iff in Hplain.
Qed.

Lemma escapeHtml_removes_markup_witness :
  escapeHtml "Plan 2025" = "Plan 2025".
Proof.
  apply (proj2 (escapeHtml_removes_markup "Plan 2025")).
  intros c Hc. cbn in Hc.
  destruct Hc as [<-|[<-|[<-|[<-|[<-|[]]]]]]; reflexivity.
Defined.

Section SlideRendererProperties.

Variable getBrowser : option Error.
Variable closeBrowser : option Error.
Variable renderSlideWithRetry : nat -> string -> string -> Result SlideRenderResult.t.



End SlideRendererProperties.

Example renderPresentation_leaves_out_failed_slide :
  renderPresentation None None (failingAt 1)
    [SlideContent.mk "s1" "<h1>One</h1>"; SlideContent.mk "s2" "<h1>Two</h1>";
     SlideContent.mk "s3" "<h1>Three</h1>"]
  = Ok [PresentationRenderResult.mk "s1" "/app/uploads/slide_images/s1.png" 1920 1080;
        PresentationRenderResult.mk "s3" "/app/uploads/slide_images/s3.png" 1920 1080].
Proof. reflexivity. Qed.
